(** * Tax-loss harvesting rebalancer: target model, buy and sell selection,
      allocation solver

    A shallow embedding of [src/rebalancer.py].  Python exceptions are the
    [Raise] outcomes of a small error monad; dictionaries, which Python
    iterates in insertion order, are association lists.  Amounts of money,
    which the program keeps as Python or numpy floats, are exact rationals
    ([Q]) wherever rounding decides nothing.  The allocation solver is
    given twice: over the rationals, the algorithm as it is written, and
    over binary64 floats (module [F64]), the runs of its loop, whose
    outcome depends on the rounding. *)

From Stdlib Require Import String Ascii Bool Arith ZArith QArith Qabs List.
From Stdlib Require Import Lia Lqa Permutation Sorted ListSet.
From Stdlib Require Floats.
Import ListNotations.

Local Open Scope string_scope.
Local Open Scope list_scope.

(** ** Exceptions and the error monad *)

Inductive exn : Type :=
| AssertionError
| ValidationError
| TypeError
| RebalancerError
| IndexError
| ValueError
| KeyError
| ZeroDivisionError.

Inductive result (A : Type) : Type :=
| Ok (a : A)
| Raise (e : exn).

Arguments Ok {A} a.
Arguments Raise {A} e.

Definition bind {A B : Type} (m : result A) (k : A -> result B) : result B :=
  match m with
  | Ok a => k a
  | Raise e => Raise e
  end.

Notation "x <- m ;; k" := (bind m (fun x => k))
  (at level 61, m at next level, right associativity).
Notation "m ;;; k" := (bind m (fun _ => k))
  (at level 61, right associativity).

(** [assert b] of Python. *)
Definition assert (b : bool) : result unit :=
  if b then Ok tt else Raise AssertionError.

(** ** Numbers *)

Definition Qltb (a b : Q) : bool := negb (Qle_bool b a).

Fixpoint Qsum (l : list Q) : Q :=
  match l with
  | [] => 0
  | a :: l' => a + Qsum l'
  end.

(** Python's [int(q)] truncates towards zero. *)
Definition py_int (q : Q) : Z := Z.quot (Qnum q) (Z.pos (Qden q)).

(** [q == int(q)]. *)
Definition is_integral (q : Q) : bool := Qeq_bool q (inject_Z (py_int q)).

(** ** Strings *)

Definition upper_ascii (c : ascii) : ascii :=
  let n := nat_of_ascii c in
  if (97 <=? n)%nat && (n <=? 122)%nat then ascii_of_nat (n - 32) else c.

(** [s.upper()] on the ASCII letters that tickers are made of. *)
Fixpoint upper (s : string) : string :=
  match s with
  | EmptyString => EmptyString
  | String c s' => String (upper_ascii c) (upper s')
  end.

Definition mem (s : string) (l : list string) : bool :=
  existsb (String.eqb s) l.

Definition CASH_NAME : string := "Cash".
Definition OTHER_NAME : string := "Other".

(** ** Target model *)

Record TargetAssetclass : Type := {
  target : Q;
  name : string;
  _securities : list string;
  _badness_scores : list (option Q)
}.

(** [i is None or p(i)] *)
Definition none_or (p : Q -> bool) (i : option Q) : bool :=
  match i with
  | None => true
  | Some q => p q
  end.

(** [i == 1], false on [None]. *)
Definition is_one (i : option Q) : bool :=
  match i with
  | None => false
  | Some q => Qeq_bool q 1
  end.

(** Insertion into an ascending list without repetition: one step of
    [sorted(list(set(...)))]. *)
Fixpoint insert_unique (q : Q) (l : list Q) : list Q :=
  match l with
  | [] => [q]
  | a :: l' =>
      if Qeq_bool q a then l
      else if Qle_bool q a then q :: l
      else a :: insert_unique q l'
  end.

(** [sorted(list(set(badness_scores) - set([None])))] *)
Fixpoint unique_scores (bs : list (option Q)) : list Q :=
  match bs with
  | [] => []
  | None :: bs' => unique_scores bs'
  | Some q :: bs' => insert_unique q (unique_scores bs')
  end.

(** [all([u[i+1] - u[i] == 1 for i in range(len(u)-1)])] *)
Fixpoint consecutive (u : list Q) : bool :=
  match u with
  | a :: ((b :: _) as u') => Qeq_bool (b - a) 1 && consecutive u'
  | _ => true
  end.

(** [TargetAssetclass.__init__] *)
Definition TargetAssetclass_init (target : Q) (name : string)
    (securities : list string) (badness_scores : list (option Q))
  : result TargetAssetclass :=
  assert (Qltb 0 target && Qle_bool target 100) ;;;
  assert (is_integral target) ;;;
  assert (length badness_scores =? length securities)%nat ;;;
  assert (forallb (none_or is_integral) badness_scores) ;;;
  assert (forallb (none_or (Qle_bool 1)) badness_scores) ;;;
  assert (existsb is_one badness_scores) ;;;
  assert (consecutive (unique_scores badness_scores)) ;;;
  if mem name [OTHER_NAME; CASH_NAME] then Raise ValidationError
  else Ok {| target := target;
             name := name;
             _securities := map upper securities;
             _badness_scores := badness_scores |}.

(** [j == badness_score] for an integer tier and a stored score. *)
Definition score_is (b : Z) (j : option Q) : bool :=
  match j with
  | None => false
  | Some q => Qeq_bool q (inject_Z b)
  end.

(** [TargetAssetclass.securities(badness_score)]; [None] asks for all. *)
Definition securities (a : TargetAssetclass) (badness_score : option Z)
  : list string :=
  map fst
    (filter (fun ij : string * option Q =>
               match badness_score with
               | None => true
               | Some b => score_is b (snd ij)
               end)
            (combine (_securities a) (_badness_scores a))).

Definition badness_scores (a : TargetAssetclass) : list (option Q) :=
  _badness_scores a.

Record TargetPortfolio : Type := {
  _validated : bool;
  _target_assetclasses : list (string * TargetAssetclass)
}.

Definition TargetPortfolio_init : TargetPortfolio :=
  {| _validated := false; _target_assetclasses := [] |}.

Definition keys {V : Type} (d : list (string * V)) : list string := map fst d.
Definition values {V : Type} (d : list (string * V)) : list V := map snd d.

Fixpoint lookup {V : Type} (k : string) (d : list (string * V)) : option V :=
  match d with
  | [] => None
  | (k', v) :: d' => if String.eqb k k' then Some v else lookup k d'
  end.

(** [TargetPortfolio.add_assetclass] *)
Definition add_assetclass (p : TargetPortfolio) (target : Q) (name : string)
    (securities : list string) (badness_scores : list (option Q))
  : result TargetPortfolio :=
  assert (negb (_validated p)) ;;;
  a <- TargetAssetclass_init target name securities badness_scores ;;
  assert (negb (mem name (keys (_target_assetclasses p)))) ;;;
  Ok {| _validated := _validated p;
        _target_assetclasses := _target_assetclasses p ++ [(name, a)] |}.

(** The loop of [validate] over the asset classes, threading the set
    [all_securities].  [raise '...'] with a string operand is itself a
    [TypeError] in Python 3. *)
Fixpoint check_no_duplicates (all_securities : set string)
    (l : list TargetAssetclass) : result unit :=
  match l with
  | [] => Ok tt
  | a :: l' =>
      if (0 <? length (set_inter string_dec all_securities
                                 (securities a None)))%nat
      then Raise TypeError
      else check_no_duplicates
             (set_union string_dec all_securities (securities a None)) l'
  end.

(** [TargetPortfolio.validate] *)
Definition validate (p : TargetPortfolio) : result TargetPortfolio :=
  assert (Qeq_bool (Qsum (map target (values (_target_assetclasses p)))) 100) ;;;
  check_no_duplicates (empty_set string) (values (_target_assetclasses p)) ;;;
  Ok {| _validated := true;
        _target_assetclasses := _target_assetclasses p |}.

(** The [target_assetclasses] property. *)
Definition target_assetclasses (p : TargetPortfolio)
  : result (list (string * TargetAssetclass)) :=
  assert (_validated p) ;;;
  Ok (_target_assetclasses p).

(** [l.index(x)]-th entry of [bs]: the score stored beside the first
    occurrence of [symbol]. *)
Fixpoint badness_at (symbol : string) (secs : list string)
    (bs : list (option Q)) : option Q :=
  match secs, bs with
  | s :: secs', b :: bs' =>
      if String.eqb symbol s then b else badness_at symbol secs' bs'
  | _, _ => None
  end.

Record found : Type := {
  assetclass : string;
  badness : option Q
}.

Fixpoint find_in (symbol : string) (items : list (string * TargetAssetclass))
  : found :=
  match items with
  | [] => {| assetclass := OTHER_NAME; badness := None |}
  | (a_name, a) :: items' =>
      if mem symbol (securities a None)
      then {| assetclass := a_name;
              badness := badness_at symbol (securities a None)
                                    (badness_scores a) |}
      else find_in symbol items'
  end.

(** [TargetPortfolio.find_security] *)
Definition find_security (p : TargetPortfolio) (symbol : string)
  : result found :=
  items <- target_assetclasses p ;;
  Ok (find_in symbol items).

(** ** The account snapshot *)

(** A row of [df_positions]; the frame is indexed by symbol. *)
Record Position : Type := {
  p_symbol : string;
  p_market_value : Q;
  lots_loss : Q;
  lots_gain : Q
}.

(** A row of [df_lots]. *)
Record Lot : Type := {
  position_lot_id : string;
  symbol : string;
  quantity : Q;
  market_value : Q;
  gain : Q
}.

Record RecentTrades : Type := {
  sold : list string;
  bought : list string
}.

Record Account : Type := {
  df_positions : list Position;
  df_lots : list Lot;
  cash : Q;
  recent_trades : RecentTrades
}.

(** [df_positions.lots_loss.get(s, default)] *)
Fixpoint lots_loss_get (s : string) (ps : list Position) (default : Q) : Q :=
  match ps with
  | [] => default
  | p :: ps' =>
      if String.eqb s (p_symbol p) then lots_loss p
      else lots_loss_get s ps' default
  end.

(** ** Buy selector *)

(** An entry of [self._buys], and of the processed [forced_buys]. *)
Record Buy : Type := {
  security : option string;
  buy_badness : option Q
}.

(** The forced-buy loop of [Rebalancer.__init__]: every key must name an
    asset class, and a pinned security must be found in that class. *)
Fixpoint process_forced_buys (p : TargetPortfolio)
    (forced_buys : list (string * option string))
  : result (list (string * Buy)) :=
  match forced_buys with
  | [] => Ok []
  | (a, v) :: rest =>
      classes <- target_assetclasses p ;;
      if negb (mem a (keys classes)) then Raise RebalancerError
      else
        entry <- match v with
                 | None => Ok {| security := None; buy_badness := None |}
                 | Some s =>
                     sec <- find_security p s ;;
                     if negb (String.eqb (assetclass sec) a)
                     then Raise RebalancerError
                     else Ok {| security := Some s;
                                buy_badness := badness sec |}
                 end ;;
        rest' <- process_forced_buys p rest ;;
        Ok ((a, entry) :: rest')
  end.

(** The loss attached to a candidate: 0 when recently bought, otherwise
    the position's [lots_loss], 0 when the security is not held. *)
Definition loss_of (acct : Account) (s : string) : Q :=
  if mem s (bought (recent_trades acct)) then 0
  else lots_loss_get s (df_positions acct) 0.

(** The list comprehension building [buy_options] at one tier. *)
Definition buy_options (a : TargetAssetclass) (acct : Account)
    (badness_score : Z) : list (string * Q) :=
  map (fun s => (s, loss_of acct s))
      (filter (fun s => negb (mem s (sold (recent_trades acct))))
              (securities a (Some badness_score))).

(** Python's [sorted(l, key=...)]: ascending in the key and stable. *)
Fixpoint insert_by {A : Type} (key : A -> Q) (x : A) (l : list A) : list A :=
  match l with
  | [] => [x]
  | y :: l' =>
      if Qle_bool (key x) (key y) then x :: l
      else y :: insert_by key x l'
  end.

Fixpoint sorted {A : Type} (key : A -> Q) (l : list A) : list A :=
  match l with
  | [] => []
  | x :: l' => insert_by key x (sorted key l')
  end.

(** [lambda x : -x[1]] *)
Definition neg_loss (x : string * Q) : Q := - snd x.

(** The [while len(a.securities(badness_score)) > 0] loop for one asset
    class.  [Some b] is the entry stored in [buys] at the [break]; [None]
    is the loop ending at an empty tier with nothing stored.  The loop
    counter [fuel] is never what ends the loop ([tier_loop_fuel]). *)
Fixpoint tier_loop (fuel : nat) (a : TargetAssetclass) (acct : Account)
    (MAX_LOSS_TO_FORGO : Q) (badness_score : Z) : option Buy :=
  match fuel with
  | O => None
  | S fuel' =>
      if (0 <? length (securities a (Some badness_score)))%nat then
        match sorted neg_loss (buy_options a acct badness_score) with
        | (s, l) :: _ =>
            if Qle_bool (Qabs l) MAX_LOSS_TO_FORGO
            then Some {| security := Some s;
                         buy_badness := Some (inject_Z badness_score) |}
            else tier_loop fuel' a acct MAX_LOSS_TO_FORGO (badness_score + 1)
        | [] => tier_loop fuel' a acct MAX_LOSS_TO_FORGO (badness_score + 1)
        end
      else None
  end.

(** The automatic choice for one asset class, tiers starting at 1. *)
Definition pick_buy (a : TargetAssetclass) (acct : Account)
    (MAX_LOSS_TO_FORGO : Q) : option Buy :=
  tier_loop (S (length (_securities a))) a acct MAX_LOSS_TO_FORGO 1.

(** The loop of [_identify_buys] over the asset classes, building [buys]. *)
Fixpoint collect_buys (items : list (string * TargetAssetclass))
    (forced : list (string * Buy)) (acct : Account) (MAX_LOSS_TO_FORGO : Q)
  : list (string * Buy) :=
  match items with
  | [] => []
  | (a_name, a) :: items' =>
      let rest := collect_buys items' forced acct MAX_LOSS_TO_FORGO in
      match lookup a_name forced with
      | Some fb => (a_name, fb) :: rest
      | None =>
          match pick_buy a acct MAX_LOSS_TO_FORGO with
          | Some b => (a_name, b) :: rest
          | None => rest
          end
      end
  end.

(** [set(l1) == set(l2)] *)
Definition same_set (l1 l2 : list string) : bool :=
  forallb (fun s => mem s l2) l1 && forallb (fun s => mem s l1) l2.

(** [Rebalancer._identify_buys], lines 1540 to 1577: the selection and
    the check that every asset class has an entry.  The price look-up in
    which the function ends is [set_prices] below, and the function from
    its first line to its last is [_identify_buys_with_prices]. *)
Definition _identify_buys (p : TargetPortfolio) (forced : list (string * Buy))
    (acct : Account) (MAX_LOSS_TO_FORGO : Q) : result (list (string * Buy)) :=
  items <- target_assetclasses p ;;
  let buys := collect_buys items forced acct MAX_LOSS_TO_FORGO in
  if negb (same_set (keys buys) (keys items)) then Raise RebalancerError
  else Ok buys.

(** [Rebalancer.__init__] as far as the buys: process the forced buys,
    then identify the buys. *)
Definition init_buys (p : TargetPortfolio)
    (forced_buys : list (string * option string)) (acct : Account)
    (MAX_LOSS_TO_FORGO : Q) : result (list (string * Buy)) :=
  forced <- process_forced_buys p forced_buys ;;
  _identify_buys p forced acct MAX_LOSS_TO_FORGO.

(** ** Sell selector *)

(** [recent_trades['bought'] + [b['security'] for b in buys.values()]];
    a skipped class contributes [None], which no symbol equals. *)
Definition do_not_sell (acct : Account) (buys : list (string * Buy))
  : list (option string) :=
  map Some (bought (recent_trades acct)) ++ map security (values buys).

Definition in_do_not_sell (s : string) (dns : list (option string)) : bool :=
  existsb (fun o => match o with
                    | Some s' => String.eqb s s'
                    | None => false
                    end) dns.

(** Pass 1: the losing lots that may be sold. *)
Definition losing_lots (acct : Account) (dns : list (option string))
  : list Lot :=
  filter (fun r => negb (in_do_not_sell (symbol r) dns) && Qltb (gain r) 0)
         (df_lots acct).

(** The three tests of pass 2 on one position.  [badness > b] against
    a [None] score of the chosen buy is a [TypeError]. *)
Definition eligible_for_gains (p : TargetPortfolio)
    (buys : list (string * Buy)) (dns : list (option string))
    (row : Position) : result bool :=
  f <- find_security p (p_symbol row) ;;
  if in_do_not_sell (p_symbol row) dns then Ok false
  else if String.eqb (assetclass f) OTHER_NAME then Ok true
  else
    match lookup (assetclass f) buys with
    | None => Raise KeyError
    | Some b =>
        match security b with
        | None => Ok false
        | Some _ =>
            match badness f, buy_badness b with
            | None, _ => Ok true
            | Some q, Some qb => Ok (Qltb qb q)
            | Some _, None => Raise TypeError
            end
        end
    end.

(** [df_lots.query('(symbol == "...") and (gain > 0)')
           .sort_values('gain', ascending=True)];
    the order pandas gives to lots of equal gain is not fixed, and the
    cumulative gains below do not depend on it. *)
Definition gaining_lots (acct : Account) (sym : string) : list Lot :=
  sorted gain
         (filter (fun r => String.eqb (symbol r) sym && Qltb 0 (gain r))
                 (df_lots acct)).

(** [gaining_lots.iloc[0:k, :].gain.sum()] *)
Definition cumulative_gain (lots : list Lot) (k : nat) : Q :=
  Qsum (map gain (firstn k lots)).

(** One evaluation of the [while] test and, when it holds, of the body:
    [inl k] is the loop going on with [lots_to_sell = k], [inr k] is the
    loop left (by a false test or by [break]) with [lots_to_sell = k]. *)
Definition harvest_step (lots : list Lot) (MAX_GAIN_TO_SELL : Q)
    (lots_to_sell : nat) : nat + nat :=
  if Qltb (cumulative_gain lots (lots_to_sell + 1)) MAX_GAIN_TO_SELL then
    let lots_to_sell' := (lots_to_sell + 1)%nat in
    if (lots_to_sell' =? length lots)%nat then inr lots_to_sell'
    else inl lots_to_sell'
  else inr lots_to_sell.

(** The loop run for at most [fuel] evaluations of its test; [None] when
    it is still running after them. *)
Fixpoint harvest_loop (fuel : nat) (lots : list Lot) (MAX_GAIN_TO_SELL : Q)
    (lots_to_sell : nat) : option nat :=
  match fuel with
  | O => None
  | S fuel' =>
      match harvest_step lots MAX_GAIN_TO_SELL lots_to_sell with
      | inl k => harvest_loop fuel' lots MAX_GAIN_TO_SELL k
      | inr k => Some k
      end
  end.

(** The lots added to the sell set: [gaining_lots.iloc[0:lots_to_sell]]. *)
Definition lots_sold_for_gain (lots : list Lot) (lots_to_sell : nat)
  : list Lot := firstn lots_to_sell lots.

(** ** Allocation solver

    In exact arithmetic.  A row that a pass of the loop clamps comes back
    to its floor exactly here, whereas in binary64 it comes back within
    one rounding error, above or below, and the later passes depend on
    which: the loop is followed on floats in [F64] below. *)

(** A row of the frame returned by [_get_assetclass_table]: one per held
    asset class, then the rows of [OTHER_NAME] and [CASH_NAME], whose
    [target_perc] is null. *)
Record Row : Type := {
  index : string;
  target_perc : option Q;
  expected_sales : Q;
  expected_balance : Q;
  buy_security : option string
}.

Definition notnull {A : Type} (o : option A) : bool :=
  match o with Some _ => true | None => false end.

(** numpy indexing by a boolean array, [a[m]]: an [IndexError] unless the
    mask is as long as the array. *)
Fixpoint gather {A : Type} (m : list bool) (a : list A) : list A :=
  match m, a with
  | b :: m', v :: a' => if b then v :: gather m' a' else gather m' a'
  | _, _ => []
  end.

Definition mask_get {A : Type} (m : list bool) (a : list A)
  : result (list A) :=
  if (length m =? length a)%nat then Ok (gather m a) else Raise IndexError.

(** [a[m] = vals]: the values go, in order, to the places where the mask
    is true. *)
Fixpoint scatter {A : Type} (m : list bool) (a vals : list A) : list A :=
  match m, a with
  | b :: m', v :: a' =>
      if b then
        match vals with
        | w :: vals' => w :: scatter m' a' vals'
        | [] => v :: scatter m' a' []
        end
      else v :: scatter m' a' vals
  | _, _ => a
  end.

Definition count_true (m : list bool) : nat := length (filter id m).

Definition mask_set {A : Type} (m : list bool) (a vals : list A)
  : result (list A) :=
  if negb (length m =? length a)%nat then Raise IndexError
  else if negb (length vals =? count_true m)%nat then Raise ValueError
  else Ok (scatter m a vals).

(** [a[m] = v] for a scalar [v]. *)
Definition mask_fill {A : Type} (m : list bool) (a : list A) (v : A)
  : result (list A) :=
  if (length m =? length a)%nat
  then Ok (map (fun bv : bool * A => if fst bv then v else snd bv)
               (combine m a))
  else Raise IndexError.

(** Division of rationals.  Python raises [ZeroDivisionError] on a zero
    divisor of its own numbers, as [N] is on a frame without rows.  On a
    zero of numpy the program goes on with inf or nan and a warning;
    the rationals have no such values and the outcome here is [Raise
    ZeroDivisionError] as well: what the program does then is followed
    in [F64], and the statements over [divide] are about divisors that are
    not zero or about Python's zero. *)
Definition divide (a b : Q) : result Q :=
  if Qeq_bool b 0 then Raise ZeroDivisionError else Ok (a / b).

(** An array divided by a scalar, element by element: nothing is divided
    when the array is empty. *)
Fixpoint divide_all (a : list Q) (b : Q) : result (list Q) :=
  match a with
  | [] => Ok []
  | v :: a' =>
      q <- divide v b ;;
      qs <- divide_all a' b ;;
      Ok (q :: qs)
  end.

Definition of_nat (n : nat) : Q := inject_Z (Z.of_nat n).

(** Element-wise operations on arrays of one length. *)
Fixpoint zip_with {A B C : Type} (f : A -> B -> C) (a : list A) (b : list B)
  : list C :=
  match a, b with
  | v :: a', w :: b' => f v w :: zip_with f a' b'
  | _, _ => []
  end.

(** The arrays that the iteration updates: [x] and [mu]; [gamma] is
    computed afresh in every pass. *)
Record Iterate : Type := {
  x_ : list Q;
  mu_ : list Q
}.

(** The body of the [while] loop of [_identify_buy_amounts]. *)
Definition solver_step (I : list bool) (N : nat) (T : Q) (chi ell : list Q)
    (st : Iterate) : result Iterate :=
  xI <- mask_get I (x_ st) ;;
  ellI <- mask_get I ell ;;
  let J := zip_with Qle_bool xI ellI in
  Imj <- mask_fill J I false ;;
  d <- divide 2 (of_nat N - of_nat (count_true J)) ;;
  chiImj <- mask_get Imj chi ;;
  ellJ <- mask_get J ell ;;
  let gamma := d * (Qsum chiImj + Qsum ellJ - T) in
  chiJ <- mask_get J chi ;;
  mu <- mask_set J (mu_ st)
                 (map (fun v => v + gamma)
                      (map (Qmult 2) (zip_with Qminus ellJ chiJ))) ;;
  chiI <- mask_get I chi ;;
  muI <- mask_get I mu ;;
  x <- mask_set I (x_ st)
                (zip_with Qplus chiI
                          (map (Qmult (1 # 2))
                               (map (fun m => m - gamma) muI))) ;;
  Ok {| x_ := x; mu_ := mu |}.

(** [sum(x[I] < ell[I]) > 0] *)
Definition infeasible (I : list bool) (ell x : list Q) : result bool :=
  xI <- mask_get I x ;;
  ellI <- mask_get I ell ;;
  Ok (0 <? count_true (zip_with Qltb xI ellI))%nat.

(** The [while] loop; [cap] counts the iterations left before [i]
    reaches 1000. *)
Fixpoint solver_loop (cap : nat) (I : list bool) (N : nat) (T : Q)
    (chi ell : list Q) (st : Iterate) : result Iterate :=
  match cap with
  | O => Ok st
  | S cap' =>
      again <- infeasible I ell (x_ st) ;;
      if again then
        st' <- solver_step I N T chi ell st ;;
        solver_loop cap' I N T chi ell st'
      else Ok st
  end.

Definition ITERATION_LIMIT : nat := 1000.

(** The solver on the rows of the target portfolio: the array [x] it
    ends with. *)
Definition solve (df_assetclasses : list Row) (cash_from_sales : Q)
  : result (list Q) :=
  let I := map (fun r => notnull (buy_security r)) df_assetclasses in
  let N := count_true I in
  let ell := map expected_balance df_assetclasses in
  ellI <- mask_get I ell ;;
  let T := Qsum ellI + cash_from_sales in
  (* [target_perc] is not null on these rows *)
  let chi := map (fun r => match target_perc r with
                           | Some t => t
                           | None => 0
                           end) df_assetclasses in
  chiI <- mask_get I chi ;;
  chi <- divide_all chi (Qsum chiI) ;;
  let chi := map (fun c => c * T) chi in
  let x := ell in
  let mu := map (fun _ => 0) chi in
  d <- divide 2 (of_nat N) ;;
  chiI <- mask_get I chi ;;
  let gamma := d * (Qsum chiI - T) in
  x <- mask_set I x (map (fun c => c - (1 # 2) * gamma) chiI) ;;
  st <- solver_loop ITERATION_LIMIT I N T chi ell
                    {| x_ := x; mu_ := mu |} ;;
  Ok (x_ st).

(** [Rebalancer._identify_buy_amounts]: the [target_buy] of every row of
    the target portfolio. *)
Definition _identify_buy_amounts (table : list Row)
  : result (list (string * Q)) :=
  let cash_from_sales := Qsum (map expected_sales table) in
  let df_assetclasses := filter (fun r => notnull (target_perc r)) table in
  x <- solve df_assetclasses cash_from_sales ;;
  Ok (zip_with (fun r v => (index r, v - expected_balance r))
               df_assetclasses x).

(** ** Notions used in the statements *)

(** Some security of an asset class is also a security of an asset class
    added before it. *)
Definition shares_a_security (l : list TargetAssetclass) : Prop :=
  exists l1 a l2 s,
    l = l1 ++ a :: l2 /\
    In s (securities a None) /\
    exists b, In b l1 /\ In s (securities b None).

Definition targets_sum (p : TargetPortfolio) : Q :=
  Qsum (map target (values (_target_assetclasses p))).

(** A tier is passed over: it has no candidate left, or the loss of its
    best candidate exceeds the tolerance. *)
Definition tier_rejected (a : TargetAssetclass) (acct : Account) (M : Q)
    (b : Z) : Prop :=
  match sorted neg_loss (buy_options a acct b) with
  | [] => True
  | (_, l) :: _ => M < Qabs l
  end.

(** The number of securities whose score is [b] or more: the tiers still
    ahead of the tier loop. *)
Definition scores_from (a : TargetAssetclass) (b : Z) : nat :=
  length (filter (fun ij : string * option Q =>
                    match snd ij with
                    | Some q => Qle_bool (inject_Z b) q
                    | None => false
                    end)
                 (combine (_securities a) (_badness_scores a))).

(** [s] carries a numeric badness score in asset class [a]. *)
Definition has_score (a : TargetAssetclass) (s : string) : Prop :=
  exists q, In (s, Some q) (combine (_securities a) (_badness_scores a)).

(** What the forced-buy loop stores for a pinned security. *)
Definition pinned (p : TargetPortfolio) (s : string) : Buy :=
  {| security := Some s;
     buy_badness := badness (find_in s (_target_assetclasses p)) |}.

Definition skipped : Buy := {| security := None; buy_badness := None |}.

(** The one requirement on an entry of [forced_buys]: its key names an
    asset class, and a pinned security is found in that class. *)
Definition forced_entry_valid (p : TargetPortfolio)
    (entry : string * option string) : Prop :=
  In (fst entry) (keys (_target_assetclasses p)) /\
  forall s, snd entry = Some s ->
            assetclass (find_in s (_target_assetclasses p)) = fst entry.

(** *** The solver seen one asset class at a time

    When every row of the target portfolio has a buy security the masks
    select everything, and a pass of the loop acts on each asset class by
    itself once [gamma] is known. *)

Record Cell : Type := {
  c_chi : Q;
  c_ell : Q;
  c_x : Q;
  c_mu : Q
}.

(** Membership in [J]. *)
Definition at_floor (c : Cell) : bool := Qle_bool (c_x c) (c_ell c).

Definition below_floor (c : Cell) : bool := Qltb (c_x c) (c_ell c).

Definition free_count (l : list Cell) : Q :=
  of_nat (length l) - of_nat (length (filter at_floor l)).

Definition cells_gamma (T : Q) (l : list Cell) : Q :=
  (2 / free_count l)
  * (Qsum (map c_chi (filter (fun c => negb (at_floor c)) l))
     + Qsum (map c_ell (filter at_floor l)) - T).

Definition new_mu (gamma : Q) (c : Cell) : Q :=
  if at_floor c then 2 * (c_ell c - c_chi c) + gamma else c_mu c.

Definition cell_step (gamma : Q) (c : Cell) : Cell :=
  {| c_chi := c_chi c;
     c_ell := c_ell c;
     c_x := c_chi c + (1 # 2) * (new_mu gamma c - gamma);
     c_mu := new_mu gamma c |}.

Fixpoint cells_loop (cap : nat) (T : Q) (l : list Cell)
  : result (list Cell) :=
  match cap with
  | O => Ok l
  | S cap' =>
      if (0 <? length (filter below_floor l))%nat then
        if Qeq_bool (free_count l) 0 then Raise ZeroDivisionError
        else cells_loop cap' T (map (cell_step (cells_gamma T l)) l)
      else Ok l
  end.

Definition iterate_of (l : list Cell) : Iterate :=
  {| x_ := map c_x l; mu_ := map c_mu l |}.

(** What every pass of the loop keeps: the allocation sums to [T], and an
    asset class either sits on its floor or has never been clamped. *)
Definition cells_inv (T : Q) (l : list Cell) : Prop :=
  Qsum (map c_x l) == T /\
  Forall (fun c => c_x c == c_ell c \/ c_mu c == 0) l.

(** The number of asset classes above their floor. *)
Definition free_cells (l : list Cell) : nat :=
  length (filter (fun c => negb (at_floor c)) l).

(** *** The quantities of the solver, row by row *)

Definition active (r : Row) : bool := notnull (buy_security r).

Definition tp (r : Row) : Q :=
  match target_perc r with
  | Some t => t
  | None => 0
  end.

(** [T]: the floors of the active rows plus the cash from sales. *)
Definition total (rows : list Row) (cash_from_sales : Q) : Q :=
  Qsum (map expected_balance (filter active rows)) + cash_from_sales.

Definition active_targets (rows : list Row) : Q :=
  Qsum (map tp (filter active rows)).

(** [chi]: the target of a row in currency. *)
Definition chi_of (rows : list Row) (c : Q) (r : Row) : Q :=
  tp r / active_targets rows * total rows c.

(** The first [gamma], and the allocation before the loop. *)
Definition gamma0 (rows : list Row) (c : Q) : Q :=
  2 / of_nat (length (filter active rows))
  * (Qsum (map (chi_of rows c) (filter active rows)) - total rows c).

Definition x0 (rows : list Row) (c : Q) (r : Row) : Q :=
  if active r then chi_of rows c r - (1 # 2) * gamma0 rows c
  else expected_balance r.

Definition cell0 (rows : list Row) (c : Q) (r : Row) : Cell :=
  {| c_chi := chi_of rows c r;
     c_ell := expected_balance r;
     c_x := x0 rows c r;
     c_mu := 0 |}.

(** A row with its floor replaced. *)
Definition set_floor (r : Row) (v : Q) : Row :=
  {| index := index r;
     target_perc := target_perc r;
     expected_sales := expected_sales r;
     expected_balance := v;
     buy_security := buy_security r |}.

(** The rows as the next run of the solver sees them when the floors are
    replaced by an allocation [x]. *)
Definition with_floors (rows : list Row) (x : list Q) : list Row :=
  zip_with set_floor rows x.

(** The rows of a target portfolio: each has a positive target, and
    there are no more of them than the cap of the iteration (targets are
    positive integers summing to 100, so there are at most 100). *)
Definition target_rows (rows : list Row) : Prop :=
  (forall r, In r rows -> exists t, target_perc r = Some t /\ 0 < t) /\
  (length rows <= ITERATION_LIMIT)%nat.

(** ** Concrete inputs *)

Module Demo.

(** Two asset classes, 60 and 40 percent. *)
Definition stocks : TargetAssetclass :=
  {| target := 60; name := "Stocks";
     _securities := ["IVV"; "VOO"; "IWB"];
     _badness_scores := [Some 1; Some 2; None] |}.

Definition bonds : TargetAssetclass :=
  {| target := 40; name := "Bonds";
     _securities := ["MUB"; "TFI"];
     _badness_scores := [Some 1; Some 1] |}.

Definition classes : list (string * TargetAssetclass) :=
  [ ("Stocks", stocks); ("Bonds", bonds) ].

Definition draft : TargetPortfolio :=
  {| _validated := false; _target_assetclasses := classes |}.

Definition portfolio : TargetPortfolio :=
  {| _validated := true; _target_assetclasses := classes |}.

(** Positions outside the target portfolio: VIG with two winning lots,
    ORAN with a losing lot only. *)
Definition vig : Position :=
  {| p_symbol := "VIG"; p_market_value := 1500;
     lots_loss := 0; lots_gain := 15 |}.

Definition oran : Position :=
  {| p_symbol := "ORAN"; p_market_value := 80;
     lots_loss := - (20); lots_gain := 0 |}.

(** IVV was sold in the window and is still held at a loss of 500. *)
Definition account : Account :=
  {| df_positions :=
       [ {| p_symbol := "IVV"; p_market_value := 4000;
            lots_loss := - (500); lots_gain := 0 |};
         {| p_symbol := "TFI"; p_market_value := 500;
            lots_loss := 0; lots_gain := 10 |};
         vig; oran ];
     df_lots :=
       [ {| position_lot_id := "1"; symbol := "IVV"; quantity := 10;
            market_value := 4000; gain := - (500) |};
         {| position_lot_id := "2"; symbol := "TFI"; quantity := 5;
            market_value := 500; gain := 10 |};
         {| position_lot_id := "3"; symbol := "VIG"; quantity := 5;
            market_value := 500; gain := 10 |};
         {| position_lot_id := "4"; symbol := "VIG"; quantity := 10;
            market_value := 1000; gain := 5 |};
         {| position_lot_id := "5"; symbol := "ORAN"; quantity := 8;
            market_value := 80; gain := - (20) |} ];
     cash := 1000;
     recent_trades := {| sold := ["IVV"]; bought := [] |} |}.

(** The buys identified for this account without forced buys. *)
Definition buys : list (string * Buy) :=
  [ ("Stocks", {| security := Some "VOO"; buy_badness := Some 2 |});
    ("Bonds", {| security := Some "MUB"; buy_badness := Some 1 |}) ].

(** The user pins IVV for the stocks. *)
Definition forced_buys : list (string * option string) :=
  [ ("Stocks", Some "IVV") ].

(** The frame of a run in which a third asset class, Gold, is skipped by
    a forced buy of [None]: stocks already hold 9000, bonds nothing, and
    1000 of cash is free. *)
Definition table_gold_skipped : list Row :=
  [ {| index := "Stocks"; target_perc := Some 60; expected_sales := 0;
       expected_balance := 9000; buy_security := Some "VOO" |};
    {| index := "Bonds"; target_perc := Some 30; expected_sales := 0;
       expected_balance := 0; buy_security := Some "MUB" |};
    {| index := "Gold"; target_perc := Some 10; expected_sales := 0;
       expected_balance := 500; buy_security := None |};
    {| index := OTHER_NAME; target_perc := None; expected_sales := 0;
       expected_balance := 0; buy_security := None |};
    {| index := CASH_NAME; target_perc := None; expected_sales := 1000;
       expected_balance := 0; buy_security := None |} ].

(** The same holdings with stocks and bonds only (scenario B of the
    specification: 9000 and 0 held, 1000 of cash, targets 60 and 40). *)
Definition table_two_classes : list Row :=
  [ {| index := "Stocks"; target_perc := Some 60; expected_sales := 0;
       expected_balance := 9000; buy_security := Some "VOO" |};
    {| index := "Bonds"; target_perc := Some 40; expected_sales := 0;
       expected_balance := 0; buy_security := Some "MUB" |};
    {| index := OTHER_NAME; target_perc := None; expected_sales := 0;
       expected_balance := 0; buy_security := None |};
    {| index := CASH_NAME; target_perc := None; expected_sales := 1000;
       expected_balance := 0; buy_security := None |} ].

(** Its rows of the target portfolio and its cash from sales. *)
Definition rows_two_classes : list Row :=
  filter (fun r => notnull (target_perc r)) table_two_classes.

Definition cash_two_classes : Q :=
  Qsum (map expected_sales table_two_classes).


(** The frame of an account that holds nothing of the target portfolio,
    every asset class being skipped by a forced buy of [None]. *)
Definition table_nothing_held : list Row :=
  [ {| index := OTHER_NAME; target_perc := None; expected_sales := 0;
       expected_balance := 0; buy_security := None |};
    {| index := CASH_NAME; target_perc := None; expected_sales := 1000;
       expected_balance := 0; buy_security := None |} ].

End Demo.

(** ** Notions used in the further properties *)

(** The portfolios that the interface of [TargetPortfolio] can build: the
    empty one, extended by successful calls of [add_assetclass]. *)
Inductive built : TargetPortfolio -> Prop :=
| built_init : built TargetPortfolio_init
| built_add (p p' : TargetPortfolio) (t : Q) (n : string)
    (secs : list string) (bs : list (option Q)) :
    built p -> add_assetclass p t n secs bs = Ok p' -> built p'.

(** A rational equal to some element of a list. *)
Definition InQ (q : Q) (l : list Q) : Prop := exists y, In y l /\ y == q.

(** [s] may be bought automatically: it was not sold in the look-back
    window and the loss it carries is within the tolerance. *)
Definition acceptable (acct : Account) (M : Q) (s : string) : Prop :=
  ~ In s (sold (recent_trades acct)) /\ Qabs (loss_of acct s) <= M.

(** ** The sell selector as a whole *)

(** An entry of [sells[s]['lots']]. *)
Record LotRef : Type := {
  ref_position_lot_id : string;
  ref_quantity : Q
}.

(** A value of the [sells] dictionary; [estimated_proceeds] is absent
    until the orders are previewed. *)
Record Sell : Type := {
  sell_lots : list LotRef;
  sell_loss : bool;
  sell_gain : bool;
  estimated_proceeds : option Q
}.

(** [d[k] = v] on a dictionary that keeps the order of insertion. *)
Fixpoint dict_set {V : Type} (k : string) (v : V) (d : list (string * V))
  : list (string * V) :=
  match d with
  | [] => [(k, v)]
  | (k', v') :: d' =>
      if String.eqb k k' then (k, v) :: d' else (k', v') :: dict_set k v d'
  end.

Definition lot_ref (r : Lot) : LotRef :=
  {| ref_position_lot_id := position_lot_id r; ref_quantity := quantity r |}.

Definition fresh_sell : Sell :=
  {| sell_lots := []; sell_loss := false; sell_gain := false;
     estimated_proceeds := None |}.

(** The dict comprehension over [df_positions.index]. *)
Definition sells_init (acct : Account) : list (string * Sell) :=
  fold_left (fun d row => dict_set (p_symbol row) fresh_sell d)
            (df_positions acct) [].

(** The loop over [df_lots.iterrows()]: an unprotected losing lot is
    appended to the entry of its symbol. *)
Fixpoint sell_losses (dns : list (option string)) (rows : list Lot)
    (sells : list (string * Sell)) : result (list (string * Sell)) :=
  match rows with
  | [] => Ok sells
  | row :: rows' =>
      if negb (in_do_not_sell (symbol row) dns) && Qltb (gain row) 0 then
        match lookup (symbol row) sells with
        | None => Raise KeyError
        | Some e =>
            sell_losses dns rows'
              (dict_set (symbol row)
                 {| sell_lots := sell_lots e ++ [lot_ref row];
                    sell_loss := true;
                    sell_gain := sell_gain e;
                    estimated_proceeds := estimated_proceeds e |}
                 sells)
        end
      else sell_losses dns rows' sells
  end.

(** The loop over [df_positions.iterrows()]: for an eligible position the
    harvest loop is run and the lots it selects are added.  [None] is the
    harvest loop of some position still running after [fuel] tests. *)
Fixpoint sell_gains (fuel : nat) (p : TargetPortfolio)
    (buys : list (string * Buy)) (dns : list (option string))
    (acct : Account) (MAX_GAIN_TO_SELL : Q) (rows : list Position)
    (sells : list (string * Sell)) : option (result (list (string * Sell))) :=
  match rows with
  | [] => Some (Ok sells)
  | row :: rows' =>
      match eligible_for_gains p buys dns row with
      | Raise e => Some (Raise e)
      | Ok false =>
          sell_gains fuel p buys dns acct MAX_GAIN_TO_SELL rows' sells
      | Ok true =>
          let lots := gaining_lots acct (p_symbol row) in
          match harvest_loop fuel lots MAX_GAIN_TO_SELL 0 with
          | None => None
          | Some lots_to_sell =>
              match lookup (p_symbol row) sells with
              | None => Some (Raise KeyError)
              | Some e =>
                  sell_gains fuel p buys dns acct MAX_GAIN_TO_SELL rows'
                    (dict_set (p_symbol row)
                       {| sell_lots :=
                            sell_lots e ++
                            map lot_ref (lots_sold_for_gain lots lots_to_sell);
                          sell_loss := sell_loss e;
                          sell_gain := if (0 <? lots_to_sell)%nat then true
                                       else sell_gain e;
                          estimated_proceeds := estimated_proceeds e |}
                       sells)
              end
          end
      end
  end.

(** [sells[s]['sell_loss'] or sells[s]['sell_gain']] *)
Definition sold_something (se : string * Sell) : bool :=
  sell_loss (snd se) || sell_gain (snd se).

(** The preview without a connection: the market value of the rows of
    [df_lots] whose lot id is among the lots to sell. *)
Definition preview (acct : Account) (se : string * Sell) : string * Sell :=
  (fst se,
   {| sell_lots := sell_lots (snd se);
      sell_loss := sell_loss (snd se);
      sell_gain := sell_gain (snd se);
      estimated_proceeds :=
        Some (Qsum (map market_value
                        (filter (fun r =>
                                   mem (position_lot_id r)
                                       (map ref_position_lot_id
                                            (sell_lots (snd se))))
                                (df_lots acct)))) |}).

(** [Rebalancer._identify_sells] when no connection is given, so that the
    proceeds are estimated from the lots. *)
Definition _identify_sells (fuel : nat) (p : TargetPortfolio)
    (buys : list (string * Buy)) (acct : Account) (MAX_GAIN_TO_SELL : Q)
  : option (result (list (string * Sell))) :=
  let dns := do_not_sell acct buys in
  match sell_losses dns (df_lots acct) (sells_init acct) with
  | Raise e => Some (Raise e)
  | Ok sells =>
      match sell_gains fuel p buys dns acct MAX_GAIN_TO_SELL
                       (df_positions acct) sells with
      | None => None
      | Some (Raise e) => Some (Raise e)
      | Some (Ok sells') =>
          Some (Ok (map (preview acct) (filter sold_something sells')))
      end
  end.

(** The lots of [s] that pass 1 sells, in the order of [df_lots]. *)
Definition losses_sold (acct : Account) (dns : list (option string))
    (s : string) : list Lot :=
  filter (fun r => String.eqb (symbol r) s) (losing_lots acct dns).

(** The lots of [s] that pass 2 sells, position row by position row. *)
Definition gains_sold (fuel : nat) (p : TargetPortfolio)
    (buys : list (string * Buy)) (dns : list (option string))
    (acct : Account) (M : Q) (rows : list Position) (s : string) : list Lot :=
  flat_map
    (fun row =>
       if String.eqb (p_symbol row) s then
         match eligible_for_gains p buys dns row with
         | Ok true =>
             match harvest_loop fuel (gaining_lots acct s) M 0 with
             | Some k => lots_sold_for_gain (gaining_lots acct s) k
             | None => []
             end
         | _ => []
         end
       else [])
    rows.

(** An entry of [sells] with further lots sold at a loss, or at a gain. *)
Definition with_losses (e : Sell) (ls : list Lot) : Sell :=
  {| sell_lots := sell_lots e ++ map lot_ref ls;
     sell_loss := sell_loss e || (0 <? length ls)%nat;
     sell_gain := sell_gain e;
     estimated_proceeds := estimated_proceeds e |}.

Definition with_gains (e : Sell) (ls : list Lot) : Sell :=
  {| sell_lots := sell_lots e ++ map lot_ref ls;
     sell_loss := sell_loss e;
     sell_gain := sell_gain e || (0 <? length ls)%nat;
     estimated_proceeds := estimated_proceeds e |}.

(** The test of pass 1 on a lot. *)
Definition loss_to_sell (dns : list (option string)) (r : Lot) : bool :=
  negb (in_do_not_sell (symbol r) dns) && Qltb (gain r) 0.

(** The entry that [_identify_sells] returns for a security of which the
    lots [L] are sold at a loss and the lots [G] at a gain. *)
Definition sold_entry (acct : Account) (L G : list Lot) : Sell :=
  {| sell_lots := map lot_ref (L ++ G);
     sell_loss := (0 <? length L)%nat;
     sell_gain := (0 <? length G)%nat;
     estimated_proceeds :=
       Some (Qsum (map market_value
                       (filter (fun r =>
                                  mem (position_lot_id r)
                                      (map ref_position_lot_id
                                           (map lot_ref (L ++ G))))
                               (df_lots acct)))) |}.

Module DemoSells.

(** The account of [Demo] in which ORAN also has a winning lot, so that
    every position examined for gains has one. *)
Definition account : Account :=
  {| df_positions :=
       [ {| p_symbol := "IVV"; p_market_value := 4000;
            lots_loss := - (500); lots_gain := 0 |};
         {| p_symbol := "TFI"; p_market_value := 500;
            lots_loss := 0; lots_gain := 10 |};
         Demo.vig;
         {| p_symbol := "ORAN"; p_market_value := 110;
            lots_loss := - (20); lots_gain := 3 |} ];
     df_lots :=
       df_lots Demo.account ++
       [ {| position_lot_id := "6"; symbol := "ORAN"; quantity := 3;
            market_value := 30; gain := 3 |} ];
     cash := 1000;
     recent_trades := {| sold := ["IVV"]; bought := [] |} |}.

(** The buys when the user pins IWB, which has no badness score, for the
    stocks. *)
Definition buys_pinned : list (string * Buy) :=
  [ ("Stocks", {| security := Some "IWB"; buy_badness := None |});
    ("Bonds", {| security := Some "MUB"; buy_badness := Some 1 |}) ].

End DemoSells.

(** ** Whole shares *)

(** Step 10 of [_get_assetclass_table] on one row:
    [(target_buy / current_price).apply(lambda x : int(x) if pd.notnull(x)
    else np.nan)]; a row without target buy or without price has a null.
    A price of zero gives inf or nan in numpy, which the model does not
    have: the properties below are about positive prices. *)
Definition buy_quantity (target_buy current_price : option Q) : option Z :=
  match target_buy, current_price with
  | Some t, Some c => Some (py_int (t / c))
  | _, _ => None
  end.

(** [df.buy_quantity * df.current_price] *)
Definition expected_buy (target_buy current_price : option Q) : option Q :=
  match buy_quantity target_buy current_price, current_price with
  | Some n, Some c => Some (inject_Z n * c)
  | _, _ => None
  end.





(** ** The defaults of the rebalancer *)

(** The target portfolio that [Rebalancer.__init__] builds when none is
    given: eight calls of [add_assetclass], then [validate]. *)
Definition default_target_portfolio : result TargetPortfolio :=
  p <- add_assetclass TargetPortfolio_init 41 "1. US Large Cap"
         ["IVV"; "SCHX"; "VV"; "VOO"; "IWB"]
         [Some 1; Some 2; Some 3; Some 4; None] ;;
  p <- add_assetclass p 11 "2. US Mid Cap"
         ["IJH"; "VO"; "SCHM"; "IWR"]
         [Some 1; Some 2; Some 3; None] ;;
  p <- add_assetclass p 5 "3. US Small Cap"
         ["IJR"; "SCHA"; "VB"; "VXF"; "IWM"]
         [Some 1; Some 2; Some 3; None; None] ;;
  p <- add_assetclass p 23 "4. Int. Developed Mkts"
         ["VEA"; "IEFA"; "SCHF"; "VEU"]
         [Some 1; Some 2; Some 3; Some 4] ;;
  p <- add_assetclass p 5 "5. Int. Emerging Mkts"
         ["VWO"; "IEMG"; "SCHE"]
         [Some 1; Some 2; Some 3] ;;
  p <- add_assetclass p 5 "6. Real Estate"
         ["VNQ"; "SCHH"; "USRT"; "RWR"]
         [Some 1; Some 2; Some 3; None] ;;
  p <- add_assetclass p 3 "7. Fixed Income Short Trm"
         ["SUB"; "SHM"]
         [Some 1; Some 2] ;;
  p <- add_assetclass p 7 "8. Fixed Income Mid+Long Trm"
         ["MUB"; "VTEB"; "TFI"; "ITM"]
         [Some 1; Some 2; Some 3; None] ;;
  validate p.

(** The prices that [_identify_buys] uses when no connection is given. *)
Definition offline_prices : list (string * Q) :=
  [ ("IEMG", 449579 # 10000);
    ("VIG", 14927 # 100);
    ("VO", 2038899998330551 # 10000000000000);
    ("VTEB", 477534 # 10000);
    ("VV", 17443 # 100);
    ("VEA", 40185 # 1000);
    ("SUB", 10281 # 100);
    ("SCHA", 413399 # 10000);
    ("SCHD", 7504999513134058 # 100000000000000);
    ("SCHF", 3104 # 100);
    ("SCHH", 19165 # 1000);
    ("VWO", 37540997500635285 # 1000000000000000);
    ("IVV", 38339 # 100);
    ("SCHX", 45075 # 1000);
    ("VOO", 350855 # 1000);
    ("IWB", 20879 # 100);
    ("IJH", 2365 # 10);
    ("SCHM", 6564500000000001 # 100000000000000);
    ("IWR", 671 # 10);
    ("IJR", 9892 # 100);
    ("VB", 1855 # 10);
    ("VXF", 13518 # 100);
    ("IWM", 1794 # 10);
    ("IEFA", 59575 # 1000);
    ("VEU", 46725 # 1000);
    ("SCHE", 10785 # 1000);
    ("VNQ", 8191499999999999 # 100000000000000);
    ("USRT", 49065 # 1000);
    ("RWR", 87025 # 1000);
    ("SHM", 4554 # 100);
    ("MUB", 102015 # 1000);
    ("TFI", 4386 # 100);
    ("ITM", 4376 # 100) ].

(** [{...}[a['security']]]: a [KeyError] for a security that the table
    does not list. *)
Definition current_price_offline (security : string) : result Q :=
  match lookup security offline_prices with
  | Some c => Ok c
  | None => Raise KeyError
  end.

(** The last loop of [_identify_buys] without a connection: every buy
    that has a security gets its [current_price]; the result lists these
    prices by asset class. *)
Fixpoint price_buys (buys : list (string * Buy))
  : result (list (string * Q)) :=
  match buys with
  | [] => Ok []
  | (a_name, a) :: buys' =>
      match security a with
      | None => price_buys buys'
      | Some s =>
          c <- current_price_offline s ;;
          rest <- price_buys buys' ;;
          Ok ((a_name, c) :: rest)
      end
  end.

(** The last loop of [_identify_buys] whatever the source of the prices:
    [current_price] is the look-up in the table above on a run without a
    connection and the broker's [get_current_price] otherwise.  The loop
    goes through [buys] in order and stops on the first exception. *)
Fixpoint set_prices (current_price : string -> result Q)
    (buys : list (string * Buy)) : result (list (string * Q)) :=
  match buys with
  | [] => Ok []
  | (a_name, a) :: buys' =>
      match security a with
      | None => set_prices current_price buys'
      | Some s =>
          c <- current_price s ;;
          rest <- set_prices current_price buys' ;;
          Ok ((a_name, c) :: rest)
      end
  end.

(** [Rebalancer._identify_buys] from its first line to its last: the
    buys and the price of every security bought.  [self._buys] is
    assigned in the last line, after the price look-up. *)
Definition _identify_buys_with_prices (current_price : string -> result Q)
    (p : TargetPortfolio) (forced : list (string * Buy)) (acct : Account)
    (MAX_LOSS_TO_FORGO : Q)
  : result (list (string * Buy) * list (string * Q)) :=
  buys <- _identify_buys p forced acct MAX_LOSS_TO_FORGO ;;
  prices <- set_prices current_price buys ;;
  Ok (buys, prices).

(** Every security of the portfolio has a positive price in the table. *)
Definition all_priced (p : TargetPortfolio) : bool :=
  forallb (fun na : string * TargetAssetclass =>
             forallb (fun s => match lookup s offline_prices with
                               | Some c => Qltb 0 c
                               | None => false
                               end)
                     (securities (snd na) None))
          (_target_assetclasses p).

(** ** The dictionary of forced buys, as the caller sees it *)

(** A value of the [forced_buys] dictionary: [None] or a ticker, as the
    user gives them, or the dictionary with the entries ['security'] and
    ['badness'] that the loop of [__init__] stores in their place. *)
Inductive ForcedBuy : Type :=
| FNone
| FTicker (s : string)
| FEntry (security : ForcedBuy) (badness : option Q).

(** [find_security] on a value of [forced_buys]: a dictionary is in no
    list of tickers, so that the loop over the asset classes falls
    through. *)
Definition find_forced (p : TargetPortfolio) (v : ForcedBuy) : result found :=
  match v with
  | FTicker s => find_security p s
  | _ =>
      target_assetclasses p ;;;
      Ok {| assetclass := OTHER_NAME; badness := None |}
  end.

(** The loop [for a in forced_buys] of [Rebalancer.__init__], assigning to
    [forced_buys[a]] in the dictionary that the caller passed. *)
Fixpoint forced_buys_loop (p : TargetPortfolio) (todo : list string)
    (forced_buys : list (string * ForcedBuy))
  : result (list (string * ForcedBuy)) :=
  match todo with
  | [] => Ok forced_buys
  | a :: todo' =>
      classes <- target_assetclasses p ;;
      if negb (mem a (keys classes)) then Raise RebalancerError
      else
        match lookup a forced_buys with
        | None => Raise KeyError
        | Some FNone =>
            forced_buys_loop p todo'
              (dict_set a (FEntry FNone None) forced_buys)
        | Some v =>
            sec <- find_forced p v ;;
            if negb (String.eqb (assetclass sec) a)
            then Raise RebalancerError
            else forced_buys_loop p todo'
                   (dict_set a (FEntry v (badness sec)) forced_buys)
        end
  end.

(** The forced buys as the user writes them, and as the loop leaves
    them. *)
Definition as_given (v : option string) : ForcedBuy :=
  match v with
  | None => FNone
  | Some s => FTicker s
  end.

Definition as_stored (b : Buy) : ForcedBuy :=
  FEntry (as_given (security b)) (buy_badness b).

(** ** Placing the trades *)

(** An order handed to [execute_order] with [preview_only = False]. *)
Inductive Order : Type :=
| SellOrder (symbol : string) (quantity : Q) (lots : list LotRef)
| BuyOrder (symbol : string) (quantity : Z).

(** The ['outcome'] of a trade result: ['PLACED'], ['QUEUED'] or [None]
    as [execute_order] returns them, ['ERROR'] when anything inside the
    [try] raises. *)
Definition Outcome : Type := option string.

(** The broker, seen from [rebalance]: what the attempt to place an order
    comes to, after the attempts made so far. *)
Definition Broker : Type := list (Order * Outcome) -> Order -> Outcome.

(** How a call of [rebalance] ends. *)
Inductive Ending : Type :=
| Returns
| Raises (e : exn)
| RaisesAttributeError
| RaisesInLayout.

(** A row of the frame of [_get_assetclass_table], as the loop over the
    purchases reads it. *)
Record BuyRow : Type := {
  row_name : string;
  row_buy_security : option string;
  row_buy_quantity : option Z
}.

Definition PLACED : string := "PLACED".

(** The order that sells the lots listed for [s]. *)
Definition sell_order (se : string * Sell) : Order :=
  SellOrder (fst se) (Qsum (map ref_quantity (sell_lots (snd se))))
            (sell_lots (snd se)).

(** The loop over [self._sells].  An outcome of [None] has no [ljust]:
    the [AttributeError] ends the loop, and the call. *)
Fixpoint place_sells (broker : Broker) (sells : list (string * Sell))
    (log : list (Order * Outcome)) (error : bool)
  : list (Order * Outcome) * option bool :=
  match sells with
  | [] => (log, Some error)
  | se :: sells' =>
      let outcome := broker log (sell_order se) in
      let log' := log ++ [(sell_order se, outcome)] in
      match outcome with
      | None => (log', None)
      | Some o =>
          place_sells broker sells' log'
                      (if negb (String.eqb o PLACED) then true else error)
      end
  end.

(** The loop over the rows that have a buy security.  The messages are
    printed in pieces of [127 - first_col_len - 15] characters: a width of
    zero is a division by zero. *)
Fixpoint place_buys (broker : Broker) (first_col_len : nat)
    (rows : list BuyRow) (log : list (Order * Outcome)) (error : bool)
  : list (Order * Outcome) * Ending + list (Order * Outcome) * bool :=
  match rows with
  | [] => inr (log, error)
  | row :: rows' =>
      match row_buy_security row, row_buy_quantity row with
      | Some s, Some q =>
          if (0 <? q)%Z then
            let outcome := broker log (BuyOrder s q) in
            let log' := log ++ [(BuyOrder s q, outcome)] in
            match outcome with
            | None => inl (log', RaisesAttributeError)
            | Some o =>
                if (first_col_len =? 112)%nat
                then inl (log', Raises ZeroDivisionError)
                else place_buys broker first_col_len rows' log'
                       (if negb (String.eqb o PLACED) then true else error)
            end
          else place_buys broker first_col_len rows' log error
      | _, _ => place_buys broker first_col_len rows' log error
      end
  end.

(** [Rebalancer.rebalance]: the attempts to place orders, in order, with
    their outcomes, and the way the call ends.  [market_open] and [answer]
    are what [market_open()] and [input()] return; [first_col_len] is the
    width that pandas computes for the first column, [None] when that
    computation raises. *)
Definition rebalance (market_open : bool) (answer : string)
    (broker : Broker) (sells : list (string * Sell))
    (first_col_len : option nat) (rows : list BuyRow)
  : list (Order * Outcome) * Ending :=
  if negb market_open then ([], Raises RebalancerError)
  else if negb (String.eqb answer "yes") then ([], Returns)
  else
    match place_sells broker sells [] false with
    | (log, None) => (log, RaisesAttributeError)
    | (log, Some true) => (log, Raises RebalancerError)
    | (log, Some false) =>
        match first_col_len with
        | None => (log, RaisesInLayout)
        | Some w =>
            match place_buys broker w rows log false with
            | inl (log', ending) => (log', ending)
            | inr (log', true) => (log', Raises RebalancerError)
            | inr (log', false) => (log', Returns)
            end
        end
    end.

Definition is_buy (o : Order) : bool :=
  match o with
  | BuyOrder _ _ => true
  | SellOrder _ _ _ => false
  end.

(** The purchases that the loop attempts when nothing stops it: one for
    every row with a buy security and a positive quantity. *)
Definition buy_orders (rows : list BuyRow) : list Order :=
  flat_map (fun row =>
              match row_buy_security row, row_buy_quantity row with
              | Some s, Some q => if (0 <? q)%Z then [BuyOrder s q] else []
              | _, _ => []
              end)
           rows.

(** ** Parsing the downloaded data *)

(** A downloaded position and a downloaded lot, with the fields that
    [_parse_data] computes with. *)
Record RawPosition : Type := {
  rp_position_id : string;
  rp_symbol : string;
  rp_market_value : Q;
  rp_quantity : Q
}.

Record RawLot : Type := {
  rl_position_id : string;
  rl_position_lot_id : string;
  rl_price : Q;
  rl_market_value : Q;
  rl_quantity : Q
}.

(** How [_parse_data] ends: pandas raises [AttributeError] on a frame
    without columns. *)
Inductive Parsed (A : Type) : Type :=
| ParsedOk (a : A)
| ParseRaises (e : exn)
| ParseAttributeError.

Arguments ParsedOk {A} a.
Arguments ParseRaises {A} e.
Arguments ParseAttributeError {A}.

(** [x.market_value - (x.price * x.quantity)] *)
Definition raw_gain (l : RawLot) : Q :=
  rl_market_value l - rl_price l * rl_quantity l.

(** [position_id.duplicated().sum() == 0] *)
Fixpoint no_duplicates (ids : list string) : bool :=
  match ids with
  | [] => true
  | i :: ids' => negb (mem i ids') && no_duplicates ids'
  end.

(** The lots of one position. *)
Definition lots_of (lots : list RawLot) (p : RawPosition) : list RawLot :=
  filter (fun l => String.eqb (rl_position_id l) (rp_position_id p)) lots.

(** Step 3, first assertion: after the outer merge no position is without
    lots and no lot without position. *)
Definition nothing_missing (positions : list RawPosition)
    (lots : list RawLot) : bool :=
  forallb (fun p => (0 <? length (lots_of lots p))%nat) positions &&
  forallb (fun l => mem (rl_position_id l) (map rp_position_id positions))
          lots.

(** [(market_value - lot_market_value).abs() / market_value > 0.01] in
    numpy: a division of zero by zero is nan, which is not greater than
    anything, and a division of a positive number by zero is inf. *)
Definition value_mismatch (market_value lot_market_value : Q) : bool :=
  if Qeq_bool market_value 0
  then negb (Qeq_bool (Qabs (market_value - lot_market_value)) 0)
  else Qltb (1 # 100)
            (Qabs (market_value - lot_market_value) / market_value).

(** The symbol that the left merge of step 2 gives to a lot. *)
Definition symbol_of (positions : list RawPosition) (l : RawLot)
  : option string :=
  lookup (rl_position_id l)
         (map (fun p => (rp_position_id p, rp_symbol p)) positions).

(** Step 4: the sum of the gains of the lots of a position that satisfy
    the query; a position without such lots gets 0 from [fillna]. *)
Definition lots_summary (query : Q -> bool) (lots : list RawLot)
    (p : RawPosition) : Q :=
  Qsum (map raw_gain (filter (fun l => query (raw_gain l)) (lots_of lots p))).

Definition parsed_position (lots : list RawLot) (p : RawPosition)
  : Position :=
  {| p_symbol := rp_symbol p;
     p_market_value := rp_market_value p;
     lots_loss := lots_summary (fun g => Qltb g 0) lots p;
     lots_gain := lots_summary (fun g => Qltb 0 g) lots p |}.

(** A lot of [df_lots]; once step 3 has passed every lot has the symbol
    of its position. *)
Definition parsed_lot (positions : list RawPosition) (l : RawLot) : Lot :=
  {| position_lot_id := rl_position_lot_id l;
     symbol := match symbol_of positions l with
               | Some s => s
               | None => "nan"
               end;
     quantity := rl_quantity l;
     market_value := rl_market_value l;
     gain := raw_gain l |}.

(** [Account._parse_data]: the frames [df_positions] and [df_lots]. *)
Definition _parse_data (positions : list RawPosition) (lots : list RawLot)
  : Parsed (list Position * list Lot) :=
  match positions, lots with
  | [], _ => ParseRaises KeyError
  | _, [] => ParseAttributeError
  | _, _ =>
      if negb (no_duplicates (map rp_position_id positions))
      then ParseRaises AssertionError
      else if negb (nothing_missing positions lots)
      then ParseRaises AssertionError
      else if negb (forallb
                      (fun p => Qeq_bool (rp_quantity p)
                                  (Qsum (map rl_quantity (lots_of lots p))))
                      positions)
      then ParseRaises AssertionError
      else if negb (forallb
                      (fun p => negb (value_mismatch
                                        (rp_market_value p)
                                        (Qsum (map rl_market_value
                                                   (lots_of lots p)))))
                      positions)
      then ParseRaises AssertionError
      else ParsedOk (map (parsed_position lots) positions,
                     map (parsed_lot positions) lots)
  end.

(** ** The allocation solver in float64

    The solver of [_identify_buy_amounts] once more, this time with the
    numbers that the program has: the columns of the frame are numpy
    arrays of IEEE 754 binary64 floats, every operation rounds to nearest,
    a comparison with a nan is false and a division by a numpy zero
    gives inf or nan where Python's own division raises.  The rounding
    decides which rows the loop clamps, so the runs of the loop are
    followed here and not on the rationals. *)
Module F64.
Import PrimFloat.
Local Open Scope float_scope.

(** A row of [df_assetclasses]: the rows of the frame whose [target_perc]
    is not null. *)
Record Row : Type := {
  index : string;
  target_perc : float;
  expected_balance : float;
  buy_security : option string
}.

(** Python's own integers and numpy's: [sum] starts from the Python
    integer 0 and adds the elements of the array to it, so that the sum of
    a boolean array is a numpy integer unless the array is empty. *)
Inductive integer : Type :=
| Int (n : Z)
| Int64 (n : Z).

Definition value (k : integer) : Z :=
  match k with
  | Int n => n
  | Int64 n => n
  end.

Definition sum_mask (m : list bool) : integer :=
  match m with
  | [] => Int 0
  | _ :: _ => Int64 (Z.of_nat (count_true m))
  end.

Definition minus (a b : integer) : integer :=
  match a, b with
  | Int n, Int k => Int (n - k)
  | _, _ => Int64 (value a - value b)
  end.

(** The float of an integer; exact below [2 ^ 53]. *)
Definition of_Z (n : Z) : float :=
  if (n <? 0)%Z then - of_uint63 (Uint63.of_Z (- n))
  else of_uint63 (Uint63.of_Z n).

(** [a / k] for a Python number [a] and an integer [k]: a
    [ZeroDivisionError] when [k] is Python's zero, inf (and a
    [RuntimeWarning]) when it is numpy's. *)
Definition true_divide (a : float) (k : integer) : result float :=
  match k with
  | Int n => if (n =? 0)%Z then Raise ZeroDivisionError
             else Ok (a / of_Z n)
  | Int64 n => Ok (a / of_Z n)
  end.

(** [sum(a)] for an array of floats: the additions are made from left to
    right, starting from 0. *)
Definition fsum (a : list float) : float := fold_left add a 0.

Record Iterate : Type := {
  x_ : list float;
  mu_ : list float
}.

(** The body of the [while] loop. *)
Definition solver_step (I : list bool) (N : integer) (T : float)
    (chi ell : list float) (st : Iterate) : result Iterate :=
  xI <- mask_get I (x_ st) ;;
  ellI <- mask_get I ell ;;
  let J := zip_with leb xI ellI in
  Imj <- mask_fill J I false ;;
  d <- true_divide 2 (minus N (sum_mask J)) ;;
  chiImj <- mask_get Imj chi ;;
  ellJ <- mask_get J ell ;;
  let gamma := d * (fsum chiImj + fsum ellJ - T) in
  chiJ <- mask_get J chi ;;
  mu <- mask_set J (mu_ st)
                 (map (fun v => v + gamma)
                      (map (mul 2) (zip_with sub ellJ chiJ))) ;;
  chiI <- mask_get I chi ;;
  muI <- mask_get I mu ;;
  x <- mask_set I (x_ st)
                (zip_with add chiI
                          (map (mul 0.5) (map (fun m => m - gamma) muI))) ;;
  Ok {| x_ := x; mu_ := mu |}.

(** [sum(x[I] < ell[I]) > 0] *)
Definition infeasible (I : list bool) (ell x : list float) : result bool :=
  xI <- mask_get I x ;;
  ellI <- mask_get I ell ;;
  Ok (0 <? count_true (zip_with ltb xI ellI))%nat.

(** The [while] loop; [cap] counts the iterations left before [i]
    reaches 1000. *)
Fixpoint solver_loop (cap : nat) (I : list bool) (N : integer) (T : float)
    (chi ell : list float) (st : Iterate) : result Iterate :=
  match cap with
  | O => Ok st
  | S cap' =>
      again <- infeasible I ell (x_ st) ;;
      if again then
        st' <- solver_step I N T chi ell st ;;
        solver_loop cap' I N T chi ell st'
      else Ok st
  end.

(** Lines 1730 to 1773: the array [x] that the solver ends with. *)
Definition solve (df_assetclasses : list Row) (cash_from_sales : float)
  : result (list float) :=
  let I := map (fun r => notnull (buy_security r)) df_assetclasses in
  let N := sum_mask I in
  let ell := map expected_balance df_assetclasses in
  ellI <- mask_get I ell ;;
  let T := fsum ellI + cash_from_sales in
  let chi := map target_perc df_assetclasses in
  chiI <- mask_get I chi ;;
  let chi := map (fun c => c / fsum chiI) chi in
  let chi := map (fun c => c * T) chi in
  let x := ell in
  let mu := map (fun _ => 0) chi in
  d <- true_divide 2 N ;;
  chiI <- mask_get I chi ;;
  let gamma := d * (fsum chiI - T) in
  x <- mask_set I x (map (fun c => c - 0.5 * gamma) chiI) ;;
  st <- solver_loop ITERATION_LIMIT I N T chi ell
                    {| x_ := x; mu_ := mu |} ;;
  Ok (x_ st).

(** The quantities of the solver, row by row: the active rows, the total
    [T], the targets in currency [chi], the first [gamma] and the
    allocation before the loop. *)
Definition active (r : Row) : bool := notnull (buy_security r).

Definition total (rows : list Row) (cash_from_sales : float) : float :=
  fsum (map expected_balance (filter active rows)) + cash_from_sales.

Definition chi_of (rows : list Row) (c : float) (r : Row) : float :=
  target_perc r / fsum (map target_perc (filter active rows)) * total rows c.

Definition gamma0 (rows : list Row) (c : float) : float :=
  2 / of_Z (Z.of_nat (length (filter active rows)))
  * (fsum (map (chi_of rows c) (filter active rows)) - total rows c).

Definition x0 (rows : list Row) (c : float) (r : Row) : float :=
  if active r then chi_of rows c r - 0.5 * gamma0 rows c
  else expected_balance r.

(** The [target_buy] of every row: [x - expected_balance]. *)
Definition target_buys (df_assetclasses : list Row) (x : list float)
  : list (string * float) :=
  zip_with (fun r v => (index r, v - expected_balance r)) df_assetclasses x.

(** The rows with the allocation [x] for floors. *)
Definition with_floors (rows : list Row) (x : list float) : list Row :=
  zip_with (fun r v => {| index := index r;
                          target_perc := target_perc r;
                          expected_balance := v;
                          buy_security := buy_security r |}) rows x.

(** Three asset classes, all with a buy security. *)
Definition rows (t1 t2 t3 b1 b2 b3 : float) : list Row :=
  [ {| index := "Stocks"; target_perc := t1; expected_balance := b1;
       buy_security := Some "VOO" |};
    {| index := "Bonds"; target_perc := t2; expected_balance := b2;
       buy_security := Some "MUB" |};
    {| index := "Real Estate"; target_perc := t3; expected_balance := b3;
       buy_security := Some "VNQ" |} ].

End F64.

(** * Properties *)

(** ** Generic facts *)

Lemma bind_ok {A B : Type} (m : result A) (k : A -> result B) (b : B) :
  bind m k = Ok b -> exists a, m = Ok a /\ k a = Ok b.
Proof.
  destruct m as [a | e]; simpl; intros H.
  - exists a; split; [reflexivity | exact H].
  - discriminate.
Qed.

Lemma assert_ok (b : bool) : assert b = Ok tt -> b = true.
Proof. destruct b; simpl; [reflexivity | discriminate]. Qed.

Lemma assert_true_ok (b : bool) : b = true -> assert b = Ok tt.
Proof. intros ->. reflexivity. Qed.

Lemma mem_In (s : string) (l : list string) : mem s l = true <-> In s l.
Proof.
  unfold mem. rewrite existsb_exists. split.
  - intros [x [Hx He]]. apply String.eqb_eq in He. subst. exact Hx.
  - intros H. exists s. split; [exact H | apply String.eqb_refl].
Qed.

Lemma mem_false_In (s : string) (l : list string) :
  mem s l = false <-> ~ In s l.
Proof.
  rewrite <- mem_In. destruct (mem s l); intuition congruence.
Qed.

Lemma Qltb_lt (a b : Q) : Qltb a b = true <-> a < b.
Proof.
  unfold Qltb. rewrite negb_true_iff. split.
  - intros H. apply Qnot_le_lt. intros Hle.
    apply Qle_bool_iff in Hle. congruence.
  - intros H. destruct (Qle_bool b a) eqn:E; [| reflexivity].
    apply Qle_bool_iff in E. exfalso. exact (Qlt_not_le _ _ H E).
Qed.

Lemma Qltb_ge (a b : Q) : Qltb a b = false <-> b <= a.
Proof.
  unfold Qltb. rewrite negb_false_iff. apply Qle_bool_iff.
Qed.

Lemma Qle_bool_gt (a b : Q) : Qle_bool a b = false <-> b < a.
Proof.
  rewrite <- Qltb_lt. unfold Qltb. rewrite negb_true_iff. reflexivity.
Qed.

Lemma Qeq_bool_false (a b : Q) : Qeq_bool a b = false <-> ~ a == b.
Proof.
  split.
  - intros H He. apply Qeq_bool_iff in He. congruence.
  - intros H. destruct (Qeq_bool a b) eqn:E; [| reflexivity].
    apply Qeq_bool_iff in E. contradiction.
Qed.

Lemma Qsum_app (l1 l2 : list Q) : Qsum (l1 ++ l2) == Qsum l1 + Qsum l2.
Proof.
  induction l1 as [| a l1 IH]; simpl.
  - lra.
  - rewrite IH. lra.
Qed.

(** ** Target model *)

Lemma check_no_duplicates_cases (acc : set string) (l : list TargetAssetclass) :
  check_no_duplicates acc l = Ok tt \/
  check_no_duplicates acc l = Raise TypeError.
Proof.
  revert acc. induction l as [| a l IH]; intros acc; simpl.
  - left. reflexivity.
  - destruct (0 <? _)%nat; [right; reflexivity | apply IH].
Qed.

Lemma set_inter_nonempty (acc l : set string) :
  (0 <? length (set_inter string_dec acc l))%nat = true <->
  exists s, In s acc /\ In s l.
Proof.
  rewrite Nat.ltb_lt. split.
  - destruct (set_inter string_dec acc l) as [| s r] eqn:E; simpl; [lia |].
    intros _. exists s.
    assert (Hs : set_In s (set_inter string_dec acc l))
      by (rewrite E; left; reflexivity).
    split.
    + exact (set_inter_elim1 _ _ _ _ Hs).
    + exact (set_inter_elim2 _ _ _ _ Hs).
  - intros [s [H1 H2]].
    pose proof (set_inter_intro string_dec s acc l H1 H2) as Hs.
    destruct (set_inter string_dec acc l); simpl in *; [contradiction | lia].
Qed.

Lemma check_no_duplicates_raises (acc : set string)
    (l : list TargetAssetclass) :
  check_no_duplicates acc l = Raise TypeError <->
  exists l1 a l2 s,
    l = l1 ++ a :: l2 /\
    In s (securities a None) /\
    (In s acc \/ exists b, In b l1 /\ In s (securities b None)).
Proof.
  revert acc. induction l as [| a l IH]; intros acc; simpl.
  - split; [discriminate |].
    intros (l1 & a & l2 & s & E & _). destruct l1; discriminate.
  - destruct (0 <? _)%nat eqn:Hi.
    + split; [intros _ | reflexivity].
      apply set_inter_nonempty in Hi. destruct Hi as [s [H1 H2]].
      exists [], a, l, s. auto.
    + rewrite IH. clear IH. split.
      * intros (l1 & b & l2 & s & -> & Hs & Hc).
        exists (a :: l1), b, l2, s. split; [reflexivity |].
        split; [exact Hs |].
        destruct Hc as [Hc | (c & Hc & Hsc)].
        -- apply set_union_iff in Hc. destruct Hc as [Hc | Hc].
           ++ left. exact Hc.
           ++ right. exists a. split; [left; reflexivity | exact Hc].
        -- right. exists c. split; [right; exact Hc | exact Hsc].
      * intros (l1 & b & l2 & s & E & Hs & Hc).
        destruct l1 as [| a' l1]; simpl in E; inversion E; subst; clear E.
        -- exfalso. destruct Hc as [Hc | (c & [] & _)].
           assert (Hn : (0 <? length (set_inter string_dec acc
                                        (securities b None)))%nat = true)
             by (apply set_inter_nonempty; exists s; auto).
           congruence.
        -- exists l1, b, l2, s. split; [reflexivity |].
           split; [exact Hs |].
           destruct Hc as [Hc | (c & [Hc | Hc] & Hsc)].
           ++ left. apply set_union_iff. left. exact Hc.
           ++ subst c. left. apply set_union_iff. right. exact Hsc.
           ++ right. exists c. auto.
Qed.

Lemma validate_raises_on_sum (p : TargetPortfolio) :
  ~ targets_sum p == 100 -> validate p = Raise AssertionError.
Proof.
  intros H. unfold validate. fold (targets_sum p).
  apply Qeq_bool_false in H. rewrite H. reflexivity.
Qed.

Lemma validate_raises_on_shared (p : TargetPortfolio) :
  targets_sum p == 100 ->
  shares_a_security (values (_target_assetclasses p)) ->
  validate p = Raise TypeError.
Proof.
  intros Hs (l1 & a & l2 & s & E & Ha & Hb).
  unfold validate. fold (targets_sum p).
  apply Qeq_bool_iff in Hs. rewrite Hs. simpl.
  assert (Hc : check_no_duplicates (empty_set string)
                 (values (_target_assetclasses p)) = Raise TypeError).
  { apply check_no_duplicates_raises. exists l1, a, l2, s. auto. }
  rewrite Hc. reflexivity.
Qed.

Lemma validate_ok (p : TargetPortfolio) :
  targets_sum p == 100 ->
  ~ shares_a_security (values (_target_assetclasses p)) ->
  validate p = Ok {| _validated := true;
                     _target_assetclasses := _target_assetclasses p |}.
Proof.
  intros Hs Hn. unfold validate. fold (targets_sum p).
  apply Qeq_bool_iff in Hs. rewrite Hs. simpl.
  destruct (check_no_duplicates_cases (empty_set string)
              (values (_target_assetclasses p))) as [Hc | Hc].
  - rewrite Hc. reflexivity.
  - exfalso. apply Hn. apply check_no_duplicates_raises in Hc.
    destruct Hc as (l1 & a & l2 & s & E & Ha & [[] | Hb]).
    exists l1, a, l2, s. auto.
Qed.

Lemma validate_ok_inv (p p' : TargetPortfolio) :
  validate p = Ok p' ->
  p' = {| _validated := true;
          _target_assetclasses := _target_assetclasses p |} /\
  targets_sum p == 100 /\
  ~ shares_a_security (values (_target_assetclasses p)).
Proof.
  intros H.
  destruct (Qeq_dec (targets_sum p) 100) as [Hs | Hs].
  - assert (Hn : ~ shares_a_security (values (_target_assetclasses p))).
    { intros Hsh. rewrite (validate_raises_on_shared p Hs Hsh) in H.
      discriminate. }
    rewrite (validate_ok p Hs Hn) in H. inversion H. auto.
  - rewrite (validate_raises_on_sum p Hs) in H. discriminate.
Qed.

(** C5, as the code has it: [validate] raises when the targets do not sum
    to 100 and when an asset class repeats a security of an earlier one;
    otherwise it succeeds and marks the portfolio validated, and it can
    then be called again with the same success: a validated portfolio
    refuses further asset classes, not a further validation. *)
Theorem validate_checks_and_can_repeat (p : TargetPortfolio) :
  (~ targets_sum p == 100 -> validate p = Raise AssertionError) /\
  (targets_sum p == 100 ->
   shares_a_security (values (_target_assetclasses p)) ->
   validate p = Raise TypeError) /\
  (forall p', validate p = Ok p' ->
     _validated p' = true /\
     validate p' = Ok p' /\
     forall t n secs bs, add_assetclass p' t n secs bs = Raise AssertionError).
Proof.
  split; [apply validate_raises_on_sum |].
  split; [apply validate_raises_on_shared |].
  intros p' H. apply validate_ok_inv in H. destruct H as (-> & Hs & Hn).
  split; [reflexivity |].
  split; [| intros; reflexivity].
  apply (validate_ok {| _validated := true;
                        _target_assetclasses := _target_assetclasses p |});
    assumption.
Qed.

Lemma validate_checks_and_can_repeat_witness :
  validate Demo.draft = Ok Demo.portfolio /\
  _validated Demo.portfolio = true /\
  validate Demo.portfolio = Ok Demo.portfolio.
Proof.
  assert (H : validate Demo.draft = Ok Demo.portfolio) by reflexivity.
  split; [exact H |].
  destruct (validate_checks_and_can_repeat Demo.draft) as (_ & _ & Hr).
  destruct (Hr Demo.portfolio H) as (Hv & Hagain & _).
  split; [exact Hv | exact Hagain].
Defined.

(** C5 as stated fails: the second call to [validate] on a validated
    portfolio succeeds. *)
Lemma validate_second_call_succeeds :
  validate Demo.draft = Ok Demo.portfolio /\
  validate Demo.portfolio = Ok Demo.portfolio.
Proof. split; reflexivity. Qed.

(** *** The size of a validated portfolio *)

Lemma integral_positive_ge_1 (t : Q) :
  0 < t -> is_integral t = true -> 1 <= t.
Proof.
  unfold is_integral. intros Hpos Hint. apply Qeq_bool_iff in Hint.
  rewrite Hint in Hpos |- *.
  change 0 with (inject_Z 0) in Hpos. rewrite <- Zlt_Qlt in Hpos.
  change 1 with (inject_Z 1). rewrite <- Zle_Qle. lia.
Qed.

Lemma init_target_ge_1 (t : Q) (n : string) (secs : list string)
    (bs : list (option Q)) (a : TargetAssetclass) :
  TargetAssetclass_init t n secs bs = Ok a -> 1 <= target a.
Proof.
  unfold TargetAssetclass_init. intros H.
  apply bind_ok in H. destruct H as ([] & H1 & H).
  apply bind_ok in H. destruct H as ([] & H2 & H).
  apply assert_ok in H1. apply assert_ok in H2.
  apply andb_true_iff in H1. destruct H1 as [H1 _]. apply Qltb_lt in H1.
  assert (Ht : target a = t).
  { repeat (apply bind_ok in H; destruct H as ([] & _ & H)).
    destruct (mem n [OTHER_NAME; CASH_NAME]); [discriminate |].
    inversion H. reflexivity. }
  rewrite Ht. apply integral_positive_ge_1; assumption.
Qed.

Lemma Qsum_targets_length (l : list TargetAssetclass) :
  (forall a, In a l -> 1 <= target a) ->
  inject_Z (Z.of_nat (length l)) <= Qsum (map target l).
Proof.
  induction l as [| a l IH]; intros H.
  - simpl. apply Qle_refl.
  - cbn [length map Qsum].
    rewrite Nat2Z.inj_succ, <- Z.add_1_r, inject_Z_plus.
    change (inject_Z 1) with 1.
    assert (H1 := H a (or_introl eq_refl)).
    assert (H2 : inject_Z (Z.of_nat (length l)) <= Qsum (map target l))
      by (apply IH; intros b Hb; apply H; right; exact Hb).
    lra.
Qed.

(** A validated portfolio whose asset classes were accepted by the
    constructor has at most 100 of them: fewer than the iteration cap of
    the solver. *)
Lemma validated_portfolio_size (p p' : TargetPortfolio) :
  (forall n a, In (n, a) (_target_assetclasses p) ->
     exists t secs bs, TargetAssetclass_init t n secs bs = Ok a) ->
  validate p = Ok p' ->
  (length (_target_assetclasses p') <= 100)%nat.
Proof.
  intros Hinit H. apply validate_ok_inv in H. destruct H as (-> & Hs & _).
  cbn [_target_assetclasses]. unfold targets_sum in Hs.
  assert (Hge : forall a, In a (values (_target_assetclasses p)) ->
                          1 <= target a).
  { intros a Ha. unfold values in Ha. apply in_map_iff in Ha.
    destruct Ha as ([n a'] & E & Hin). cbn [snd] in E. subst a'.
    destruct (Hinit n a Hin) as (t & secs & bs & Hi).
    exact (init_target_ge_1 _ _ _ _ _ Hi). }
  pose proof (Qsum_targets_length _ Hge) as Hlen.
  rewrite Hs in Hlen. unfold values in Hlen. rewrite length_map in Hlen.
  change 100 with (inject_Z 100) in Hlen. rewrite <- Zle_Qle in Hlen. lia.
Qed.

(** ** Asset classes and their badness scores *)

Lemma TargetAssetclass_init_ok (t : Q) (n : string) (secs : list string)
    (bs : list (option Q)) (a : TargetAssetclass) :
  TargetAssetclass_init t n secs bs = Ok a <->
  (Qltb 0 t && Qle_bool t 100 = true /\
   is_integral t = true /\
   (length bs =? length secs)%nat = true /\
   forallb (none_or is_integral) bs = true /\
   forallb (none_or (Qle_bool 1)) bs = true /\
   existsb is_one bs = true /\
   consecutive (unique_scores bs) = true /\
   mem n [OTHER_NAME; CASH_NAME] = false /\
   a = {| target := t; name := n; _securities := map upper secs;
          _badness_scores := bs |}).
Proof.
  unfold TargetAssetclass_init.
  destruct (Qltb 0 t && Qle_bool t 100); cbn [bind assert];
    [| split; [discriminate | intros (H & _); discriminate]].
  destruct (is_integral t); cbn [bind assert];
    [| split; [discriminate | intros (_ & H & _); discriminate]].
  destruct (length bs =? length secs)%nat; cbn [bind assert];
    [| split; [discriminate | intros (_ & _ & H & _); discriminate]].
  destruct (forallb (none_or is_integral) bs); cbn [bind assert];
    [| split; [discriminate | intros (_ & _ & _ & H & _); discriminate]].
  destruct (forallb (none_or (Qle_bool 1)) bs); cbn [bind assert];
    [| split; [discriminate | intros (_ & _ & _ & _ & H & _); discriminate]].
  destruct (existsb is_one bs); cbn [bind assert];
    [| split; [discriminate
              | intros (_ & _ & _ & _ & _ & H & _); discriminate]].
  destruct (consecutive (unique_scores bs)); cbn [bind assert];
    [| split; [discriminate
              | intros (_ & _ & _ & _ & _ & _ & H & _); discriminate]].
  destruct (mem n [OTHER_NAME; CASH_NAME]).
  - split; [discriminate
           | intros (_ & _ & _ & _ & _ & _ & _ & H & _); discriminate].
  - split.
    + intros H. inversion H. repeat split; reflexivity.
    + intros (_ & _ & _ & _ & _ & _ & _ & _ & ->). reflexivity.
Qed.

Lemma unique_scores_app_None (bs : list (option Q)) :
  unique_scores (bs ++ [None]) = unique_scores bs.
Proof.
  induction bs as [| [q |] bs IH]; simpl; congruence.
Qed.

Lemma init_accepts_None (t : Q) (n : string) (secs : list string)
    (bs : list (option Q)) (a : TargetAssetclass) (s : string) :
  TargetAssetclass_init t n secs bs = Ok a ->
  TargetAssetclass_init t n (secs ++ [s]) (bs ++ [None]) =
  Ok {| target := t; name := n; _securities := map upper (secs ++ [s]);
        _badness_scores := bs ++ [None] |}.
Proof.
  intros H. apply TargetAssetclass_init_ok in H.
  destruct H as (H1 & H2 & H3 & H4 & H5 & H6 & H7 & H8 & _).
  apply TargetAssetclass_init_ok.
  repeat split; try assumption.
  - rewrite !length_app. simpl. apply Nat.eqb_eq in H3.
    apply Nat.eqb_eq. lia.
  - rewrite forallb_app, H4. reflexivity.
  - rewrite forallb_app, H5. reflexivity.
  - rewrite existsb_app, H6. reflexivity.
  - rewrite unique_scores_app_None. exact H7.
Qed.

Lemma init_checks_numeric_scores (t : Q) (n : string) (secs : list string)
    (bs : list (option Q)) (a : TargetAssetclass) :
  TargetAssetclass_init t n secs bs = Ok a ->
  (forall q, In (Some q) bs -> is_integral q = true /\ 1 <= q) /\
  (exists q, In (Some q) bs /\ q == 1).
Proof.
  intros H. apply TargetAssetclass_init_ok in H.
  destruct H as (_ & _ & _ & H4 & H5 & H6 & _).
  split.
  - intros q Hq. rewrite forallb_forall in H4, H5.
    specialize (H4 _ Hq). specialize (H5 _ Hq). simpl in H4, H5.
    split; [exact H4 | apply Qle_bool_iff; exact H5].
  - apply existsb_exists in H6. destruct H6 as ([q |] & Hq & H1).
    + exists q. split; [exact Hq | apply Qeq_bool_iff; exact H1].
    + discriminate.
Qed.

(** ** The tiers of an asset class *)

Lemma securities_In (a : TargetAssetclass) (b : Z) (s : string) :
  In s (securities a (Some b)) <->
  exists q, In (s, Some q) (combine (_securities a) (_badness_scores a)) /\
            q == inject_Z b.
Proof.
  unfold securities. rewrite in_map_iff. split.
  - intros ([s' j] & E & Hf). simpl in E. subst s'.
    apply filter_In in Hf. destruct Hf as [Hi Hj]. simpl in Hj.
    destruct j as [q |]; [| discriminate].
    exists q. split; [exact Hi | apply Qeq_bool_iff; exact Hj].
  - intros (q & Hi & Hq). exists (s, Some q). split; [reflexivity |].
    apply filter_In. split; [exact Hi |].
    simpl. apply Qeq_bool_iff. exact Hq.
Qed.

Lemma buy_options_In (a : TargetAssetclass) (acct : Account) (b : Z)
    (s : string) (l : Q) :
  In (s, l) (buy_options a acct b) <->
  In s (securities a (Some b)) /\
  ~ In s (sold (recent_trades acct)) /\
  l = loss_of acct s.
Proof.
  unfold buy_options. rewrite in_map_iff. split.
  - intros (s' & E & Hf). inversion E; subst. apply filter_In in Hf.
    destruct Hf as [Hs Hn]. apply negb_true_iff, mem_false_In in Hn. auto.
  - intros (Hs & Hn & ->). exists s. split; [reflexivity |].
    apply filter_In. split; [exact Hs |].
    apply negb_true_iff, mem_false_In. exact Hn.
Qed.

(** ** Python's stable sort *)

Section StableSort.

Context {A : Type} (key : A -> Q).

Lemma insert_by_perm (x : A) (l : list A) :
  Permutation (insert_by key x l) (x :: l).
Proof.
  induction l as [| y l IH]; simpl.
  - apply Permutation_refl.
  - destruct (Qle_bool (key x) (key y)).
    + apply Permutation_refl.
    + apply perm_trans with (y :: x :: l).
      * apply perm_skip. exact IH.
      * apply perm_swap.
Qed.

Lemma sorted_perm (l : list A) : Permutation (sorted key l) l.
Proof.
  induction l as [| x l IH]; simpl.
  - apply perm_nil.
  - apply perm_trans with (x :: sorted key l).
    + apply insert_by_perm.
    + apply perm_skip. exact IH.
Qed.

Lemma insert_by_sorted (x : A) (l : list A) :
  StronglySorted (fun u v => key u <= key v) l ->
  StronglySorted (fun u v => key u <= key v) (insert_by key x l).
Proof.
  induction 1 as [| y l Hs IH Hy]; simpl.
  - constructor; constructor.
  - destruct (Qle_bool (key x) (key y)) eqn:E.
    + apply Qle_bool_iff in E. constructor.
      * constructor; assumption.
      * constructor; [exact E |].
        rewrite Forall_forall in Hy |- *. intros z Hz.
        apply Qle_trans with (key y); [exact E | apply Hy; exact Hz].
    + apply Qle_bool_gt in E. constructor; [exact IH |].
      rewrite Forall_forall in Hy |- *. intros z Hz.
      apply (Permutation_in _ (insert_by_perm x l)) in Hz.
      destruct Hz as [<- | Hz]; [apply Qlt_le_weak; exact E | apply Hy; exact Hz].
Qed.

Lemma sorted_sorted (l : list A) :
  StronglySorted (fun u v => key u <= key v) (sorted key l).
Proof.
  induction l as [| x l IH]; simpl.
  - constructor.
  - apply insert_by_sorted. exact IH.
Qed.

(** Stability: the elements of any one key value keep their order. *)
Lemma insert_by_stable (v : Q) (x : A) (l : list A) :
  filter (fun u => Qeq_bool (key u) v) (insert_by key x l) =
  filter (fun u => Qeq_bool (key u) v) (x :: l).
Proof.
  induction l as [| y l IH].
  - reflexivity.
  - cbn [insert_by]. destruct (Qle_bool (key x) (key y)) eqn:E.
    + reflexivity.
    + apply Qle_bool_gt in E.
      cbn [filter]. cbn [filter] in IH. rewrite IH.
      destruct (Qeq_bool (key x) v) eqn:Ex;
        destruct (Qeq_bool (key y) v) eqn:Ey; try reflexivity.
      apply Qeq_bool_iff in Ex, Ey. exfalso. lra.
Qed.

Lemma sorted_stable (v : Q) (l : list A) :
  filter (fun u => Qeq_bool (key u) v) (sorted key l) =
  filter (fun u => Qeq_bool (key u) v) l.
Proof.
  induction l as [| x l IH].
  - reflexivity.
  - cbn [sorted]. rewrite insert_by_stable. cbn [filter].
    rewrite IH. reflexivity.
Qed.

(** The head of the sorted list is the first element of the least key. *)
Lemma sorted_head (l : list A) (h : A) (t : list A) :
  sorted key l = h :: t ->
  exists l1 l2,
    l = l1 ++ h :: l2 /\
    (forall c, In c l1 -> key h < key c) /\
    (forall c, In c l2 -> key h <= key c).
Proof.
  revert h t. induction l as [| x l IH]; intros h t H.
  - discriminate.
  - cbn [sorted] in H.
    destruct (sorted key l) as [| h' t'] eqn:Es.
    + assert (l = []) as ->.
      { pose proof (sorted_perm l) as Hp. rewrite Es in Hp.
        apply Permutation_nil in Hp. exact Hp. }
      simpl in H. inversion H; subst.
      exists [], []. split; [reflexivity |]. split; intros c [].
    + destruct (IH h' t' eq_refl) as (l1 & l2 & -> & H1 & H2).
      cbn [insert_by] in H.
      destruct (Qle_bool (key x) (key h')) eqn:E.
      * inversion H; subst. apply Qle_bool_iff in E.
        exists [], (l1 ++ h' :: l2). split; [reflexivity |].
        split; [intros c [] |].
        intros c Hc. apply in_app_or in Hc.
        destruct Hc as [Hc | [<- | Hc]].
        -- specialize (H1 c Hc). lra.
        -- exact E.
        -- specialize (H2 c Hc). lra.
      * inversion H; subst. apply Qle_bool_gt in E.
        exists (x :: l1), l2. split; [reflexivity |].
        split; [| exact H2].
        intros c [<- | Hc]; [exact E | apply H1; exact Hc].
Qed.

End StableSort.

(** ** The tier loop *)

Lemma tier_loop_some (fuel : nat) (a : TargetAssetclass) (acct : Account)
    (M : Q) (b0 : Z) (bu : Buy) :
  tier_loop fuel a acct M b0 = Some bu ->
  exists b s l rest,
    (b0 <= b)%Z /\
    bu = {| security := Some s; buy_badness := Some (inject_Z b) |} /\
    sorted neg_loss (buy_options a acct b) = (s, l) :: rest /\
    Qabs l <= M /\
    forall b', (b0 <= b' <= b)%Z ->
               securities a (Some b') <> [] /\
               ((b' < b)%Z -> tier_rejected a acct M b').
Proof.
  revert b0. induction fuel as [| fuel IH]; intros b0 H; [discriminate |].
  cbn [tier_loop] in H.
  destruct (0 <? length (securities a (Some b0)))%nat eqn:Hne;
    [| discriminate].
  assert (Hne' : securities a (Some b0) <> []).
  { apply Nat.ltb_lt in Hne. intros E. rewrite E in Hne. simpl in Hne. lia. }
  assert (Hnext :
    tier_rejected a acct M b0 ->
    tier_loop fuel a acct M (b0 + 1) = Some bu ->
    exists b s l rest,
      (b0 <= b)%Z /\
      bu = {| security := Some s; buy_badness := Some (inject_Z b) |} /\
      sorted neg_loss (buy_options a acct b) = (s, l) :: rest /\
      Qabs l <= M /\
      forall b', (b0 <= b' <= b)%Z ->
                 securities a (Some b') <> [] /\
                 ((b' < b)%Z -> tier_rejected a acct M b')).
  { intros Hrej H'. destruct (IH _ H') as (b & s & l & rest & Hb & E & Hs & Hl & Hall).
    exists b, s, l, rest. split; [lia |]. repeat (split; [assumption |]).
    intros b' Hb'. destruct (Z.eq_dec b' b0) as [-> | Hd].
    - split; [exact Hne' | intros _; exact Hrej].
    - apply Hall. lia. }
  destruct (sorted neg_loss (buy_options a acct b0)) as [| [s l] rest] eqn:Es.
  - apply Hnext; [| exact H]. unfold tier_rejected. rewrite Es. exact I.
  - destruct (Qle_bool (Qabs l) M) eqn:Hl.
    + inversion H; subst. exists b0, s, l, rest.
      split; [lia |]. split; [reflexivity |]. split; [exact Es |].
      split; [apply Qle_bool_iff; exact Hl |].
      intros b' Hb'. assert (b' = b0) as -> by lia.
      split; [exact Hne' | lia].
    + apply Hnext; [| exact H]. unfold tier_rejected. rewrite Es.
      apply Qle_bool_gt. exact Hl.
Qed.

Lemma filter_length_lt {X : Type} (f g : X -> bool) (l : list X) (x : X) :
  (forall y, f y = true -> g y = true) ->
  In x l -> g x = true -> f x = false ->
  (length (filter f l) < length (filter g l))%nat.
Proof.
  intros Hfg. induction l as [| y l IH]; intros Hin Hg Hf; [destruct Hin |].
  assert (Hle : forall l', (length (filter f l') <= length (filter g l'))%nat).
  { induction l' as [| z l' IH']; simpl; [lia |].
    destruct (f z) eqn:Ez.
    - rewrite (Hfg _ Ez). simpl. lia.
    - destruct (g z); simpl; lia. }
  simpl. destruct Hin as [-> | Hin].
  - rewrite Hg, Hf. simpl. specialize (Hle l). lia.
  - specialize (IH Hin Hg Hf). destruct (f y) eqn:Ey.
    + rewrite (Hfg _ Ey). simpl. lia.
    + destruct (g y); simpl; lia.
Qed.

Lemma scores_from_next (a : TargetAssetclass) (b : Z) :
  securities a (Some b) <> [] ->
  (scores_from a (b + 1) < scores_from a b)%nat.
Proof.
  intros Hne.
  destruct (securities a (Some b)) as [| s r] eqn:E; [congruence |].
  assert (Hs : In s (securities a (Some b))) by (rewrite E; left; reflexivity).
  apply securities_In in Hs. destruct Hs as (q & Hin & Hq).
  unfold scores_from. apply filter_length_lt with (x := (s, Some q)).
  - intros [s' [q' |]] Hy; simpl in *; [| discriminate].
    apply Qle_bool_iff in Hy. apply Qle_bool_iff.
    rewrite inject_Z_plus in Hy. change (inject_Z 1) with 1 in Hy. lra.
  - exact Hin.
  - simpl. apply Qle_bool_iff. lra.
  - simpl. apply Qle_bool_gt. rewrite inject_Z_plus.
    change (inject_Z 1) with 1. lra.
Qed.

(** The loop counter does not decide the outcome: any two counters above
    the number of tiers ahead give the same result. *)
Lemma tier_loop_fuel (fuel fuel' : nat) (a : TargetAssetclass)
    (acct : Account) (M : Q) (b : Z) :
  (scores_from a b < fuel)%nat -> (scores_from a b < fuel')%nat ->
  tier_loop fuel a acct M b = tier_loop fuel' a acct M b.
Proof.
  revert fuel' b. induction fuel as [| fuel IH]; intros fuel' b H H'; [lia |].
  destruct fuel' as [| fuel']; [lia |].
  cbn [tier_loop].
  destruct (0 <? length (securities a (Some b)))%nat eqn:Hne;
    [| reflexivity].
  assert (Hlt : (scores_from a (b + 1) < scores_from a b)%nat).
  { apply scores_from_next. apply Nat.ltb_lt in Hne. intros E.
    rewrite E in Hne. simpl in Hne. lia. }
  assert (E : tier_loop fuel a acct M (b + 1) =
              tier_loop fuel' a acct M (b + 1)) by (apply IH; lia).
  rewrite E. reflexivity.
Qed.

Lemma scores_from_bound (a : TargetAssetclass) (b : Z) :
  (scores_from a b <= length (_securities a))%nat.
Proof.
  unfold scores_from.
  eapply Nat.le_trans; [apply filter_length_le |].
  rewrite length_combine. lia.
Qed.

Lemma pick_buy_fuel (fuel : nat) (a : TargetAssetclass) (acct : Account)
    (M : Q) :
  (length (_securities a) < fuel)%nat ->
  tier_loop fuel a acct M 1 = pick_buy a acct M.
Proof.
  intros H. unfold pick_buy. apply tier_loop_fuel.
  - pose proof (scores_from_bound a 1). lia.
  - pose proof (scores_from_bound a 1). lia.
Qed.

Lemma pick_buy_some (a : TargetAssetclass) (acct : Account) (M : Q)
    (bu : Buy) :
  pick_buy a acct M = Some bu ->
  exists b s l l1 l2,
    (1 <= b)%Z /\
    bu = {| security := Some s; buy_badness := Some (inject_Z b) |} /\
    buy_options a acct b = l1 ++ (s, l) :: l2 /\
    (forall c, In c l1 -> snd c < l) /\
    (forall c, In c l2 -> snd c <= l) /\
    Qabs l <= M /\
    forall b', (1 <= b' <= b)%Z ->
               securities a (Some b') <> [] /\
               ((b' < b)%Z -> tier_rejected a acct M b').
Proof.
  intros H. apply tier_loop_some in H.
  destruct H as (b & s & l & rest & Hb & E & Hs & Hl & Hall).
  apply sorted_head in Hs. destruct Hs as (l1 & l2 & El & H1 & H2).
  exists b, s, l, l1, l2. repeat (split; [assumption |]).
  split; [| split; [| split; assumption]].
  - intros c Hc. specialize (H1 c Hc). unfold neg_loss in H1. simpl in H1. lra.
  - intros c Hc. specialize (H2 c Hc). unfold neg_loss in H2. simpl in H2. lra.
Qed.

(** ** The loop over the asset classes *)

Lemma collect_buys_In (items : list (string * TargetAssetclass))
    (forced : list (string * Buy)) (acct : Account) (M : Q)
    (n : string) (bu : Buy) :
  In (n, bu) (collect_buys items forced acct M) <->
  exists a, In (n, a) items /\
            (lookup n forced = Some bu \/
             (lookup n forced = None /\ pick_buy a acct M = Some bu)).
Proof.
  induction items as [| [a_name a] items IH]; simpl.
  - split; [intros [] | intros (a & [] & _)].
  - destruct (lookup a_name forced) as [fb |] eqn:Ef.
    + simpl. rewrite IH. split.
      * intros [E | (a' & Hin & H)].
        -- inversion E; subst. exists a. split; [left; reflexivity |].
           left. exact Ef.
        -- exists a'. split; [right; exact Hin | exact H].
      * intros (a' & [E | Hin] & H).
        -- inversion E; subst. left.
           destruct H as [H | [H _]]; congruence.
        -- right. exists a'. auto.
    + destruct (pick_buy a acct M) as [b |] eqn:Ep.
      * simpl. rewrite IH. split.
        -- intros [E | (a' & Hin & H)].
           ++ inversion E; subst. exists a. split; [left; reflexivity |].
              right. auto.
           ++ exists a'. split; [right; exact Hin | exact H].
        -- intros (a' & [E | Hin] & H).
           ++ inversion E; subst. left.
              destruct H as [H | [_ H]]; congruence.
           ++ right. exists a'. auto.
      * rewrite IH. split.
        -- intros (a' & Hin & H). exists a'. split; [right; exact Hin | exact H].
        -- intros (a' & [E | Hin] & H).
           ++ inversion E; subst. destruct H as [H | [_ H]]; congruence.
           ++ exists a'. auto.
Qed.

Lemma identify_buys_ok (p : TargetPortfolio) (forced : list (string * Buy))
    (acct : Account) (M : Q) (buys : list (string * Buy)) :
  _identify_buys p forced acct M = Ok buys ->
  _validated p = true /\
  buys = collect_buys (_target_assetclasses p) forced acct M /\
  same_set (keys buys) (keys (_target_assetclasses p)) = true.
Proof.
  unfold _identify_buys, target_assetclasses.
  destruct (_validated p); cbn [assert bind]; [| discriminate].
  destruct (same_set _ _) eqn:E; cbn [negb]; [| discriminate].
  intros H. inversion H; subst. auto.
Qed.

(** ** Forced buys *)

Lemma process_forced_buys_lookup (p : TargetPortfolio)
    (fb : list (string * option string)) (forced : list (string * Buy))
    (n : string) :
  process_forced_buys p fb = Ok forced ->
  lookup n forced =
  match lookup n fb with
  | None => None
  | Some None => Some skipped
  | Some (Some s) => Some (pinned p s)
  end.
Proof.
  revert forced. induction fb as [| [a v] fb IH]; intros forced H.
  - inversion H. reflexivity.
  - cbn [process_forced_buys] in H.
    apply bind_ok in H. destruct H as (classes & Hc & H).
    destruct (negb (mem a (keys classes))); [discriminate |].
    apply bind_ok in H. destruct H as (entry & He & H).
    apply bind_ok in H. destruct H as (rest & Hr & H).
    inversion H; subst forced. clear H.
    cbn [lookup]. destruct (String.eqb n a) eqn:En.
    + destruct v as [s |].
      * apply bind_ok in He. destruct He as (sec & Hs & He).
        destruct (negb (String.eqb (assetclass sec) a)); [discriminate |].
        inversion He; subst entry. clear He.
        unfold find_security in Hs. rewrite Hc in Hs. cbn [bind] in Hs.
        inversion Hs; subst sec.
        unfold target_assetclasses in Hc.
        destruct (_validated p); cbn [assert bind] in Hc; [| discriminate].
        inversion Hc; subst classes. reflexivity.
      * inversion He. reflexivity.
    + apply IH. exact Hr.
Qed.

Lemma process_forced_buys_valid (p : TargetPortfolio)
    (fb : list (string * option string)) (forced : list (string * Buy)) :
  process_forced_buys p fb = Ok forced ->
  forall entry, In entry fb -> forced_entry_valid p entry.
Proof.
  revert forced. induction fb as [| [a v] fb IH]; intros forced H entry Hin.
  - destruct Hin.
  - cbn [process_forced_buys] in H.
    apply bind_ok in H. destruct H as (classes & Hc & H).
    destruct (mem a (keys classes)) eqn:Hm; cbn [negb] in H; [| discriminate].
    apply bind_ok in H. destruct H as (e & He & H).
    apply bind_ok in H. destruct H as (rest & Hr & H).
    destruct Hin as [<- | Hin]; [| exact (IH _ Hr _ Hin)].
    unfold target_assetclasses in Hc.
    destruct (_validated p) eqn:Hv; cbn [assert bind] in Hc; [| discriminate].
    inversion Hc; subst classes. split.
    + apply mem_In. exact Hm.
    + cbn [fst snd]. intros s ->.
      unfold find_security, target_assetclasses in He.
      rewrite Hv in He. cbn [assert bind] in He.
      destruct (String.eqb (assetclass (find_in s (_target_assetclasses p))) a)
        eqn:Ea; cbn [negb] in He; [| discriminate].
      apply String.eqb_eq. exact Ea.
Qed.

Lemma process_forced_buys_succeeds (p : TargetPortfolio)
    (fb : list (string * option string)) :
  _validated p = true ->
  (forall entry, In entry fb -> forced_entry_valid p entry) ->
  exists forced, process_forced_buys p fb = Ok forced.
Proof.
  intros Hv. induction fb as [| [a v] fb IH]; intros Hall.
  - exists []. reflexivity.
  - destruct IH as (rest & Hr); [intros e He; apply Hall; right; exact He |].
    destruct (Hall (a, v) (or_introl eq_refl)) as [Hk Hs].
    cbn [fst snd] in Hk, Hs.
    cbn [process_forced_buys]. unfold find_security, target_assetclasses.
    rewrite Hv. cbn [assert bind].
    apply mem_In in Hk. rewrite Hk. cbn [negb].
    destruct v as [s |].
    + rewrite (Hs s eq_refl), String.eqb_refl. cbn [negb bind].
      rewrite Hr. cbn [bind]. eexists. reflexivity.
    + cbn [bind]. rewrite Hr. cbn [bind]. eexists. reflexivity.
Qed.

Lemma collect_buys_lookup_forced (items : list (string * TargetAssetclass))
    (forced : list (string * Buy)) (acct : Account) (M : Q)
    (n : string) (fb : Buy) :
  lookup n forced = Some fb -> In n (keys items) ->
  lookup n (collect_buys items forced acct M) = Some fb.
Proof.
  intros Hf. induction items as [| [a_name a] items IH]; intros Hin.
  - destruct Hin.
  - cbn [collect_buys]. destruct (String.eqb n a_name) eqn:En.
    + apply String.eqb_eq in En. subst a_name. rewrite Hf.
      cbn [lookup]. rewrite String.eqb_refl. reflexivity.
    + assert (Hin' : In n (keys items)).
      { destruct Hin as [E | Hin]; [| exact Hin].
        cbn [fst] in E. subst a_name. rewrite String.eqb_refl in En.
        discriminate. }
      specialize (IH Hin').
      destruct (lookup a_name forced).
      * cbn [lookup]. rewrite En. exact IH.
      * destruct (pick_buy a acct M).
        -- cbn [lookup]. rewrite En. exact IH.
        -- exact IH.
Qed.

Lemma lookup_In {V : Type} (k : string) (d : list (string * V)) (v : V) :
  lookup k d = Some v -> In (k, v) d.
Proof.
  induction d as [| [k' v'] d IH]; cbn [lookup]; [discriminate |].
  destruct (String.eqb k k') eqn:E.
  - apply String.eqb_eq in E. subst k'. intros H. inversion H. left. reflexivity.
  - intros H. right. apply IH. exact H.
Qed.

(** ** The buy selector *)

Lemma init_buys_ok (p : TargetPortfolio)
    (fb : list (string * option string)) (acct : Account) (M : Q)
    (buys : list (string * Buy)) :
  init_buys p fb acct M = Ok buys ->
  exists forced,
    process_forced_buys p fb = Ok forced /\
    _validated p = true /\
    buys = collect_buys (_target_assetclasses p) forced acct M.
Proof.
  unfold init_buys. intros H. apply bind_ok in H.
  destruct H as (forced & Hf & H). apply identify_buys_ok in H.
  exists forced. tauto.
Qed.

Lemma pick_buy_not_sold (a : TargetAssetclass) (acct : Account) (M : Q)
    (bu : Buy) (s : string) :
  pick_buy a acct M = Some bu -> security bu = Some s ->
  ~ In s (sold (recent_trades acct)) /\ has_score a s.
Proof.
  intros H Hs. apply pick_buy_some in H.
  destruct H as (b & s' & l & l1 & l2 & _ & -> & E & _).
  cbn [security] in Hs. inversion Hs; subst s'.
  assert (Hin : In (s, l) (buy_options a acct b))
    by (rewrite E; apply in_elt).
  apply buy_options_In in Hin. destruct Hin as (Hsec & Hns & _).
  split; [exact Hns |].
  apply securities_In in Hsec. destruct Hsec as (q & Hq & _).
  exists q. exact Hq.
Qed.

(** C6, as the code has it: for an asset class that has no entry in
    [forced_buys], the security chosen is never one sold in the look-back
    window. *)
Theorem sold_security_not_picked (p : TargetPortfolio)
    (fb : list (string * option string)) (acct : Account) (M : Q)
    (buys : list (string * Buy)) (n : string) (bu : Buy) (s : string) :
  init_buys p fb acct M = Ok buys ->
  In (n, bu) buys ->
  security bu = Some s ->
  lookup n fb = None ->
  ~ In s (sold (recent_trades acct)).
Proof.
  intros H Hin Hs Hn. apply init_buys_ok in H.
  destruct H as (forced & Hf & _ & ->).
  apply collect_buys_In in Hin. destruct Hin as (a & _ & [Hl | [_ Hp]]).
  - rewrite (process_forced_buys_lookup p fb forced n Hf), Hn in Hl.
    discriminate.
  - exact (proj1 (pick_buy_not_sold a acct M bu s Hp Hs)).
Qed.

Lemma sold_security_not_picked_witness :
  init_buys Demo.portfolio [] Demo.account 0 = Ok Demo.buys /\
  ~ In "VOO" (sold (recent_trades Demo.account)).
Proof.
  assert (H : init_buys Demo.portfolio [] Demo.account 0 = Ok Demo.buys)
    by reflexivity.
  split; [exact H |].
  apply (sold_security_not_picked Demo.portfolio [] Demo.account 0 _
           "Stocks" {| security := Some "VOO"; buy_badness := Some 2 |}
           "VOO" H).
  - left. reflexivity.
  - reflexivity.
  - reflexivity.
Defined.

(** C6 as stated fails: IVV is in [RecentTrades.sold], and a forced buy
    makes it the buy security of its asset class. *)
Lemma sold_security_bought_when_forced :
  In "IVV" (sold (recent_trades Demo.account)) /\
  exists buys,
    init_buys Demo.portfolio Demo.forced_buys Demo.account 0 = Ok buys /\
    lookup "Stocks" buys =
    Some {| security := Some "IVV"; buy_badness := Some 1 |}.
Proof.
  split; [left; reflexivity |].
  eexists. split; reflexivity.
Qed.

(** C7: at every tier the candidates are sorted by loss, greatest (closest
    to zero) first, candidates of equal loss keeping the order in which
    the asset class declares them; and the security picked for an asset
    class without forced buy is the first candidate of its tier, in
    declared order, among those of the greatest loss. *)
Theorem candidates_sorted_stably (a : TargetAssetclass) (acct : Account) :
  (forall b,
     let candidates := buy_options a acct b in
     map fst candidates =
       filter (fun s => negb (mem s (sold (recent_trades acct))))
              (securities a (Some b)) /\
     Permutation (sorted neg_loss candidates) candidates /\
     StronglySorted (fun u v => snd v <= snd u)
                    (sorted neg_loss candidates) /\
     forall v,
       filter (fun u => Qeq_bool (snd u) v) (sorted neg_loss candidates) =
       filter (fun u => Qeq_bool (snd u) v) candidates) /\
  (forall M s bd,
     pick_buy a acct M = Some {| security := Some s; buy_badness := bd |} ->
     exists b l before after,
       bd = Some (inject_Z b) /\
       buy_options a acct b = before ++ (s, l) :: after /\
       (forall c, In c before -> snd c < l) /\
       (forall c, In c after -> snd c <= l)).
Proof.
  split.
  - intros b candidates. split; [| split; [| split]].
    + unfold candidates, buy_options. rewrite map_map. cbn [fst].
      apply map_id.
    + apply sorted_perm.
    + pose proof (sorted_sorted neg_loss candidates) as Hs.
      induction Hs as [| u l Hs IH Hu]; constructor; [exact IH |].
      rewrite Forall_forall in Hu |- *. intros v Hv.
      specialize (Hu v Hv). unfold neg_loss in Hu. lra.
    + intros v.
      pose proof (sorted_stable neg_loss (- v) candidates) as Hst.
      assert (Hext : forall l : list (string * Q),
                filter (fun u => Qeq_bool (snd u) v) l =
                filter (fun u => Qeq_bool (neg_loss u) (- v)) l).
      { intros l. apply filter_ext. intros u. unfold neg_loss.
        destruct (Qeq_bool (snd u) v) eqn:E1;
          destruct (Qeq_bool (- snd u) (- v)) eqn:E2; try reflexivity.
        - apply Qeq_bool_iff in E1. apply Qeq_bool_false in E2.
          exfalso. apply E2. rewrite E1. reflexivity.
        - apply Qeq_bool_iff in E2. apply Qeq_bool_false in E1.
          exfalso. apply E1. lra. }
      rewrite !Hext. exact Hst.
  - intros M s bd H. apply pick_buy_some in H.
    destruct H as (b & s' & l & l1 & l2 & _ & E & Ho & H1 & H2 & _).
    inversion E; subst. exists b, l, l1, l2. auto.
Qed.

Lemma candidates_sorted_stably_witness :
  pick_buy Demo.bonds Demo.account 0 =
    Some {| security := Some "MUB"; buy_badness := Some 1 |} /\
  exists b l before after,
    Some 1 = Some (inject_Z b) /\
    buy_options Demo.bonds Demo.account b = before ++ ("MUB", l) :: after /\
    (forall c, In c before -> snd c < l) /\
    (forall c, In c after -> snd c <= l).
Proof.
  split; [reflexivity |].
  apply (proj2 (candidates_sorted_stably Demo.bonds Demo.account)
               0 "MUB" (Some 1)).
  reflexivity.
Defined.

(** C9: a security pinned by [forced_buys] is the buy of its asset class
    whatever the recent trades, the losses and the tolerance are; and the
    forced-buy loop accepts every dictionary whose keys are asset classes
    and whose pinned securities are found in the class they are pinned
    for: it checks nothing else. *)
Theorem forced_buy_used_verbatim (p : TargetPortfolio)
    (fb : list (string * option string)) :
  (forall forced n s,
     process_forced_buys p fb = Ok forced ->
     lookup n fb = Some (Some s) ->
     assetclass (find_in s (_target_assetclasses p)) = n /\
     forall acct M,
       lookup n (collect_buys (_target_assetclasses p) forced acct M) =
         Some (pinned p s) /\
       forall buys, _identify_buys p forced acct M = Ok buys ->
                    lookup n buys = Some (pinned p s)) /\
  (_validated p = true ->
   (forall entry, In entry fb -> forced_entry_valid p entry) ->
   exists forced, process_forced_buys p fb = Ok forced).
Proof.
  split; [| apply process_forced_buys_succeeds].
  intros forced n s Hf Hn.
  pose proof (process_forced_buys_valid p fb forced Hf (n, Some s)
                (lookup_In _ _ _ Hn)) as [Hk Hs].
  cbn [fst snd] in Hk, Hs.
  split; [apply Hs; reflexivity |].
  intros acct M.
  assert (Hl : lookup n (collect_buys (_target_assetclasses p) forced acct M) =
               Some (pinned p s)).
  { apply collect_buys_lookup_forced; [| exact Hk].
    rewrite (process_forced_buys_lookup p fb forced n Hf), Hn. reflexivity. }
  split; [exact Hl |].
  intros buys Hb. apply identify_buys_ok in Hb.
  destruct Hb as (_ & -> & _). exact Hl.
Qed.

Lemma forced_buy_used_verbatim_witness :
  In "IVV" (sold (recent_trades Demo.account)) /\
  0 < Qabs (loss_of Demo.account "IVV") /\
  exists forced buys,
    process_forced_buys Demo.portfolio Demo.forced_buys = Ok forced /\
    _identify_buys Demo.portfolio forced Demo.account 0 = Ok buys /\
    lookup "Stocks" buys = Some (pinned Demo.portfolio "IVV").
Proof.
  split; [left; reflexivity |].
  split; [reflexivity |].
  destruct (proj2 (forced_buy_used_verbatim Demo.portfolio Demo.forced_buys))
    as (forced & Hf).
  - reflexivity.
  - intros entry [<- | []]. split.
    + left. reflexivity.
    + intros s E. inversion E. reflexivity.
  - exists forced.
    destruct (proj1 (forced_buy_used_verbatim Demo.portfolio Demo.forced_buys)
                forced "Stocks" "IVV" Hf eq_refl) as (_ & Hall).
    destruct (_identify_buys Demo.portfolio forced Demo.account 0)
      as [buys | e] eqn:Hb.
    + exists buys. split; [exact Hf |]. split; [reflexivity |].
      exact (proj2 (Hall Demo.account 0) buys Hb).
    + exfalso. cbv in Hf. inversion Hf; subst forced. cbv in Hb. discriminate.
Defined.

(** C10: the constructor of an asset class checks the numeric scores only
    (a class that is accepted is still accepted with one more security of
    score [None]; every numeric score is an integer at least 1, and one of
    them is 1); the tier loop picks a security only at a tier that is an
    integer from 1 on, all tiers up to it being inhabited, and the security
    carries that numeric score; so a security without a numeric score in
    its class is bought only through [forced_buys]. *)
Theorem none_badness_only_forced :
  (forall t n secs bs a s,
     TargetAssetclass_init t n secs bs = Ok a ->
     TargetAssetclass_init t n (secs ++ [s]) (bs ++ [None]) =
       Ok {| target := t; name := n; _securities := map upper (secs ++ [s]);
             _badness_scores := bs ++ [None] |} /\
     (forall q, In (Some q) bs -> is_integral q = true /\ 1 <= q) /\
     (exists q, In (Some q) bs /\ q == 1)) /\
  (forall a acct M s bd,
     pick_buy a acct M = Some {| security := Some s; buy_badness := bd |} ->
     exists b q,
       (1 <= b)%Z /\ bd = Some (inject_Z b) /\
       In (s, Some q) (combine (_securities a) (_badness_scores a)) /\
       q == inject_Z b /\
       forall b', (1 <= b' <= b)%Z -> securities a (Some b') <> []) /\
  (forall items forced acct M n bu s,
     In (n, bu) (collect_buys items forced acct M) ->
     security bu = Some s ->
     (forall a, In (n, a) items -> ~ has_score a s) ->
     lookup n forced = Some bu).
Proof.
  split; [| split].
  - intros t n secs bs a s H. split; [| apply (init_checks_numeric_scores _ _ _ _ _ H)].
    apply (init_accepts_None _ _ _ _ _ _ H).
  - intros a acct M s bd H. apply pick_buy_some in H.
    destruct H as (b & s' & l & l1 & l2 & Hb & E & Ho & _ & _ & _ & Hall).
    injection E as Es Eb. subst s' bd.
    assert (Hin : In (s, l) (buy_options a acct b))
      by (rewrite Ho; apply in_elt).
    apply buy_options_In in Hin. destruct Hin as (Hsec & _).
    apply securities_In in Hsec. destruct Hsec as (q & Hq & Hqb).
    exists b, q. repeat (split; [assumption || reflexivity |]).
    intros b' Hb'. apply (Hall b' Hb').
  - intros items forced acct M n bu s Hin Hs Hnone.
    apply collect_buys_In in Hin. destruct Hin as (a & Ha & [Hl | [_ Hp]]).
    + exact Hl.
    + exfalso. apply (Hnone a Ha).
      exact (proj2 (pick_buy_not_sold a acct M bu s Hp Hs)).
Qed.

Lemma none_badness_only_forced_witness :
  TargetAssetclass_init 60 "Stocks" ["ivv"; "voo"; "iwb"]
                        [Some 1; Some 2; None] = Ok Demo.stocks /\
  pick_buy Demo.stocks Demo.account 0 =
    Some {| security := Some "VOO"; buy_badness := Some 2 |} /\
  (exists b q,
     (1 <= b)%Z /\ Some 2 = Some (inject_Z b) /\
     In ("VOO", Some q)
        (combine (_securities Demo.stocks) (_badness_scores Demo.stocks)) /\
     q == inject_Z b /\
     forall b', (1 <= b' <= b)%Z -> securities Demo.stocks (Some b') <> []).
Proof.
  assert (H0 : TargetAssetclass_init 60 "Stocks" ["ivv"; "voo"]
                 [Some 1; Some 2] =
               Ok {| target := 60; name := "Stocks";
                     _securities := ["IVV"; "VOO"];
                     _badness_scores := [Some 1; Some 2] |})
    by reflexivity.
  destruct none_badness_only_forced as (Hinit & Hpick & _).
  split.
  - exact (proj1 (Hinit _ _ _ _ _ "iwb" H0)).
  - split; [reflexivity |].
    apply (Hpick Demo.stocks Demo.account 0 "VOO" (Some 2)). reflexivity.
Defined.

(** ** The sell selector *)

(** Pass 1 never takes a lot of a protected security, and takes losing
    lots only. *)
Lemma losing_lots_spec (acct : Account) (dns : list (option string))
    (r : Lot) :
  In r (losing_lots acct dns) <->
  In r (df_lots acct) /\ in_do_not_sell (symbol r) dns = false /\ gain r < 0.
Proof.
  unfold losing_lots. rewrite filter_In, andb_true_iff, negb_true_iff.
  rewrite Qltb_lt. tauto.
Qed.

(** *** The gain-harvesting loop *)

Lemma harvest_loop_empty (M : Q) (fuel k : nat) :
  0 < M -> harvest_loop fuel [] M k = None.
Proof.
  intros HM. revert k. induction fuel as [| fuel IH]; intros k.
  - reflexivity.
  - cbn [harvest_loop]. unfold harvest_step, cumulative_gain.
    rewrite firstn_nil. cbn [map Qsum].
    apply Qltb_lt in HM. rewrite HM.
    replace (k + 1 =? length (@nil Lot))%nat with false.
    + apply IH.
    + symmetry. apply Nat.eqb_neq. simpl. lia.
Qed.

Lemma harvest_loop_more_fuel (lots : list Lot) (M : Q) (fuel n k r : nat) :
  harvest_loop fuel lots M k = Some r ->
  harvest_loop (fuel + n) lots M k = Some r.
Proof.
  revert k. induction fuel as [| fuel IH]; intros k H; [discriminate |].
  cbn [harvest_loop Nat.add] in *.
  destruct (harvest_step lots M k) as [k' | k']; [apply IH |]; exact H.
Qed.

Lemma harvest_loop_from (lots : list Lot) (M : Q) (fuel k : nat) :
  (k < length lots)%nat -> (length lots - k <= fuel)%nat ->
  exists r,
    harvest_loop fuel lots M k = Some r /\
    (k <= r <= length lots)%nat /\
    (r = k \/ cumulative_gain lots r < M) /\
    ((r < length lots)%nat -> M <= cumulative_gain lots (r + 1)).
Proof.
  revert k. induction fuel as [| fuel IH]; intros k Hk Hf; [lia |].
  cbn [harvest_loop]. unfold harvest_step.
  destruct (Qltb (cumulative_gain lots (k + 1)) M) eqn:Ht.
  - apply Qltb_lt in Ht.
    destruct (k + 1 =? length lots)%nat eqn:El.
    + apply Nat.eqb_eq in El. exists (k + 1)%nat.
      split; [reflexivity |]. split; [lia |]. split; [right; exact Ht | lia].
    + apply Nat.eqb_neq in El.
      destruct (IH (k + 1)%nat) as (r & Hr & Hb & Hc & Hn); [lia | lia |].
      exists r. split; [exact Hr |]. split; [lia |].
      split; [| exact Hn].
      right. destruct Hc as [-> | Hc]; assumption.
  - apply Qltb_ge in Ht. exists k.
    split; [reflexivity |]. split; [lia |]. split; [left; reflexivity |].
    intros _. exact Ht.
Qed.

(** With at least one winning lot the loop ends after as many passes as
    it selects lots, and it selects the longest run of lots, taken in
    order, whose cumulative gain is below the threshold. *)
Lemma harvest_loop_ends (lots : list Lot) (M : Q) :
  lots <> [] -> 0 <= M ->
  exists r,
    (forall fuel, (length lots <= fuel)%nat ->
                  harvest_loop fuel lots M 0 = Some r) /\
    (r <= length lots)%nat /\
    cumulative_gain lots r <= M /\
    ((0 < r)%nat -> cumulative_gain lots r < M) /\
    ((r < length lots)%nat -> M <= cumulative_gain lots (r + 1)).
Proof.
  intros Hne HM.
  assert (Hlen : (0 < length lots)%nat)
    by (destruct lots; [congruence | simpl; lia]).
  destruct (harvest_loop_from lots M (length lots) 0 Hlen)
    as (r & Hr & Hb & Hc & Hn); [lia |].
  exists r. split; [| split; [lia | split; [| split]]].
  - intros fuel Hf.
    replace fuel with (length lots + (fuel - length lots))%nat by lia.
    apply harvest_loop_more_fuel. exact Hr.
  - destruct Hc as [-> | Hc]; [exact HM | apply Qlt_le_weak; exact Hc].
  - intros Hpos. destruct Hc as [-> | Hc]; [lia | exact Hc].
  - exact Hn.
Qed.

Lemma gaining_lots_In (acct : Account) (sym : string) (r : Lot) :
  In r (gaining_lots acct sym) <->
  In r (df_lots acct) /\ symbol r = sym /\ 0 < gain r.
Proof.
  unfold gaining_lots. split.
  - intros H. apply (Permutation_in _ (sorted_perm gain _)) in H.
    apply filter_In in H. destruct H as [Hin Hb].
    apply andb_true_iff in Hb. destruct Hb as [Hs Hg].
    apply String.eqb_eq in Hs. apply Qltb_lt in Hg. auto.
  - intros (Hin & Hs & Hg).
    apply (Permutation_in _ (Permutation_sym (sorted_perm gain _))).
    apply filter_In. split; [exact Hin |].
    apply andb_true_iff. split; [apply String.eqb_eq; exact Hs |].
    apply Qltb_lt. exact Hg.
Qed.

(** X27: What the gain-harvesting loop selects: for a security with at
    least one winning lot, the loop ends and selects a prefix of the
    winning lots in ascending order of gain; the cumulative gain of the
    selected lots never exceeds [MAX_GAIN_TO_SELL] and is strictly below
    it as soon as a lot is selected; unless every winning lot is
    selected, the next lot would bring the cumulative gain to the
    threshold or above. *)
Theorem gain_harvest_stays_below_threshold (acct : Account) (sym : string)
    (MAX_GAIN_TO_SELL : Q) :
  let lots := gaining_lots acct sym in
  lots <> [] -> 0 <= MAX_GAIN_TO_SELL ->
  StronglySorted (fun u v => gain u <= gain v) lots /\
  (forall r, In r lots -> 0 < gain r) /\
  exists lots_to_sell,
    (forall fuel, (length lots <= fuel)%nat ->
       harvest_loop fuel lots MAX_GAIN_TO_SELL 0 = Some lots_to_sell) /\
    (lots_to_sell <= length lots)%nat /\
    Qsum (map gain (lots_sold_for_gain lots lots_to_sell))
      <= MAX_GAIN_TO_SELL /\
    ((0 < lots_to_sell)%nat ->
     Qsum (map gain (lots_sold_for_gain lots lots_to_sell))
       < MAX_GAIN_TO_SELL) /\
    ((lots_to_sell < length lots)%nat ->
     MAX_GAIN_TO_SELL
       <= Qsum (map gain (lots_sold_for_gain lots (lots_to_sell + 1)))).
Proof.
  intros lots Hne HM.
  split; [apply sorted_sorted |].
  split; [intros r Hr; apply gaining_lots_In in Hr; tauto |].
  exact (harvest_loop_ends lots MAX_GAIN_TO_SELL Hne HM).
Qed.

Lemma gain_harvest_stays_below_threshold_witness :
  map gain (gaining_lots Demo.account "VIG") = [5; 10] /\
  exists lots_to_sell,
    harvest_loop 2 (gaining_lots Demo.account "VIG") 7 0 = Some lots_to_sell /\
    Qsum (map gain (lots_sold_for_gain (gaining_lots Demo.account "VIG")
                                       lots_to_sell)) < 7.
Proof.
  split; [reflexivity |].
  destruct (gain_harvest_stays_below_threshold Demo.account "VIG" 7)
    as (_ & _ & k & Hk & _ & _ & Hlt & _).
  - discriminate.
  - discriminate.
  - exists k. split; [apply Hk; apply Nat.le_refl |].
    apply Hlt. specialize (Hk 2%nat (Nat.le_refl 2)).
    vm_compute in Hk. inversion Hk. apply Nat.lt_0_1.
Defined.

(** C2 fails on the code: VIG is eligible, its winning lots gain 5 and 10,
    and with a threshold of 7 the loop selects the first lot only: the
    cumulative gain 5 is below the threshold although a winning lot is
    left.  The comments of the loop ask for lots to be added until the
    gains are at least [MAX_GAIN_TO_SELL]; its test looks one lot ahead
    and stops one lot short of that. *)
Theorem gain_harvest_undershoots :
  eligible_for_gains Demo.portfolio Demo.buys
                     (do_not_sell Demo.account Demo.buys) Demo.vig = Ok true /\
  map gain (gaining_lots Demo.account "VIG") = [5; 10] /\
  (forall fuel, (2 <= fuel)%nat ->
     harvest_loop fuel (gaining_lots Demo.account "VIG") 7 0 = Some 1%nat) /\
  Qsum (map gain (lots_sold_for_gain (gaining_lots Demo.account "VIG") 1)) < 7 /\
  (1 < length (gaining_lots Demo.account "VIG"))%nat.
Proof.
  split; [reflexivity |]. split; [reflexivity |].
  split; [| split; [reflexivity | simpl; lia]].
  intros fuel Hf. replace fuel with (2 + (fuel - 2))%nat by lia.
  apply harvest_loop_more_fuel. reflexivity.
Qed.

(** C3 fails on the code: ORAN is eligible for gain harvesting and has no
    winning lot; with [MAX_GAIN_TO_SELL = 1] the loop is still running
    after any number of passes, [lots_to_sell] having stepped over the
    length 0 that the [break] waits for. *)
Theorem harvest_loop_runs_forever_without_winning_lots :
  eligible_for_gains Demo.portfolio Demo.buys
                     (do_not_sell Demo.account Demo.buys) Demo.oran = Ok true /\
  gaining_lots Demo.account "ORAN" = [] /\
  forall fuel,
    harvest_loop fuel (gaining_lots Demo.account "ORAN") 1 0 = None.
Proof.
  split; [reflexivity |]. split; [reflexivity |].
  intros fuel. change (gaining_lots Demo.account "ORAN") with (@nil Lot).
  apply harvest_loop_empty. reflexivity.
Qed.

(** ** Boolean masks *)

Section Masks.

Context {R A : Type}.

Lemma gather_map (f : R -> bool) (g : R -> A) (l : list R) :
  gather (map f l) (map g l) = map g (filter f l).
Proof.
  induction l as [| r l IH]; simpl; [reflexivity |].
  destruct (f r); simpl; rewrite IH; reflexivity.
Qed.

Lemma mask_get_map (f : R -> bool) (g : R -> A) (l : list R) :
  mask_get (map f l) (map g l) = Ok (map g (filter f l)).
Proof.
  unfold mask_get. rewrite !length_map, Nat.eqb_refl, gather_map.
  reflexivity.
Qed.

Lemma count_true_map (f : R -> bool) (l : list R) :
  count_true (map f l) = length (filter f l).
Proof.
  unfold count_true. induction l as [| r l IH]; simpl; [reflexivity |].
  unfold id at 1. destruct (f r); simpl; rewrite IH; reflexivity.
Qed.

Lemma scatter_map (f : R -> bool) (g h : R -> A) (l : list R) :
  scatter (map f l) (map g l) (map h (filter f l)) =
  map (fun r => if f r then h r else g r) l.
Proof.
  induction l as [| r l IH]; simpl; [reflexivity |].
  destruct (f r); simpl; rewrite IH; reflexivity.
Qed.

Lemma mask_set_map (f : R -> bool) (g h : R -> A) (l : list R) :
  mask_set (map f l) (map g l) (map h (filter f l)) =
  Ok (map (fun r => if f r then h r else g r) l).
Proof.
  unfold mask_set.
  rewrite !length_map, Nat.eqb_refl, count_true_map, Nat.eqb_refl.
  cbn [negb]. rewrite scatter_map. reflexivity.
Qed.

Lemma mask_fill_map (f : R -> bool) (g : R -> A) (v : A) (l : list R) :
  mask_fill (map f l) (map g l) v =
  Ok (map (fun r => if f r then v else g r) l).
Proof.
  unfold mask_fill. rewrite !length_map, Nat.eqb_refl. f_equal.
  induction l as [| r l IH]; simpl; [reflexivity |].
  rewrite IH. reflexivity.
Qed.

End Masks.

Lemma zip_with_map {R A B C : Type} (f : A -> B -> C) (g : R -> A)
    (h : R -> B) (l : list R) :
  zip_with f (map g l) (map h l) = map (fun r => f (g r) (h r)) l.
Proof.
  induction l as [| r l IH]; simpl; [reflexivity |].
  rewrite IH. reflexivity.
Qed.

Lemma filter_true {A : Type} (f : A -> bool) (l : list A) :
  (forall a, In a l -> f a = true) -> filter f l = l.
Proof.
  induction l as [| a l IH]; intros H; simpl; [reflexivity |].
  rewrite (H a (or_introl eq_refl)), IH; [reflexivity |].
  intros b Hb. apply H. right. exact Hb.
Qed.

Lemma divide_ok (a b : Q) : ~ b == 0 -> divide a b = Ok (a / b).
Proof.
  intros H. unfold divide. apply Qeq_bool_false in H. rewrite H. reflexivity.
Qed.

Lemma divide_all_ok (l : list Q) (b : Q) :
  ~ b == 0 -> divide_all l b = Ok (map (fun v => v / b) l).
Proof.
  intros H. induction l as [| v l IH]; simpl; [reflexivity |].
  rewrite (divide_ok v b H), IH. reflexivity.
Qed.

(** ** The loop on a full active set, one asset class at a time

    From here to the end of the part on the solver the arithmetic is
    exact. *)

Lemma mask_set_all {R A : Type} (g h : R -> A) (l : list R) :
  mask_set (map (fun _ => true) l) (map g l) (map h l) = Ok (map h l).
Proof.
  pose proof (mask_set_map (fun _ : R => true) g h l) as H.
  rewrite (filter_true (fun _ : R => true) l) in H by reflexivity.
  rewrite H. f_equal.
Qed.

Lemma solver_step_cells (T : Q) (l : list Cell) :
  ~ free_count l == 0 ->
  solver_step (map (fun _ => true) l) (length l) T
              (map c_chi l) (map c_ell l) (iterate_of l) =
  Ok (iterate_of (map (cell_step (cells_gamma T l)) l)).
Proof.
  intros Hd. unfold solver_step, iterate_of. cbn [x_ mu_].
  rewrite !mask_get_map. cbn [bind].
  rewrite (filter_true (fun _ : Cell => true) l) by reflexivity.
  rewrite zip_with_map.
  rewrite (mask_fill_map (fun r => Qle_bool (c_x r) (c_ell r))
                         (fun _ => true) false l).
  cbn [bind]. rewrite count_true_map.
  change (of_nat (length l)
          - of_nat (length (filter (fun r => Qle_bool (c_x r) (c_ell r)) l)))
    with (free_count l).
  rewrite (divide_ok 2 (free_count l) Hd). cbn [bind].
  rewrite !mask_get_map. cbn [bind].
  rewrite zip_with_map, !map_map.
  rewrite (mask_set_map (fun r => Qle_bool (c_x r) (c_ell r)) c_mu).
  cbn [bind].
  rewrite (mask_get_map (fun _ : Cell => true)). cbn [bind].
  rewrite (filter_true (fun _ : Cell => true) l) by reflexivity.
  rewrite !map_map, zip_with_map.
  rewrite mask_set_all. reflexivity.
Qed.

Lemma solver_step_cells_zero (T : Q) (l : list Cell) :
  free_count l == 0 ->
  solver_step (map (fun _ => true) l) (length l) T
              (map c_chi l) (map c_ell l) (iterate_of l) =
  Raise ZeroDivisionError.
Proof.
  intros Hd. unfold solver_step, iterate_of. cbn [x_ mu_].
  rewrite !mask_get_map. cbn [bind].
  rewrite (filter_true (fun _ : Cell => true) l) by reflexivity.
  rewrite zip_with_map.
  rewrite (mask_fill_map (fun r => Qle_bool (c_x r) (c_ell r))
                         (fun _ => true) false l).
  cbn [bind]. rewrite count_true_map.
  change (of_nat (length l)
          - of_nat (length (filter (fun r => Qle_bool (c_x r) (c_ell r)) l)))
    with (free_count l).
  unfold divide. apply Qeq_bool_iff in Hd. rewrite Hd. reflexivity.
Qed.

Lemma infeasible_cells (l : list Cell) :
  infeasible (map (fun _ => true) l) (map c_ell l) (map c_x l) =
  Ok (0 <? length (filter below_floor l))%nat.
Proof.
  unfold infeasible. rewrite !mask_get_map. cbn [bind].
  rewrite zip_with_map, count_true_map.
  rewrite (filter_true (fun _ : Cell => true) l) by reflexivity.
  reflexivity.
Qed.

Lemma cell_step_static (gamma : Q) (l : list Cell) :
  map c_chi (map (cell_step gamma) l) = map c_chi l /\
  map c_ell (map (cell_step gamma) l) = map c_ell l /\
  map (fun _ : Cell => true) (map (cell_step gamma) l) =
    map (fun _ : Cell => true) l /\
  length (map (cell_step gamma) l) = length l.
Proof.
  rewrite !map_map, length_map. repeat split; reflexivity.
Qed.

(** On a full active set the loop of the solver is [cells_loop]. *)
Lemma solver_loop_cells (cap : nat) (T : Q) (l : list Cell) :
  solver_loop cap (map (fun _ => true) l) (length l) T
              (map c_chi l) (map c_ell l) (iterate_of l) =
  (l' <- cells_loop cap T l ;; Ok (iterate_of l')).
Proof.
  revert l. induction cap as [| cap IH]; intros l; [reflexivity |].
  cbn [solver_loop cells_loop].
  change (x_ (iterate_of l)) with (map c_x l).
  rewrite infeasible_cells. cbn [bind].
  destruct (0 <? length (filter below_floor l))%nat; [| reflexivity].
  destruct (Qeq_bool (free_count l) 0) eqn:Hz.
  - apply Qeq_bool_iff in Hz. rewrite (solver_step_cells_zero T l Hz).
    reflexivity.
  - apply Qeq_bool_false in Hz. rewrite (solver_step_cells T l Hz).
    cbn [bind].
    destruct (cell_step_static (cells_gamma T l) l) as (E1 & E2 & E3 & E4).
    rewrite <- E1, <- E2, <- E3, <- E4 at 1. apply IH.
Qed.

(** ** Sums over lists *)

Section Sums.

Context {A : Type}.

Lemma Qsum_map_ext (f g : A -> Q) (l : list A) :
  (forall a, In a l -> f a == g a) ->
  Qsum (map f l) == Qsum (map g l).
Proof.
  induction l as [| a l IH]; intros H; simpl; [reflexivity |].
  rewrite (H a (or_introl eq_refl)), IH; [reflexivity |].
  intros b Hb. apply H. right. exact Hb.
Qed.

Lemma Qsum_map_split (p : A -> bool) (f : A -> Q) (l : list A) :
  Qsum (map f l) ==
  Qsum (map f (filter p l)) + Qsum (map f (filter (fun a => negb (p a)) l)).
Proof.
  induction l as [| a l IH]; simpl; [lra |].
  destruct (p a); simpl; rewrite IH; lra.
Qed.

Lemma filter_length_split (p : A -> bool) (l : list A) :
  (length (filter p l) + length (filter (fun a => negb (p a)) l))%nat =
  length l.
Proof.
  induction l as [| a l IH]; simpl; [reflexivity |].
  destruct (p a); simpl; lia.
Qed.

Lemma Qsum_map_shift (f : A -> Q) (k : Q) (l : list A) :
  Qsum (map (fun a => f a - k) l) == Qsum (map f l) - of_nat (length l) * k.
Proof.
  induction l as [| a l IH].
  - cbn [map Qsum length]. change (of_nat 0) with 0. lra.
  - cbn [map Qsum length]. rewrite IH. unfold of_nat.
    rewrite Nat2Z.inj_succ, <- Z.add_1_r, inject_Z_plus.
    change (inject_Z 1) with 1. lra.
Qed.

Lemma Qsum_map_le (f g : A -> Q) (l : list A) :
  (forall a, In a l -> f a <= g a) ->
  Qsum (map f l) <= Qsum (map g l).
Proof.
  induction l as [| a l IH]; intros H; simpl; [lra |].
  assert (H1 := H a (or_introl eq_refl)).
  assert (H2 : Qsum (map f l) <= Qsum (map g l))
    by (apply IH; intros b Hb; apply H; right; exact Hb).
  lra.
Qed.

Lemma Qsum_map_lt (f g : A -> Q) (l : list A) (a : A) :
  (forall b, In b l -> f b <= g b) ->
  In a l -> f a < g a ->
  Qsum (map f l) < Qsum (map g l).
Proof.
  induction l as [| b l IH]; intros H Hin Hlt; [destruct Hin |].
  simpl. assert (H1 := H b (or_introl eq_refl)).
  assert (Hl : forall c, In c l -> f c <= g c)
    by (intros c Hc; apply H; right; exact Hc).
  destruct Hin as [-> | Hin].
  - pose proof (Qsum_map_le f g l Hl). lra.
  - specialize (IH Hl Hin Hlt). lra.
Qed.

(** A pointwise bound with equal sums is an equality everywhere. *)
Lemma Qsum_map_squeeze (f g : A -> Q) (l : list A) :
  (forall a, In a l -> f a <= g a) ->
  Qsum (map g l) <= Qsum (map f l) ->
  forall a, In a l -> f a == g a.
Proof.
  intros Hle Hs a Hin.
  destruct (Qlt_le_dec (f a) (g a)) as [Hlt | Hge].
  - pose proof (Qsum_map_lt f g l a Hle Hin Hlt). lra.
  - specialize (Hle a Hin). lra.
Qed.

Lemma filter_all (p : A -> bool) (l : list A) :
  length (filter p l) = length l -> forall a, In a l -> p a = true.
Proof.
  induction l as [| b l IH]; intros H a Hin; [destruct Hin |].
  simpl in H. pose proof (filter_length_le p l) as Hle.
  destruct (p b) eqn:E; simpl in H; [| lia].
  destruct Hin as [<- | Hin]; [exact E | apply IH; [lia | exact Hin]].
Qed.

Lemma filter_nil (p : A -> bool) (l : list A) :
  filter p l = [] -> forall a, In a l -> p a = false.
Proof.
  intros H a Hin. destruct (p a) eqn:E; [| reflexivity].
  assert (Hf : In a (filter p l)) by (apply filter_In; auto).
  rewrite H in Hf. destruct Hf.
Qed.

End Sums.

Lemma of_nat_lt (m n : nat) : (m < n)%nat -> of_nat m < of_nat n.
Proof.
  intros H. unfold of_nat. rewrite <- Zlt_Qlt. lia.
Qed.

Lemma of_nat_minus (m n : nat) :
  (m <= n)%nat -> of_nat (n - m) == of_nat n - of_nat m.
Proof.
  intros H. unfold of_nat. rewrite Nat2Z.inj_sub by exact H.
  unfold Z.sub. rewrite inject_Z_plus, inject_Z_opp. lra.
Qed.

(** ** The passes of the loop keep the allocation feasible in sum *)

Lemma at_floor_true (c : Cell) : at_floor c = true <-> c_x c <= c_ell c.
Proof. unfold at_floor. apply Qle_bool_iff. Qed.

Lemma at_floor_false (c : Cell) : at_floor c = false <-> c_ell c < c_x c.
Proof. unfold at_floor. apply Qle_bool_gt. Qed.

Lemma below_floor_true (c : Cell) : below_floor c = true <-> c_x c < c_ell c.
Proof. unfold below_floor. apply Qltb_lt. Qed.

Lemma below_floor_false (c : Cell) :
  below_floor c = false <-> c_ell c <= c_x c.
Proof. unfold below_floor. apply Qltb_ge. Qed.

Lemma free_count_free_cells (l : list Cell) :
  free_count l == of_nat (free_cells l).
Proof.
  unfold free_count, free_cells.
  pose proof (filter_length_split at_floor l) as H.
  pose proof (filter_length_le at_floor l) as Hle.
  replace (length (filter (fun c => negb (at_floor c)) l))
    with (length l - length (filter at_floor l))%nat by lia.
  symmetry. apply of_nat_minus. exact Hle.
Qed.

Lemma cell_step_clamped (gamma : Q) (c : Cell) :
  at_floor c = true -> c_x (cell_step gamma c) == c_ell c.
Proof.
  intros H. unfold cell_step, new_mu. cbn [c_x]. rewrite H. field.
Qed.

Lemma cell_step_free (gamma : Q) (c : Cell) :
  c_x c == c_ell c \/ c_mu c == 0 ->
  at_floor c = false ->
  c_x (cell_step gamma c) == c_chi c - (1 # 2) * gamma /\
  c_mu (cell_step gamma c) == 0.
Proof.
  intros Hinv H. unfold cell_step, new_mu. cbn [c_x c_mu]. rewrite H.
  apply at_floor_false in H.
  destruct Hinv as [Hx | Hm]; [lra |].
  split; [rewrite Hm; field | exact Hm].
Qed.

Lemma cells_step_inv (T : Q) (l : list Cell) :
  cells_inv T l -> ~ free_count l == 0 ->
  cells_inv T (map (cell_step (cells_gamma T l)) l).
Proof.
  intros [Hsum Hall] Hd. rewrite Forall_forall in Hall.
  set (gamma := cells_gamma T l). split.
  - rewrite map_map.
    rewrite (Qsum_map_split at_floor).
    rewrite (Qsum_map_ext (fun c => c_x (cell_step gamma c)) c_ell
                          (filter at_floor l)).
    2:{ intros c Hc. apply filter_In in Hc.
        apply cell_step_clamped. tauto. }
    rewrite (Qsum_map_ext (fun c => c_x (cell_step gamma c))
                          (fun c => c_chi c - (1 # 2) * gamma)
                          (filter (fun c => negb (at_floor c)) l)).
    2:{ intros c Hc. apply filter_In in Hc. destruct Hc as [Hin Hf].
        apply negb_true_iff in Hf.
        apply (cell_step_free gamma c (Hall c Hin) Hf). }
    rewrite Qsum_map_shift.
    fold (free_cells l). rewrite <- free_count_free_cells.
    unfold gamma, cells_gamma.
    set (A := Qsum (map c_chi (filter (fun c => negb (at_floor c)) l))).
    set (B := Qsum (map c_ell (filter at_floor l))).
    field. exact Hd.
  - apply Forall_forall. intros c' Hc'. apply in_map_iff in Hc'.
    destruct Hc' as (c & <- & Hc).
    destruct (at_floor c) eqn:E.
    + left. apply (cell_step_clamped gamma c E).
    + right. apply (cell_step_free gamma c (Hall c Hc) E).
Qed.

(** While an asset class is below its floor and the floors fit in [T],
    some asset class is above its own. *)
Lemma cells_free_exists (T : Q) (l : list Cell) :
  cells_inv T l -> Qsum (map c_ell l) <= T ->
  (0 < length (filter below_floor l))%nat ->
  (0 < free_cells l)%nat.
Proof.
  intros [Hsum _] HT Hv.
  destruct (filter below_floor l) as [| c r] eqn:E; [simpl in Hv; lia |].
  assert (Hc : In c (filter below_floor l)) by (rewrite E; left; reflexivity).
  apply filter_In in Hc. destruct Hc as [Hin Hb].
  apply below_floor_true in Hb.
  unfold free_cells.
  destruct (filter (fun c => negb (at_floor c)) l) as [| d r'] eqn:E';
    [| simpl; lia].
  exfalso.
  assert (Hall : forall a, In a l -> c_x a <= c_ell a).
  { intros a Ha. pose proof (filter_nil _ _ E' a Ha) as Hf.
    apply negb_false_iff in Hf. apply at_floor_true. exact Hf. }
  pose proof (Qsum_map_lt c_x c_ell l c Hall Hin Hb). lra.
Qed.

Lemma cells_free_count_pos (T : Q) (l : list Cell) :
  cells_inv T l -> Qsum (map c_ell l) <= T ->
  (0 < length (filter below_floor l))%nat ->
  ~ free_count l == 0.
Proof.
  intros Hi HT Hv. pose proof (cells_free_exists T l Hi HT Hv) as Hp.
  rewrite free_count_free_cells.
  pose proof (of_nat_lt 0 (free_cells l) Hp) as Hlt.
  change (of_nat 0) with 0 in Hlt. lra.
Qed.

(** After a pass, a violation still present means one more asset class on
    its floor. *)
Lemma cells_step_progress (T : Q) (l : list Cell) (gamma : Q) :
  (0 < length (filter below_floor (map (cell_step gamma) l)))%nat ->
  (free_cells (map (cell_step gamma) l) < free_cells l)%nat.
Proof.
  intros Hv.
  destruct (filter below_floor (map (cell_step gamma) l)) as [| c' r] eqn:E;
    [simpl in Hv; lia |].
  assert (Hc' : In c' (filter below_floor (map (cell_step gamma) l)))
    by (rewrite E; left; reflexivity).
  apply filter_In in Hc'. destruct Hc' as [Hin Hb].
  apply in_map_iff in Hin. destruct Hin as (c & <- & Hc).
  apply below_floor_true in Hb.
  unfold free_cells.
  assert (Elen : forall (p : Cell -> bool) (l0 : list Cell),
            length (filter p (map (cell_step gamma) l0)) =
            length (filter (fun a => p (cell_step gamma a)) l0)).
  { intros p l0. induction l0 as [| a l0 IH]; simpl; [reflexivity |].
    destruct (p (cell_step gamma a)); simpl; rewrite IH; reflexivity. }
  rewrite Elen.
  apply filter_length_lt with (x := c).
  - intros a Ha. apply negb_true_iff in Ha. apply at_floor_false in Ha.
    apply negb_true_iff. destruct (at_floor a) eqn:Ea; [| reflexivity].
    pose proof (cell_step_clamped gamma a Ea) as Hx.
    cbn [c_ell cell_step] in Ha. lra.
  - exact Hc.
  - apply negb_true_iff. destruct (at_floor c) eqn:Ea; [| reflexivity].
    pose proof (cell_step_clamped gamma c Ea) as Hx.
    cbn [c_ell cell_step] in Hb. lra.
  - apply negb_false_iff. apply at_floor_true.
    apply Qlt_le_weak. exact Hb.
Qed.

(** The loop ends on a feasible allocation when the cap leaves one pass
    for every asset class above its floor. *)
Lemma cells_loop_feasible (cap : nat) (T : Q) (l : list Cell) :
  cells_inv T l -> Qsum (map c_ell l) <= T ->
  filter below_floor l = [] \/ (free_cells l <= cap)%nat ->
  exists l',
    cells_loop cap T l = Ok l' /\
    cells_inv T l' /\
    filter below_floor l' = [] /\
    map c_ell l' = map c_ell l /\
    map c_chi l' = map c_chi l.
Proof.
  revert l. induction cap as [| cap IH]; intros l Hi HT Hm.
  - exists l. split; [reflexivity |]. split; [exact Hi |].
    split; [| split; reflexivity].
    destruct Hm as [Hm | Hm]; [exact Hm |].
    destruct (filter below_floor l) as [| c r] eqn:E; [reflexivity |].
    assert (Hv : (0 < length (filter below_floor l))%nat)
      by (rewrite E; simpl; lia).
    pose proof (cells_free_exists T l Hi HT Hv). lia.
  - cbn [cells_loop].
    destruct (0 <? length (filter below_floor l))%nat eqn:Hv.
    + apply Nat.ltb_lt in Hv.
      pose proof (cells_free_count_pos T l Hi HT Hv) as Hd.
      assert (Hz : Qeq_bool (free_count l) 0 = false)
        by (apply Qeq_bool_false; exact Hd).
      rewrite Hz.
      set (l1 := map (cell_step (cells_gamma T l)) l).
      destruct (cell_step_static (cells_gamma T l) l) as (E1 & E2 & _ & _).
      fold l1 in E1, E2.
      destruct (IH l1) as (l' & Hl' & Hi' & Hf' & El' & Ec').
      * apply cells_step_inv; assumption.
      * rewrite E2. exact HT.
      * destruct (filter below_floor l1) as [| c r] eqn:E;
          [left; reflexivity | right].
        assert (Hv1 : (0 < length (filter below_floor l1))%nat)
          by (rewrite E; simpl; lia).
        pose proof (cells_step_progress T l (cells_gamma T l) Hv1) as Hp.
        fold l1 in Hp.
        destruct Hm as [Hm | Hm]; [rewrite Hm in Hv; simpl in Hv; lia | lia].
      * exists l'. split; [exact Hl' |]. split; [exact Hi' |].
        split; [exact Hf' |]. split; congruence.
    + exists l. split; [reflexivity |]. split; [exact Hi |].
      split; [| split; reflexivity].
      apply Nat.ltb_ge in Hv.
      destruct (filter below_floor l); [reflexivity | simpl in Hv; lia].
Qed.

(** ** The solver from its rows *)

Lemma solve_unfold (rows : list Row) (c : Q) :
  ~ active_targets rows == 0 ->
  ~ of_nat (length (filter active rows)) == 0 ->
  solve rows c =
  (st <- solver_loop ITERATION_LIMIT (map active rows)
                     (length (filter active rows)) (total rows c)
                     (map (chi_of rows c) rows) (map expected_balance rows)
                     {| x_ := map (x0 rows c) rows;
                        mu_ := map (fun _ => 0) rows |} ;;
   Ok (x_ st)).
Proof.
  intros HS HN. unfold solve.
  change (fun r : Row => notnull (buy_security r)) with active.
  change (fun r : Row => match target_perc r with
                         | Some t => t
                         | None => 0
                         end) with tp.
  rewrite !mask_get_map. cbn [bind].
  fold (active_targets rows).
  rewrite (divide_all_ok _ _ HS). cbn [bind].
  rewrite count_true_map.
  rewrite (divide_ok _ _ HN). cbn [bind].
  rewrite !map_map.
  fold (total rows c).
  change (fun x : Row => tp x / active_targets rows * total rows c)
    with (chi_of rows c).
  rewrite mask_get_map. cbn [bind]. rewrite map_map.
  fold (gamma0 rows c).
  rewrite (mask_set_map active expected_balance
             (fun r => chi_of rows c r - (1 # 2) * gamma0 rows c) rows).
  cbn [bind]. reflexivity.
Qed.

Lemma Qsum_map_pos {A : Type} (f : A -> Q) (l : list A) :
  l <> [] -> (forall a, In a l -> 0 < f a) -> 0 < Qsum (map f l).
Proof.
  intros Hne H. destruct l as [| a l]; [congruence |]. clear Hne.
  revert a H. induction l as [| b l IH]; intros a H; simpl.
  - specialize (H a (or_introl eq_refl)). lra.
  - assert (Ha := H a (or_introl eq_refl)).
    assert (Hr : 0 < Qsum (map f (b :: l)))
      by (apply IH; intros d Hd; apply H; right; exact Hd).
    simpl in Hr. lra.
Qed.

Lemma active_targets_nonzero (rows : list Row) :
  (forall r, In r rows -> exists t, target_perc r = Some t /\ 0 < t) ->
  filter active rows <> [] ->
  ~ active_targets rows == 0.
Proof.
  intros Ht Hne. unfold active_targets.
  assert (0 < Qsum (map tp (filter active rows))); [| lra].
  apply Qsum_map_pos; [exact Hne |].
  intros r Hr. apply filter_In in Hr. destruct Hr as [Hr _].
  destruct (Ht r Hr) as (t & E & Hpos). unfold tp. rewrite E. exact Hpos.
Qed.

Lemma active_count_nonzero (rows : list Row) :
  filter active rows <> [] ->
  ~ of_nat (length (filter active rows)) == 0.
Proof.
  intros Hne.
  assert (Hlt : (0 < length (filter active rows))%nat)
    by (destruct (filter active rows); [congruence | simpl; lia]).
  apply of_nat_lt in Hlt. change (of_nat 0) with 0 in Hlt. lra.
Qed.

(** Before the loop the active rows already share out [T] exactly. *)
Lemma x0_sum (rows : list Row) (c : Q) :
  filter active rows <> [] ->
  Qsum (map (x0 rows c) (filter active rows)) == total rows c.
Proof.
  intros Hne.
  rewrite (Qsum_map_ext (x0 rows c)
             (fun r => chi_of rows c r - (1 # 2) * gamma0 rows c)).
  2:{ intros r Hr. apply filter_In in Hr. destruct Hr as [_ Ha].
      unfold x0. rewrite Ha. reflexivity. }
  rewrite Qsum_map_shift. unfold gamma0.
  set (A := Qsum (map (chi_of rows c) (filter active rows))).
  field. apply active_count_nonzero. exact Hne.
Qed.

Lemma cells0_inv (rows : list Row) (c : Q) :
  rows <> [] -> (forall r, In r rows -> active r = true) ->
  cells_inv (total rows c) (map (cell0 rows c) rows).
Proof.
  intros Hne Hall. split.
  - rewrite map_map. cbn [c_x cell0].
    pose proof (x0_sum rows c) as H.
    rewrite (filter_true active rows Hall) in H. apply H. exact Hne.
  - apply Forall_forall. intros c' Hc'. apply in_map_iff in Hc'.
    destruct Hc' as (r & <- & _). right. reflexivity.
Qed.

(** On a full active set the solver is [cells_loop] from [cell0]. *)
Lemma solve_full (rows : list Row) (c : Q) :
  rows <> [] ->
  (forall r, In r rows -> exists t, target_perc r = Some t /\ 0 < t) ->
  (forall r, In r rows -> active r = true) ->
  solve rows c =
  (l' <- cells_loop ITERATION_LIMIT (total rows c) (map (cell0 rows c) rows) ;;
   Ok (map c_x l')).
Proof.
  intros Hne Ht Hall.
  assert (Hf : filter active rows = rows) by (apply filter_true; exact Hall).
  assert (Hne' : filter active rows <> []) by (rewrite Hf; exact Hne).
  rewrite (solve_unfold rows c (active_targets_nonzero rows Ht Hne')
                        (active_count_nonzero rows Hne')).
  set (l := map (cell0 rows c) rows).
  assert (E1 : map active rows = map (fun _ => true) l).
  { unfold l. rewrite map_map. apply map_ext_in. exact Hall. }
  assert (E2 : length (filter active rows) = length l)
    by (unfold l; rewrite Hf, length_map; reflexivity).
  assert (E3 : map (chi_of rows c) rows = map c_chi l)
    by (unfold l; rewrite map_map; reflexivity).
  assert (E4 : map expected_balance rows = map c_ell l)
    by (unfold l; rewrite map_map; reflexivity).
  assert (E5 : {| x_ := map (x0 rows c) rows;
                  mu_ := map (fun _ => 0) rows |} = iterate_of l)
    by (unfold l, iterate_of; rewrite !map_map; reflexivity).
  rewrite E1, E2, E3, E4, E5, solver_loop_cells.
  destruct (cells_loop ITERATION_LIMIT (total rows c) l); reflexivity.
Qed.

Lemma Forall2_map_bound {A B : Type} (f h : A -> Q) (g : B -> Q)
    (l : list A) (rows : list B) :
  map f l = map g rows ->
  (forall a, In a l -> f a <= h a) ->
  Forall2 (fun r v => g r <= v) rows (map h l).
Proof.
  revert rows. induction l as [| a l IH]; intros rows E H;
    destruct rows as [| r rows]; simpl in E; try discriminate.
  - constructor.
  - inversion E. simpl. constructor.
    + rewrite <- H1. apply H. left. reflexivity.
    + apply IH; [assumption |]. intros b Hb. apply H. right. exact Hb.
Qed.

(** The solver on a full active set: it returns, every asset class gets
    its floor at least, and the allocation sums to [T]. *)
Lemma solve_full_feasible (rows : list Row) (c : Q) :
  rows <> [] -> target_rows rows ->
  (forall r, In r rows -> active r = true) ->
  0 <= c ->
  exists x,
    solve rows c = Ok x /\
    length x = length rows /\
    Qsum x == total rows c /\
    Forall2 (fun r v => expected_balance r <= v) rows x.
Proof.
  intros Hne [Ht Hlen] Hall Hc.
  rewrite (solve_full rows c Hne Ht Hall).
  set (l := map (cell0 rows c) rows).
  assert (Hell : map c_ell l = map expected_balance rows)
    by (unfold l; rewrite map_map; reflexivity).
  destruct (cells_loop_feasible ITERATION_LIMIT (total rows c) l)
    as (l' & Hl' & [Hsum _] & Hfeas & El & _).
  - apply cells0_inv; assumption.
  - rewrite Hell. unfold total. rewrite (filter_true active rows Hall). lra.
  - right. unfold free_cells.
    eapply Nat.le_trans; [apply filter_length_le |].
    unfold l. rewrite length_map. exact Hlen.
  - rewrite Hl'. cbn [bind]. exists (map c_x l').
    split; [reflexivity |]. split; [| split; [exact Hsum |]].
    + rewrite length_map.
      rewrite <- (length_map c_ell l'), El, Hell, length_map. reflexivity.
    + apply Forall2_map_bound with (f := c_ell).
      * rewrite El. exact Hell.
      * intros a Ha. apply below_floor_false.
        exact (filter_nil _ _ Hfeas a Ha).
Qed.

(** ** The solver on an empty or partial active set *)

(** Over the rationals every division by zero is an error outcome;
    [F64] tells Python's zero from numpy's. *)
Lemma solve_empty_active_set (rows : list Row) (c : Q) :
  filter active rows = [] -> solve rows c = Raise ZeroDivisionError.
Proof.
  intros H. unfold solve.
  change (fun r : Row => notnull (buy_security r)) with active.
  change (fun r : Row => match target_perc r with
                         | Some t => t
                         | None => 0
                         end) with tp.
  rewrite !mask_get_map. cbn [bind]. rewrite H. cbn [map Qsum].
  destruct rows as [| r rows]; reflexivity.
Qed.

(** C4 fails on the code: on a frame without a row of the target
    portfolio the active set is empty, [N = sum(I)] is Python's integer 0,
    nothing guards the division and [2 / N], in the computation of
    [gamma], raises [ZeroDivisionError]. *)
Theorem empty_active_set_divides_by_zero (table : list Row) :
  filter (fun r => notnull (target_perc r)) table = [] ->
  count_true (map active (filter (fun r => notnull (target_perc r)) table))
    = 0%nat /\
  _identify_buy_amounts table = Raise ZeroDivisionError.
Proof.
  intros H. unfold _identify_buy_amounts. rewrite H.
  split; reflexivity.
Qed.

Lemma empty_active_set_divides_by_zero_witness :
  _identify_buy_amounts Demo.table_nothing_held = Raise ZeroDivisionError.
Proof.
  exact (proj2 (empty_active_set_divides_by_zero Demo.table_nothing_held
                  eq_refl)).
Defined.

Lemma infeasible_rows (rows : list Row) (xf : Row -> Q) :
  infeasible (map active rows) (map expected_balance rows) (map xf rows) =
  Ok (0 <? length (filter (fun r => Qltb (xf r) (expected_balance r))
                          (filter active rows)))%nat.
Proof.
  unfold infeasible. rewrite !mask_get_map. cbn [bind].
  rewrite zip_with_map, count_true_map. reflexivity.
Qed.

(** A pass of the loop on a partial active set: [J] has one entry per
    active row and is used to index arrays that have one entry per row. *)
Lemma solver_step_partial (rows : list Row) (N : nat) (T : Q)
    (chi xf : Row -> Q) (mu : list Q) :
  length (filter active rows) <> length rows ->
  solver_step (map active rows) N T (map chi rows)
              (map expected_balance rows)
              {| x_ := map xf rows; mu_ := mu |} = Raise IndexError.
Proof.
  intros Hlen. unfold solver_step. cbn [x_ mu_].
  rewrite !mask_get_map. cbn [bind]. rewrite zip_with_map.
  unfold mask_fill. rewrite !length_map.
  apply Nat.eqb_neq in Hlen. rewrite Hlen. reflexivity.
Qed.

Lemma solve_partial (rows : list Row) (c : Q) :
  (forall r, In r rows -> exists t, target_perc r = Some t /\ 0 < t) ->
  filter active rows <> [] ->
  length (filter active rows) <> length rows ->
  solve rows c =
  if (0 <? length (filter (fun r => Qltb (x0 rows c r) (expected_balance r))
                          (filter active rows)))%nat
  then Raise IndexError
  else Ok (map (x0 rows c) rows).
Proof.
  intros Ht Hne Hlen.
  rewrite (solve_unfold rows c (active_targets_nonzero rows Ht Hne)
                        (active_count_nonzero rows Hne)).
  change ITERATION_LIMIT with (S 999). cbn [solver_loop x_].
  rewrite infeasible_rows. cbn [bind].
  destruct (0 <? _)%nat; [| reflexivity].
  rewrite solver_step_partial by exact Hlen. reflexivity.
Qed.

(** C1 fails on the code when the active set is a strict subset of the
    target asset classes and a floor binds: with Gold skipped, stocks at
    9000 above their share and 1000 of cash, the first pass of the loop
    stops on an [IndexError], where the same holdings without the skipped
    class are allocated 9000 and 1000. *)
Theorem partial_active_set_raises :
  _identify_buy_amounts Demo.table_gold_skipped = Raise IndexError /\
  exists stocks bonds,
    _identify_buy_amounts Demo.table_two_classes =
      Ok [("Stocks", stocks); ("Bonds", bonds)] /\
    stocks == 0 /\ bonds == 1000.
Proof.
  split.
  - vm_compute. reflexivity.
  - eexists. eexists. split; [vm_compute; reflexivity |].
    split; vm_compute; reflexivity.
Qed.

(** ** Solving again from the allocation returned *)

Lemma cells_loop_ok_inv (cap : nat) (T : Q) (l l' : list Cell) :
  cells_loop cap T l = Ok l' -> cells_inv T l ->
  cells_inv T l' /\ length l' = length l.
Proof.
  revert l. induction cap as [| cap IH]; intros l H Hi.
  - inversion H; subst. auto.
  - cbn [cells_loop] in H.
    destruct (0 <? length (filter below_floor l))%nat;
      [| inversion H; subst; auto].
    destruct (Qeq_bool (free_count l) 0) eqn:Hz; [discriminate |].
    apply Qeq_bool_false in Hz.
    destruct (IH _ H (cells_step_inv T l Hi Hz)) as [Hi' Hl].
    split; [exact Hi' |]. rewrite Hl. apply length_map.
Qed.

Lemma with_floors_map (rows : list Row) (g : Row -> Q) :
  with_floors rows (map g rows) = map (fun r => set_floor r (g r)) rows.
Proof.
  unfold with_floors. induction rows as [| r rows IH]; simpl; [reflexivity |].
  rewrite IH. reflexivity.
Qed.

Lemma with_floors_In (rows : list Row) (x : list Q) (r' : Row) :
  In r' (with_floors rows x) ->
  exists r v, In r rows /\ r' = set_floor r v.
Proof.
  unfold with_floors. revert x.
  induction rows as [| r rows IH]; intros [| v x] H; try destruct H.
  - exists r, v. split; [left; reflexivity | symmetry; assumption].
  - destruct (IH x H) as (r0 & v0 & Hin & E).
    exists r0, v0. split; [right; exact Hin | exact E].
Qed.

Lemma with_floors_length (rows : list Row) (x : list Q) :
  length x = length rows -> length (with_floors rows x) = length rows.
Proof.
  unfold with_floors. revert x.
  induction rows as [| r rows IH]; intros [| v x] H; simpl in *;
    try discriminate; [reflexivity |].
  rewrite IH; [reflexivity | lia].
Qed.

Lemma with_floors_floors (rows : list Row) (x : list Q) :
  length x = length rows -> map expected_balance (with_floors rows x) = x.
Proof.
  unfold with_floors. revert x.
  induction rows as [| r rows IH]; intros [| v x] H; simpl in *;
    try discriminate; [reflexivity |].
  rewrite IH; [reflexivity | lia].
Qed.

Lemma with_floors_target_rows (rows : list Row) (x : list Q) :
  length x = length rows -> target_rows rows ->
  target_rows (with_floors rows x).
Proof.
  intros Hl [Ht Hn]. split.
  - intros r' Hr'. destruct (with_floors_In rows x r' Hr') as (r & v & Hr & ->).
    exact (Ht r Hr).
  - rewrite with_floors_length by exact Hl. exact Hn.
Qed.

Lemma Forall2_floor_map {B : Type} (g : B -> Q) (rows : list B)
    (x : list Q) :
  Forall2 (fun r v => g r <= v) rows x -> Forall2 Qle (map g rows) x.
Proof.
  induction 1; simpl; constructor; assumption.
Qed.

Lemma Forall2_Qle_sum (x x' : list Q) :
  Forall2 Qle x x' -> Qsum x <= Qsum x'.
Proof.
  induction 1; simpl; lra.
Qed.

(** Two allocations, one above the other, with the same sum, agree. *)
Lemma Forall2_squeeze (x x' : list Q) :
  Forall2 Qle x x' -> Qsum x' <= Qsum x -> Forall2 Qeq x' x.
Proof.
  induction 1 as [| a a' x x' Ha Hx IH]; intros Hs; [constructor |].
  simpl in Hs. pose proof (Forall2_Qle_sum x x' Hx) as Hle.
  constructor; [lra |]. apply IH. lra.
Qed.

Lemma solve_again_full (rows : list Row) (c : Q) (x : list Q) :
  rows <> [] -> target_rows rows ->
  (forall r, In r rows -> active r = true) ->
  solve rows c = Ok x ->
  total (with_floors rows x) 0 == total rows c /\
  exists x', solve (with_floors rows x) 0 = Ok x' /\ Forall2 Qeq x' x.
Proof.
  intros Hne Htr Hall H.
  rewrite (solve_full rows c Hne (proj1 Htr) Hall) in H.
  apply bind_ok in H. destruct H as (l' & Hl' & Ex).
  inversion Ex; subst x. clear Ex.
  destruct (cells_loop_ok_inv _ _ _ _ Hl' (cells0_inv rows c Hne Hall))
    as [[Hsum _] Hlen].
  rewrite length_map in Hlen.
  assert (Hlx : length (map c_x l') = length rows)
    by (rewrite length_map; exact Hlen).
  set (rows' := with_floors rows (map c_x l')).
  assert (Hall' : forall r, In r rows' -> active r = true).
  { intros r' Hr'. destruct (with_floors_In _ _ _ Hr') as (r & v & Hr & ->).
    exact (Hall r Hr). }
  assert (Hfl : map expected_balance rows' = map c_x l')
    by (apply with_floors_floors; exact Hlx).
  assert (HT : total rows' 0 == Qsum (map c_x l')).
  { unfold total. rewrite (filter_true active rows' Hall'), Hfl. lra. }
  split; [rewrite HT; exact Hsum |].
  destruct (solve_full_feasible rows' 0) as (x' & Hx' & _ & Hs' & Hge).
  - intros E. apply Hne.
    assert (Hl0 : length rows' = length rows)
      by (apply with_floors_length; exact Hlx).
    rewrite E in Hl0. destruct rows; [reflexivity | discriminate].
  - apply with_floors_target_rows; assumption.
  - exact Hall'.
  - lra.
  - exists x'. split; [exact Hx' |].
    apply Forall2_floor_map in Hge. rewrite Hfl in Hge.
    apply Forall2_squeeze; [exact Hge |]. rewrite Hs', HT. lra.
Qed.

Lemma filter_map_same {A : Type} (p : A -> bool) (f : A -> A) (l : list A) :
  (forall a, p (f a) = p a) -> filter p (map f l) = map f (filter p l).
Proof.
  intros H. induction l as [| a l IH]; simpl; [reflexivity |].
  rewrite H. destruct (p a); simpl; rewrite IH; reflexivity.
Qed.

Lemma filter_none {A : Type} (p : A -> bool) (l : list A) :
  (forall a, In a l -> p a = false) -> filter p l = [].
Proof.
  induction l as [| a l IH]; intros H; simpl; [reflexivity |].
  rewrite (H a (or_introl eq_refl)). apply IH.
  intros b Hb. apply H. right. exact Hb.
Qed.

Lemma Forall2_map_Qeq {A : Type} (f g : A -> Q) (l : list A) :
  (forall a, In a l -> f a == g a) -> Forall2 Qeq (map f l) (map g l).
Proof.
  induction l as [| a l IH]; intros H; simpl; constructor.
  - apply H. left. reflexivity.
  - apply IH. intros b Hb. apply H. right. exact Hb.
Qed.

Lemma solve_again_partial (rows : list Row) (c : Q) (x : list Q) :
  (forall r, In r rows -> exists t, target_perc r = Some t /\ 0 < t) ->
  filter active rows <> [] ->
  length (filter active rows) <> length rows ->
  solve rows c = Ok x ->
  total (with_floors rows x) 0 == total rows c /\
  exists x', solve (with_floors rows x) 0 = Ok x' /\ Forall2 Qeq x' x.
Proof.
  intros Ht Hne Hlen H.
  rewrite (solve_partial rows c Ht Hne Hlen) in H.
  destruct (0 <? _)%nat; [discriminate |].
  inversion H; subst x. clear H.
  rewrite with_floors_map.
  set (upd := fun r => set_floor r (x0 rows c r)).
  set (rows' := map upd rows).
  assert (Hfa : filter active rows' = map upd (filter active rows))
    by (apply filter_map_same; reflexivity).
  assert (HT : total rows' 0 == total rows c).
  { unfold total at 1. rewrite Hfa, map_map.
    change (fun r => expected_balance (upd r)) with (x0 rows c).
    rewrite (x0_sum rows c Hne). lra. }
  assert (HS : active_targets rows' = active_targets rows)
    by (unfold active_targets; rewrite Hfa, map_map; reflexivity).
  assert (Hchi : forall r, chi_of rows' 0 (upd r) == chi_of rows c r).
  { intros r. unfold chi_of. rewrite HS, HT. reflexivity. }
  assert (Hg : gamma0 rows' 0 == gamma0 rows c).
  { unfold gamma0. rewrite Hfa, length_map, map_map.
    rewrite (Qsum_map_ext (fun r => chi_of rows' 0 (upd r)) (chi_of rows c))
      by (intros r _; apply Hchi).
    rewrite HT. reflexivity. }
  assert (Hx0 : forall r, x0 rows' 0 (upd r) == x0 rows c r).
  { intros r. unfold x0 at 1.
    change (active (upd r)) with (active r).
    change (expected_balance (upd r)) with (x0 rows c r).
    destruct (active r) eqn:E; [| reflexivity].
    rewrite Hchi, Hg. unfold x0. rewrite E. reflexivity. }
  split; [exact HT |].
  rewrite (solve_partial rows' 0).
  - rewrite Hfa.
    rewrite (filter_none _ (map upd (filter active rows))).
    + cbn [length Nat.ltb Nat.leb]. eexists. split; [reflexivity |].
      unfold rows'. rewrite map_map. apply Forall2_map_Qeq.
      intros r _. apply Hx0.
    + intros r' Hr'. apply in_map_iff in Hr'. destruct Hr' as (r & <- & _).
      apply Qltb_ge. change (expected_balance (upd r)) with (x0 rows c r).
      rewrite Hx0. apply Qle_refl.
  - intros r' Hr'. apply in_map_iff in Hr'. destruct Hr' as (r & <- & Hr).
    exact (Ht r Hr).
  - rewrite Hfa. intros E. apply Hne. apply map_eq_nil in E. exact E.
  - rewrite Hfa. unfold rows'. rewrite !length_map. exact Hlen.
Qed.

(** In exact arithmetic the solver is idempotent: when it returns an
    allocation [x], running it again with the floors replaced by [x] and
    no further cash (so that the total [T] is the same) returns [x]
    again.  In float64 it is not, as the runs followed below show. *)
Lemma exact_solve_idempotent (rows : list Row) (c : Q) (x : list Q) :
  target_rows rows ->
  solve rows c = Ok x ->
  total (with_floors rows x) 0 == total rows c /\
  exists x', solve (with_floors rows x) 0 = Ok x' /\ Forall2 Qeq x' x.
Proof.
  intros Htr H.
  destruct (filter active rows) as [| r0 rest] eqn:Hne.
  - rewrite (solve_empty_active_set rows c Hne) in H.
    discriminate.
  - assert (Hne' : filter active rows <> []) by (rewrite Hne; discriminate).
    clear Hne.
    destruct (Nat.eq_dec (length (filter active rows)) (length rows))
      as [Hlen | Hlen].
    + apply solve_again_full; try assumption.
      * intros E. subst rows. apply Hne'. reflexivity.
      * apply filter_all. exact Hlen.
    + apply solve_again_partial; try assumption. exact (proj1 Htr).
Qed.

Lemma exact_solve_idempotent_witness :
  exists x x',
    solve Demo.rows_two_classes Demo.cash_two_classes = Ok x /\
    Forall2 Qeq x [9000; 1000] /\
    solve (with_floors Demo.rows_two_classes x) 0 = Ok x' /\
    Forall2 Qeq x' x.
Proof.
  destruct (solve Demo.rows_two_classes Demo.cash_two_classes)
    as [x | e] eqn:E.
  - assert (Htr : target_rows Demo.rows_two_classes).
    { split.
      - intros r [<- | [<- | []]]; eexists; split; reflexivity.
      - vm_compute. lia. }
    destruct (exact_solve_idempotent Demo.rows_two_classes
                Demo.cash_two_classes x Htr E) as (_ & x' & Hx' & Heq).
    exists x, x'. split; [reflexivity |]. split; [| split; assumption].
    vm_compute in E. inversion E; subst x.
    repeat constructor; vm_compute; reflexivity.
  - vm_compute in E. discriminate.
Defined.

(** ** The solver in float64 *)

Section Float64.
Import PrimFloat.
Local Open Scope float_scope.

Lemma gather_nothing {A : Type} (m : list bool) (a : list A) :
  (forall b, In b m -> b = false) -> gather m a = [].
Proof.
  revert a. induction m as [| b m IH]; intros a H; [reflexivity |].
  destruct a as [| v a]; [reflexivity |].
  rewrite (H b (or_introl eq_refl)). cbn [gather].
  apply IH. intros b' Hb'. apply H. right. exact Hb'.
Qed.

Lemma scatter_nothing {A : Type} (m : list bool) (a : list A) :
  (forall b, In b m -> b = false) -> scatter m a [] = a.
Proof.
  revert a. induction m as [| b m IH]; intros a H; [reflexivity |].
  destruct a as [| v a]; [reflexivity |].
  rewrite (H b (or_introl eq_refl)). cbn [scatter].
  rewrite IH; [reflexivity |]. intros b' Hb'. apply H. right. exact Hb'.
Qed.

Lemma count_true_nothing (m : list bool) :
  (forall b, In b m -> b = false) -> count_true m = 0%nat.
Proof.
  intros H. unfold count_true.
  induction m as [| b m IH]; [reflexivity |].
  rewrite (H b (or_introl eq_refl)). cbn [filter id].
  apply IH. intros b' Hb'. apply H. right. exact Hb'.
Qed.

Lemma mask_get_nothing {A : Type} (m : list bool) (a : list A) :
  (forall b, In b m -> b = false) -> length m = length a ->
  mask_get m a = Ok [].
Proof.
  intros H E. unfold mask_get. rewrite E, Nat.eqb_refl.
  rewrite (gather_nothing m a H). reflexivity.
Qed.

Lemma mask_set_nothing {A : Type} (m : list bool) (a : list A) :
  (forall b, In b m -> b = false) -> length m = length a ->
  mask_set m a [] = Ok a.
Proof.
  intros H E. unfold mask_set. rewrite E, Nat.eqb_refl.
  rewrite (count_true_nothing m H). cbn [negb length Nat.eqb].
  rewrite (scatter_nothing m a H). reflexivity.
Qed.

Lemma solver_loop_feasible (cap : nat) (I : list bool) (N : F64.integer)
    (T : float) (chi ell : list float) (st : F64.Iterate) :
  F64.infeasible I ell (F64.x_ st) = Ok false ->
  F64.solver_loop cap I N T chi ell st = Ok st.
Proof.
  intros H. destruct cap as [| cap]; [reflexivity |].
  cbn [F64.solver_loop]. rewrite H. reflexivity.
Qed.

(** The frame without a row of the target portfolio: [N] is Python's 0
    and [2 / N] raises. *)
Lemma solve_no_rows (cash_from_sales : float) :
  F64.solve [] cash_from_sales = Raise ZeroDivisionError.
Proof. reflexivity. Qed.

(** Rows, none of them active: the divisions by zero are numpy's, nothing
    is written to [x] and the loop is not entered. *)
Lemma solve_nothing_active (rows : list F64.Row) (cash_from_sales : float) :
  rows <> [] ->
  (forall r, In r rows -> F64.buy_security r = None) ->
  F64.solve rows cash_from_sales = Ok (map F64.expected_balance rows).
Proof.
  intros Hne Hnone. unfold F64.solve.
  set (I := map (fun r => notnull (F64.buy_security r)) rows).
  assert (HI : forall b, In b I -> b = false).
  { intros b Hb. apply in_map_iff in Hb. destruct Hb as (r & <- & Hr).
    rewrite (Hnone r Hr). reflexivity. }
  assert (HN : F64.sum_mask I = F64.Int64 0).
  { unfold F64.sum_mask. destruct I as [| b I'] eqn:EI.
    - destruct rows; [congruence | discriminate].
    - rewrite (count_true_nothing (b :: I') HI). reflexivity. }
  assert (Hlen : forall (A : Type) (f : F64.Row -> A),
             length I = length (map f rows)).
  { intros A f. unfold I. rewrite !length_map. reflexivity. }
  rewrite (mask_get_nothing I _ HI (Hlen _ _)). cbn [bind].
  rewrite (mask_get_nothing I _ HI (Hlen _ _)). cbn [bind].
  rewrite HN. cbn [F64.true_divide bind].
  rewrite mask_get_nothing;
    [| exact HI | unfold I; rewrite !length_map; reflexivity].
  cbn [bind map].
  rewrite (mask_set_nothing I _ HI (Hlen _ _)). cbn [bind].
  rewrite solver_loop_feasible; [reflexivity |].
  unfold F64.infeasible. cbn [F64.x_].
  rewrite !(mask_get_nothing I _ HI (Hlen _ _)). reflexivity.
Qed.

(** *** Array lengths *)

Lemma gather_length {A : Type} (m : list bool) (a : list A) :
  length m = length a -> length (gather m a) = count_true m.
Proof.
  unfold count_true. revert a.
  induction m as [| b m IH]; intros [| v a] H; simpl in *;
    try discriminate; [reflexivity |].
  injection H as H. unfold id at 1. destruct b; simpl; rewrite IH; auto.
Qed.

Lemma scatter_length {A : Type} (m : list bool) (a vals : list A) :
  length (scatter m a vals) = length a.
Proof.
  revert a vals. induction m as [| b m IH]; intros [| v a] vals;
    try reflexivity.
  cbn [scatter]. destruct b; [destruct vals |]; simpl; rewrite IH;
    reflexivity.
Qed.

Lemma zip_with_length {A B C : Type} (f : A -> B -> C) (a : list A)
    (b : list B) :
  length a = length b -> length (zip_with f a b) = length a.
Proof.
  revert b. induction a as [| v a IH]; intros [| w b] H; simpl in *;
    try discriminate; [reflexivity |].
  injection H as H. rewrite IH; auto.
Qed.

Lemma mask_get_ok {A : Type} (m : list bool) (a : list A) :
  length m = length a ->
  mask_get m a = Ok (gather m a) /\ length (gather m a) = count_true m.
Proof.
  intros H. unfold mask_get. rewrite H, Nat.eqb_refl.
  split; [reflexivity | apply gather_length; exact H].
Qed.

Lemma mask_set_ok {A : Type} (m : list bool) (a vals : list A) :
  length m = length a -> length vals = count_true m ->
  mask_set m a vals = Ok (scatter m a vals).
Proof.
  intros H1 H2. unfold mask_set. rewrite H1, H2, !Nat.eqb_refl.
  reflexivity.
Qed.

Lemma mask_fill_ok {A : Type} (m : list bool) (a : list A) (v : A) :
  length m = length a ->
  exists r, mask_fill m a v = Ok r /\ length r = length a.
Proof.
  intros H. unfold mask_fill. rewrite H, Nat.eqb_refl.
  eexists. split; [reflexivity |].
  rewrite length_map, length_combine, H. apply Nat.min_id.
Qed.

Lemma count_true_all (m : list bool) :
  (forall b, In b m -> b = true) -> count_true m = length m.
Proof.
  intros H. unfold count_true.
  induction m as [| b m IH]; [reflexivity |].
  rewrite (H b (or_introl eq_refl)). cbn [filter id length].
  rewrite IH; [reflexivity |]. intros b' Hb'. apply H. right. exact Hb'.
Qed.

(** *** The passes of the loop on a full active set *)

(** A pass on arrays with one entry per row, all rows active: no index is
    out of range and the zero that the division may meet is numpy's. *)
Lemma solver_step_full (I : list bool) (k : Z) (T : float)
    (chi ell : list float) (st : F64.Iterate) :
  (forall b, In b I -> b = true) ->
  length chi = length I -> length ell = length I ->
  length (F64.x_ st) = length I -> length (F64.mu_ st) = length I ->
  exists st',
    F64.solver_step I (F64.Int64 k) T chi ell st = Ok st' /\
    length (F64.x_ st') = length I /\ length (F64.mu_ st') = length I.
Proof.
  intros HI Hchi Hell Hx Hmu. unfold F64.solver_step.
  pose proof (count_true_all I HI) as HcI.
  destruct (mask_get_ok I (F64.x_ st) (eq_sym Hx)) as [E1 L1].
  destruct (mask_get_ok I ell (eq_sym Hell)) as [E2 L2].
  rewrite E1, E2. cbn [bind].
  set (J := zip_with leb (gather I (F64.x_ st)) (gather I ell)).
  assert (HJ : length J = length I).
  { unfold J. rewrite zip_with_length; lia. }
  destruct (mask_fill_ok J I false HJ) as (Imj & E3 & L3).
  rewrite E3. cbn [bind].
  assert (Ed : exists d, F64.true_divide 2
                           (F64.minus (F64.Int64 k) (F64.sum_mask J)) = Ok d).
  { destruct (F64.sum_mask J); eexists; reflexivity. }
  destruct Ed as (d & Ed). rewrite Ed. cbn [bind].
  destruct (mask_get_ok Imj chi) as [E4 _]; [lia |].
  destruct (mask_get_ok J ell) as [E5 L5]; [lia |].
  destruct (mask_get_ok J chi) as [E6 L6]; [lia |].
  rewrite E4, E5. cbn [bind]. rewrite E6. cbn [bind].
  rewrite mask_set_ok;
    [| lia | rewrite !length_map, zip_with_length; lia].
  cbn [bind].
  set (mu := scatter J (F64.mu_ st) _).
  assert (Lmu : length mu = length I).
  { unfold mu. rewrite scatter_length. exact Hmu. }
  destruct (mask_get_ok I chi (eq_sym Hchi)) as [E7 L7].
  destruct (mask_get_ok I mu (eq_sym Lmu)) as [E8 L8].
  rewrite E7, E8. cbn [bind].
  rewrite mask_set_ok;
    [| lia | rewrite zip_with_length; rewrite ?length_map; lia].
  cbn [bind]. eexists. split; [reflexivity |].
  cbn [F64.x_ F64.mu_]. rewrite scatter_length. split; [exact Hx | exact Lmu].
Qed.

Lemma infeasible_ok (I : list bool) (ell x : list float) :
  length ell = length I -> length x = length I ->
  exists b, F64.infeasible I ell x = Ok b.
Proof.
  intros Hell Hx. unfold F64.infeasible.
  destruct (mask_get_ok I x (eq_sym Hx)) as [E1 _].
  destruct (mask_get_ok I ell (eq_sym Hell)) as [E2 _].
  rewrite E1, E2. eexists. reflexivity.
Qed.

(** The loop ends, after [cap] passes at the latest, with arrays of the
    same length. *)
Lemma solver_loop_full (cap : nat) (I : list bool) (k : Z) (T : float)
    (chi ell : list float) (st : F64.Iterate) :
  (forall b, In b I -> b = true) ->
  length chi = length I -> length ell = length I ->
  length (F64.x_ st) = length I -> length (F64.mu_ st) = length I ->
  exists st',
    F64.solver_loop cap I (F64.Int64 k) T chi ell st = Ok st' /\
    length (F64.x_ st') = length I.
Proof.
  intros HI Hchi Hell. revert st.
  induction cap as [| cap IH]; intros st Hx Hmu.
  - exists st. split; [reflexivity | exact Hx].
  - cbn [F64.solver_loop].
    destruct (infeasible_ok I ell (F64.x_ st) Hell Hx) as ([|] & E);
      rewrite E; cbn [bind].
    + destruct (solver_step_full I k T chi ell st HI Hchi Hell Hx Hmu)
        as (st1 & E1 & Hx1 & Hmu1).
      rewrite E1. cbn [bind]. exact (IH st1 Hx1 Hmu1).
    + exists st. split; [reflexivity | exact Hx].
Qed.

(** *** The solver from its rows *)

Lemma sum_mask_rows (rows : list F64.Row) :
  rows <> [] ->
  F64.sum_mask (map F64.active rows) =
  F64.Int64 (Z.of_nat (length (filter F64.active rows))).
Proof.
  intros Hne. destruct rows as [| r rows]; [congruence |].
  unfold F64.sum_mask. cbn [map]. rewrite <- count_true_map. reflexivity.
Qed.

Lemma float_solve_unfold (rows : list F64.Row) (c : float) :
  rows <> [] ->
  F64.solve rows c =
  (st <- F64.solver_loop ITERATION_LIMIT (map F64.active rows)
           (F64.Int64 (Z.of_nat (length (filter F64.active rows))))
           (F64.total rows c)
           (map (F64.chi_of rows c) rows) (map F64.expected_balance rows)
           {| F64.x_ := map (F64.x0 rows c) rows;
              F64.mu_ := map (fun _ => 0) rows |} ;;
   Ok (F64.x_ st)).
Proof.
  intros Hne. unfold F64.solve.
  change (fun r : F64.Row => notnull (F64.buy_security r)) with F64.active.
  rewrite !mask_get_map. cbn [bind].
  rewrite (sum_mask_rows rows Hne). cbn [F64.true_divide bind].
  fold (F64.total rows c). rewrite !map_map.
  change (fun x : F64.Row =>
            F64.target_perc x
            / F64.fsum (map F64.target_perc (filter F64.active rows))
            * F64.total rows c)
    with (F64.chi_of rows c).
  rewrite mask_get_map. cbn [bind]. rewrite map_map.
  fold (F64.gamma0 rows c).
  rewrite (mask_set_map F64.active F64.expected_balance
             (fun r => F64.chi_of rows c r - 0.5 * F64.gamma0 rows c) rows).
  cbn [bind]. reflexivity.
Qed.

Lemma float_infeasible_rows (rows : list F64.Row) (xf : F64.Row -> float) :
  F64.infeasible (map F64.active rows) (map F64.expected_balance rows)
                 (map xf rows) =
  Ok (0 <? length (filter (fun r => ltb (xf r) (F64.expected_balance r))
                          (filter F64.active rows)))%nat.
Proof.
  unfold F64.infeasible. rewrite !mask_get_map. cbn [bind].
  rewrite zip_with_map, count_true_map. reflexivity.
Qed.

Lemma float_solver_step_partial (rows : list F64.Row) (N : F64.integer)
    (T : float) (chi xf : F64.Row -> float) (mu : list float) :
  length (filter F64.active rows) <> length rows ->
  F64.solver_step (map F64.active rows) N T (map chi rows)
                  (map F64.expected_balance rows)
                  {| F64.x_ := map xf rows; F64.mu_ := mu |} =
  Raise IndexError.
Proof.
  intros Hlen. unfold F64.solver_step. cbn [F64.x_ F64.mu_].
  rewrite !mask_get_map. cbn [bind]. rewrite zip_with_map.
  unfold mask_fill. rewrite !length_map.
  apply Nat.eqb_neq in Hlen. rewrite Hlen. reflexivity.
Qed.

(** C8 fails on the code: three asset classes with targets 10, 45 and 45,
    balances 2058, 58 and 1324 and 1418 of cash.  The solver returns the
    allocation 2058.0000000000005, 1400, 1400, whose sum is the total
    4858.  Run again with this allocation for floors and no cash (the
    same total), it returns 4416.300000000001, 1400, 1400: the first
    asset class has moved by 2358.3 and the allocation now sums to
    7216.3.  The same happens from targets 60, 30 and 10, balances 0, 426
    and 2095 and 985 of cash. *)
#[warnings="-inexact-float"]
Theorem solving_again_moves_the_allocation :
  let rows := F64.rows 10 45 45 2058 58 1324 in
  let x := [2058.0000000000005; 1400; 1400] in
  let x' := [4416.300000000001; 1400; 1400] in
  let rows2 := F64.rows 60 30 10 0 426 2095 in
  let y := [984.9999999999995; 426; 2095] in
  let y' := [2416.4999999999995; 426; 3280.1000000000004] in
  (F64.solve rows 1418 = Ok x /\
   F64.total rows 1418 = 4858 /\
   F64.total (F64.with_floors rows x) 0 = 4858 /\
   F64.solve (F64.with_floors rows x) 0 = Ok x' /\
   x' <> x) /\
  (F64.solve rows2 985 = Ok y /\
   F64.solve (F64.with_floors rows2 y) 0 = Ok y' /\
   y' <> y).
Proof.
  repeat split; try (vm_compute; reflexivity);
    intros H;
    apply (f_equal (fun l => match l with
                             | v :: _ => ltb v 2200
                             | [] => false
                             end)) in H;
    vm_compute in H; discriminate.
Qed.

(** X25: The float64 solver does not keep to the total it shares out.  With
    targets 50, 30 and 20, balances 38, 1643 and 1984 and 346 of cash
    (total 4011, every asset class with a buy security), the allocation
    returned is 1785.65, 1643, 3385.65, which sums to 6814.3: the target
    buys are 1747.65, 0 and 1401.65, nine times the cash.  The second
    pass takes the third asset class, which the first pass brought back
    to its floor within one rounding error, for a free one and keeps the
    multiplier of the first pass for it. *)
#[warnings="-inexact-float"]
Theorem float_solver_overshoots_the_total :
  let rows := F64.rows 50 30 20 38 1643 1984 in
  let x := [1785.65; 1643; 3385.6500000000005] in
  F64.total rows 346 = 4011 /\
  F64.solve rows 346 = Ok x /\
  F64.fsum x = 6814.300000000001 /\
  F64.target_buys rows x =
    [("Stocks", 1747.65); ("Bonds", 0);
     ("Real Estate", 1401.6500000000005)].
Proof.
  repeat split; vm_compute; reflexivity.
Qed.

(** X26: An empty active set in float64.  On a frame without a row of the
    target portfolio [N] is Python's integer 0 and [2 / N] raises
    [ZeroDivisionError]; on rows of which none has a buy security the
    zeros are numpy's, the divisions give inf or nan, no entry of [x] is
    written and the solver returns the floors: every target buy is the
    floor minus itself. *)
Theorem empty_active_set_in_float64 (rows : list F64.Row)
    (cash_from_sales : float) :
  (forall r, In r rows -> F64.buy_security r = None) ->
  F64.solve rows cash_from_sales =
    match rows with
    | [] => Raise ZeroDivisionError
    | _ :: _ => Ok (map F64.expected_balance rows)
    end.
Proof.
  intros Hnone. destruct rows as [| r rows'] eqn:E.
  - apply solve_no_rows.
  - apply solve_nothing_active; [discriminate | exact Hnone].
Qed.

Lemma empty_active_set_in_float64_witness :
  F64.solve [ {| F64.index := "Stocks"; F64.target_perc := 60;
                 F64.expected_balance := 9000;
                 F64.buy_security := None |};
              {| F64.index := "Bonds"; F64.target_perc := 40;
                 F64.expected_balance := 500;
                 F64.buy_security := None |} ] 1000 = Ok [9000; 500].
Proof.
  apply (empty_active_set_in_float64
           [ {| F64.index := "Stocks"; F64.target_perc := 60;
                F64.expected_balance := 9000;
                F64.buy_security := None |};
             {| F64.index := "Bonds"; F64.target_perc := 40;
                F64.expected_balance := 500;
                F64.buy_security := None |} ] 1000).
  intros r [<- | [<- | []]]; reflexivity.
Defined.

(** X28: The exceptions of the float64 solver on a frame with rows of the
    target portfolio.  When every row has a buy security the solver
    returns, after 1000 passes at the latest, an array with one entry per
    row, whatever the numbers are.  When some row has none, the solver
    returns the allocation computed before the loop if no active row is
    below its floor there, and raises [IndexError] in the first pass
    otherwise. *)
Theorem float_solver_outcomes (rows : list F64.Row)
    (cash_from_sales : float) :
  rows <> [] ->
  (length (filter F64.active rows) = length rows ->
   exists x, F64.solve rows cash_from_sales = Ok x /\
             length x = length rows) /\
  (length (filter F64.active rows) <> length rows ->
   F64.solve rows cash_from_sales =
   if existsb (fun r => ltb (F64.x0 rows cash_from_sales r)
                            (F64.expected_balance r))
              (filter F64.active rows)
   then Raise IndexError
   else Ok (map (F64.x0 rows cash_from_sales) rows)).
Proof.
  intros Hne. rewrite (float_solve_unfold rows cash_from_sales Hne). split.
  - intros Hlen.
    destruct (solver_loop_full ITERATION_LIMIT (map F64.active rows)
                (Z.of_nat (length (filter F64.active rows)))
                (F64.total rows cash_from_sales)
                (map (F64.chi_of rows cash_from_sales) rows)
                (map F64.expected_balance rows)
                {| F64.x_ := map (F64.x0 rows cash_from_sales) rows;
                   F64.mu_ := map (fun _ => 0) rows |})
      as (st & E & L).
    + intros b Hb. apply in_map_iff in Hb. destruct Hb as (r & <- & Hr).
      exact (filter_all F64.active rows Hlen r Hr).
    + rewrite !length_map. reflexivity.
    + rewrite !length_map. reflexivity.
    + cbn [F64.x_]. rewrite !length_map. reflexivity.
    + cbn [F64.mu_]. rewrite !length_map. reflexivity.
    + rewrite E. cbn [bind]. exists (F64.x_ st).
      split; [reflexivity |]. rewrite L, length_map. reflexivity.
  - intros Hlen. change ITERATION_LIMIT with (S 999).
    cbn [F64.solver_loop F64.x_]. rewrite float_infeasible_rows. cbn [bind].
    set (below := fun r => ltb (F64.x0 rows cash_from_sales r)
                               (F64.expected_balance r)).
    assert (Hb : forall l, (0 <? length (filter below l))%nat =
                           existsb below l).
    { intros l. induction l as [| r l IH]; [reflexivity |].
      cbn [filter existsb]. destruct (below r); [reflexivity | exact IH]. }
    rewrite Hb. destruct (existsb below (filter F64.active rows));
      [| reflexivity].
    rewrite float_solver_step_partial by exact Hlen. reflexivity.
Qed.

Lemma float_solver_outcomes_witness :
  F64.solve [ {| F64.index := "Stocks"; F64.target_perc := 60;
                 F64.expected_balance := 9000;
                 F64.buy_security := Some "VOO" |};
              {| F64.index := "Bonds"; F64.target_perc := 30;
                 F64.expected_balance := 0;
                 F64.buy_security := Some "MUB" |};
              {| F64.index := "Gold"; F64.target_perc := 10;
                 F64.expected_balance := 500;
                 F64.buy_security := None |} ] 1000 = Raise IndexError.
Proof.
  destruct (float_solver_outcomes
              [ {| F64.index := "Stocks"; F64.target_perc := 60;
                   F64.expected_balance := 9000;
                   F64.buy_security := Some "VOO" |};
                {| F64.index := "Bonds"; F64.target_perc := 30;
                   F64.expected_balance := 0;
                   F64.buy_security := Some "MUB" |};
                {| F64.index := "Gold"; F64.target_perc := 10;
                   F64.expected_balance := 500;
                   F64.buy_security := None |} ] 1000) as [_ H].
  - discriminate.
  - rewrite H; [reflexivity | simpl; lia].
Defined.

End Float64.

(** * Further properties *)

(** ** The allocation solver *)



















(** ** The target model *)

Lemma add_assetclass_ok (p p' : TargetPortfolio) (t : Q) (n : string)
    (secs : list string) (bs : list (option Q)) :
  add_assetclass p t n secs bs = Ok p' ->
  exists a,
    _validated p = false /\
    TargetAssetclass_init t n secs bs = Ok a /\
    ~ In n (keys (_target_assetclasses p)) /\
    p' = {| _validated := false;
            _target_assetclasses := _target_assetclasses p ++ [(n, a)] |}.
Proof.
  unfold add_assetclass. intros H.
  apply bind_ok in H. destruct H as ([] & Hv & H).
  apply bind_ok in H. destruct H as (a & Ha & H).
  apply bind_ok in H. destruct H as ([] & Hn & H).
  apply assert_ok, negb_true_iff in Hv.
  apply assert_ok, negb_true_iff, mem_false_In in Hn.
  exists a. repeat split; try assumption.
  inversion H. rewrite Hv. reflexivity.
Qed.

Lemma lookup_app_last {V : Type} (k : string) (d : list (string * V)) (v : V) :
  ~ In k (keys d) -> lookup k (d ++ [(k, v)]) = Some v.
Proof.
  induction d as [| [k' v'] d IH]; intros H; simpl.
  - rewrite String.eqb_refl. reflexivity.
  - destruct (String.eqb k k') eqn:E.
    + apply String.eqb_eq in E. subst k'. exfalso. apply H. left. reflexivity.
    + apply IH. intros Hin. apply H. right. exact Hin.
Qed.

(** X6: [add_assetclass] keeps the names of the asset classes distinct: a
    successful call appends the new asset class under a name that was not
    in use, leaves the portfolio unvalidated, and a later call under the
    same name can only fail. *)
Theorem add_assetclass_keeps_names_distinct (p p' : TargetPortfolio)
    (t : Q) (n : string) (secs : list string) (bs : list (option Q)) :
  NoDup (keys (_target_assetclasses p)) ->
  add_assetclass p t n secs bs = Ok p' ->
  NoDup (keys (_target_assetclasses p')) /\
  _validated p' = false /\
  (exists a, TargetAssetclass_init t n secs bs = Ok a /\
             _target_assetclasses p' = _target_assetclasses p ++ [(n, a)] /\
             lookup n (_target_assetclasses p') = Some a) /\
  forall t' secs' bs',
    exists e, add_assetclass p' t' n secs' bs' = Raise e.
Proof.
  intros Hnd H. apply add_assetclass_ok in H.
  destruct H as (a & Hv & Ha & Hn & ->). cbn [_target_assetclasses _validated].
  split; [| split; [reflexivity | split]].
  - unfold keys. rewrite map_app. cbn [map fst].
    apply NoDup_app_remove_l with (l := []). simpl.
    apply Permutation_NoDup with (l := n :: map fst (_target_assetclasses p)).
    + apply Permutation_cons_append.
    + constructor; assumption.
  - exists a. split; [exact Ha |]. split; [reflexivity |].
    apply lookup_app_last. exact Hn.
  - intros t' secs' bs'. unfold add_assetclass. cbn [_validated negb assert bind
                                                     _target_assetclasses].
    destruct (TargetAssetclass_init t' n secs' bs') as [a' | e];
      cbn [bind]; [| exists e; reflexivity].
    assert (Hm : mem n (keys (_target_assetclasses p ++ [(n, a)])) = true).
    { apply mem_In. unfold keys. rewrite map_app. apply in_or_app.
      right. left. reflexivity. }
    rewrite Hm. cbn [negb assert bind]. exists AssertionError. reflexivity.
Qed.

Lemma add_assetclass_keeps_names_distinct_witness :
  exists p',
    add_assetclass TargetPortfolio_init 60 "Stocks" ["ivv"; "voo"]
                   [Some 1; Some 2] = Ok p' /\
    NoDup (keys (_target_assetclasses p')) /\
    exists e, add_assetclass p' 40 "Stocks" ["mub"] [Some 1] = Raise e.
Proof.
  destruct (add_assetclass TargetPortfolio_init 60 "Stocks" ["ivv"; "voo"]
                           [Some 1; Some 2]) as [p' | e] eqn:E.
  - destruct (add_assetclass_keeps_names_distinct TargetPortfolio_init p'
                60 "Stocks" ["ivv"; "voo"] [Some 1; Some 2])
      as (Hnd & _ & _ & Hagain).
    + constructor.
    + exact E.
    + exists p'. split; [reflexivity |]. split; [exact Hnd |].
      apply Hagain.
  - vm_compute in E. discriminate.
Defined.

(** *** The tiers of an accepted asset class *)

Lemma insert_unique_InQ (q x : Q) (l : list Q) :
  InQ x (insert_unique q l) <-> x == q \/ InQ x l.
Proof.
  unfold InQ. induction l as [| a l IH]; simpl.
  - split.
    + intros (y & [Hy | []] & E). subst y. left. symmetry. exact E.
    + intros [E | (y & [] & _)]. exists q. split; [left; reflexivity |].
      symmetry. exact E.
  - destruct (Qeq_bool q a) eqn:Eqa.
    + apply Qeq_bool_iff in Eqa. split.
      * intros H. right. exact H.
      * intros [E | H]; [| exact H].
        exists a. split; [left; reflexivity |]. rewrite E. symmetry. exact Eqa.
    + destruct (Qle_bool q a) eqn:Ele.
      * split.
        -- intros (y & [Hy | Hy] & E).
           ++ subst y. left. symmetry. exact E.
           ++ right. exists y. split; assumption.
        -- intros [E | (y & Hy & E)].
           ++ exists q. split; [left; reflexivity | symmetry; exact E].
           ++ exists y. split; [right; exact Hy | exact E].
      * split.
        -- intros (y & [Hy | Hy] & E).
           ++ subst y. right. exists a. split; [left; reflexivity | exact E].
           ++ destruct (proj1 IH) as [H | (z & Hz & Ez)].
              { exists y. split; assumption. }
              { left. exact H. }
              { right. exists z. split; [right; exact Hz | exact Ez]. }
        -- intros [E | (y & [Hy | Hy] & E)].
           ++ destruct (proj2 IH (or_introl E)) as (z & Hz & Ez).
              exists z. split; [right; exact Hz | exact Ez].
           ++ subst y. exists a. split; [left; reflexivity | exact E].
           ++ destruct (proj2 IH) as (z & Hz & Ez).
              { right. exists y. split; assumption. }
              exists z. split; [right; exact Hz | exact Ez].
Qed.

Lemma unique_scores_InQ (x : Q) (bs : list (option Q)) :
  InQ x (unique_scores bs) <-> exists q, In (Some q) bs /\ q == x.
Proof.
  induction bs as [| [q |] bs IH]; simpl.
  - split; [intros (y & [] & _) | intros (q & [] & _)].
  - rewrite insert_unique_InQ, IH. split.
    + intros [E | (q' & Hq' & E)].
      * exists q. split; [left; reflexivity | symmetry; exact E].
      * exists q'. split; [right; exact Hq' | exact E].
    + intros (q' & [Hq' | Hq'] & E).
      * inversion Hq'; subst. left. symmetry. exact E.
      * right. exists q'. split; assumption.
  - rewrite IH. split.
    + intros (q' & Hq' & E). exists q'. split; [right; exact Hq' | exact E].
    + intros (q' & [Hq' | Hq'] & E); [discriminate |].
      exists q'. split; assumption.
Qed.

(** In a list that passes the test of consecutiveness every entry is the
    first one plus a natural number, and all values in between occur. *)
Lemma consecutive_range (a : Q) (u : list Q) :
  consecutive (a :: u) = true ->
  forall x, In x (a :: u) ->
  exists k : nat,
    x == a + of_nat k /\
    forall j : nat, (j <= k)%nat -> InQ (a + of_nat j) (a :: u).
Proof.
  revert a. induction u as [| b u IH]; intros a Hc x Hx.
  - destruct Hx as [Hx | []]. subst x. exists 0%nat. change (of_nat 0) with 0.
    split; [lra |]. intros j Hj. assert (j = 0%nat) as -> by lia.
    exists a. split; [left; reflexivity |]. change (of_nat 0) with 0. lra.
  - cbn [consecutive] in Hc. apply andb_true_iff in Hc.
    destruct Hc as [Hab Hc]. apply Qeq_bool_iff in Hab.
    assert (Ha : InQ (a + of_nat 0) (a :: b :: u)).
    { exists a. split; [left; reflexivity |]. change (of_nat 0) with 0. lra. }
    destruct Hx as [Hx | Hx].
    + subst x. exists 0%nat. change (of_nat 0) with 0. split; [lra |].
      intros j Hj. assert (j = 0%nat) as -> by lia. exact Ha.
    + destruct (IH b Hc x Hx) as (k & Ek & Hall).
      exists (S k). split.
      * rewrite Ek. unfold of_nat. rewrite Nat2Z.inj_succ.
        unfold Z.succ. rewrite inject_Z_plus. change (inject_Z 1) with 1. lra.
      * intros [| j] Hj; [exact Ha |].
        destruct (Hall j) as (y & Hy & Ey); [lia |].
        exists y. split; [right; exact Hy |].
        rewrite Ey. unfold of_nat. rewrite Nat2Z.inj_succ.
        unfold Z.succ. rewrite inject_Z_plus. change (inject_Z 1) with 1. lra.
Qed.

Lemma combine_In_r {A B : Type} (l1 : list A) (l2 : list B) (y : B) :
  length l1 = length l2 -> In y l2 -> exists x, In (x, y) (combine l1 l2).
Proof.
  revert l2. induction l1 as [| x l1 IH]; intros [| z l2] Hlen Hy;
    try discriminate; [destruct Hy |].
  simpl in Hlen. destruct Hy as [-> | Hy].
  - exists x. left. reflexivity.
  - destruct (IH l2) as (x' & Hx'); [lia | exact Hy |].
    exists x'. right. exact Hx'.
Qed.

Lemma combine_filter_all {A B : Type} (l1 : list A) (l2 : list B) :
  length l1 = length l2 ->
  map fst (filter (fun _ => true) (combine l1 l2)) = l1.
Proof.
  revert l2. induction l1 as [| x l1 IH]; intros [| z l2] Hlen;
    try discriminate; [reflexivity |].
  simpl. f_equal. apply IH. simpl in Hlen. lia.
Qed.

(** The numeric scores of an accepted asset class are the integers
    1, ..., m for some m: every score is an integer of at least 1 and every
    integer between 1 and a score that occurs is the score of a security. *)
Lemma accepted_scores_range (t : Q) (n : string) (secs : list string)
    (bs : list (option Q)) (a : TargetAssetclass) :
  TargetAssetclass_init t n secs bs = Ok a ->
  forall q, In (Some q) bs ->
  exists b : Z,
    (1 <= b)%Z /\ q == inject_Z b /\
    forall b', (1 <= b' <= b)%Z -> securities a (Some b') <> [].
Proof.
  intros Hinit q Hq.
  apply TargetAssetclass_init_ok in Hinit.
  destruct Hinit as (_ & _ & Hlen & _ & Hge & Hone & Hcons & _ & ->).
  apply Nat.eqb_eq in Hlen.
  (* the sorted list of scores is not empty *)
  assert (HqU : InQ q (unique_scores bs)).
  { apply unique_scores_InQ. exists q. split; [exact Hq | reflexivity]. }
  destruct (unique_scores bs) as [| h u] eqn:EU.
  { destruct HqU as (y & [] & _). }
  (* all scores are at least 1 *)
  assert (Hall1 : forall x, InQ x (h :: u) -> 1 <= x).
  { intros x Hx. rewrite <- EU in Hx. apply unique_scores_InQ in Hx.
    destruct Hx as (q' & Hq' & E).
    rewrite forallb_forall in Hge. specialize (Hge _ Hq'). simpl in Hge.
    apply Qle_bool_iff in Hge. lra. }
  (* the first one is 1 *)
  assert (Hh : h == 1).
  { apply existsb_exists in Hone. destruct Hone as ([q1 |] & Hq1 & E1);
      [| discriminate].
    simpl in E1. apply Qeq_bool_iff in E1.
    assert (H1U : InQ 1 (h :: u)).
    { rewrite <- EU. apply unique_scores_InQ. exists q1. split; assumption. }
    destruct H1U as (y & Hy & Ey).
    destruct (consecutive_range h u Hcons y Hy) as (k & Ek & _).
    assert (0 <= of_nat k).
    { unfold of_nat. change 0 with (inject_Z 0). rewrite <- Zle_Qle. lia. }
    assert (1 <= h).
    { apply Hall1. exists h. split; [left; reflexivity | reflexivity]. }
    lra. }
  destruct HqU as (y & Hy & Ey).
  destruct (consecutive_range h u Hcons y Hy) as (k & Ek & Hbetween).
  exists (1 + Z.of_nat k)%Z. split; [lia |]. split.
  { rewrite <- Ey, Ek, Hh, inject_Z_plus. reflexivity. }
  intros b' Hb'.
  destruct (Hbetween (Z.to_nat (b' - 1))) as (z & Hz & Ez); [lia |].
  assert (HzU : InQ (inject_Z b') (unique_scores bs)).
  { rewrite EU. exists z. split; [exact Hz |]. rewrite Ez, Hh.
    unfold of_nat. rewrite Z2Nat.id by lia.
    change 1 with (inject_Z 1). rewrite <- inject_Z_plus.
    replace (1 + (b' - 1))%Z with b' by lia. reflexivity. }
  apply unique_scores_InQ in HzU. destruct HzU as (q' & Hq' & E').
  destruct (combine_In_r (map upper secs) bs (Some q')) as (s & Hs).
  { rewrite length_map. symmetry. exact Hlen. }
  { exact Hq'. }
  intros Hnil.
  assert (Hin : In s (securities {| target := t; name := n;
                                    _securities := map upper secs;
                                    _badness_scores := bs |} (Some b'))).
  { apply securities_In. exists q'. split; [exact Hs | exact E']. }
  rewrite Hnil in Hin. destruct Hin.
Qed.

Lemma accepted_class_tiers (t : Q) (n : string)
    (secs : list string) (bs : list (option Q)) (a : TargetAssetclass) :
  TargetAssetclass_init t n secs bs = Ok a ->
  securities a None = map upper secs /\
  securities a (Some 1%Z) <> [] /\
  forall s q,
    In (s, Some q) (combine (_securities a) (_badness_scores a)) ->
    exists b : Z,
      (1 <= b)%Z /\ q == inject_Z b /\
      In s (securities a (Some b)) /\
      forall b', (1 <= b' <= b)%Z -> securities a (Some b') <> [].
Proof.
  intros Hinit.
  pose proof (accepted_scores_range _ _ _ _ _ Hinit) as Hrange.
  pose proof Hinit as Hi.
  apply TargetAssetclass_init_ok in Hi.
  destruct Hi as (_ & _ & Hlen & _ & _ & Hone & _ & _ & Ea).
  apply Nat.eqb_eq in Hlen.
  split; [| split].
  - subst a. unfold securities. cbn [_securities _badness_scores].
    apply combine_filter_all. rewrite length_map. symmetry. exact Hlen.
  - apply existsb_exists in Hone. destruct Hone as ([q1 |] & Hq1 & E1);
      [| discriminate].
    simpl in E1. apply Qeq_bool_iff in E1.
    destruct (Hrange q1 Hq1) as (b & Hb & Eb & Hall).
    apply Hall. lia.
  - intros s q Hin.
    assert (Hq : In (Some q) bs).
    { subst a. cbn [_securities _badness_scores] in Hin.
      apply in_combine_r in Hin. exact Hin. }
    destruct (Hrange q Hq) as (b & Hb & Eb & Hall).
    exists b. split; [exact Hb |]. split; [exact Eb |].
    split; [| exact Hall].
    apply securities_In. exists q. split; [exact Hin | exact Eb].
Qed.

(** X7: The constructor of [TargetAssetclass] leaves no gap between the tiers:
    in an accepted asset class [securities()] returns the upper-cased
    tickers in the order given, every security with a numeric badness score
    sits in a tier [b >= 1], and all the tiers from 1 to [b] are inhabited. *)
Theorem accepted_class_has_contiguous_tiers (t : Q) (n : string)
    (secs : list string) (bs : list (option Q)) (a : TargetAssetclass) :
  TargetAssetclass_init t n secs bs = Ok a ->
  securities a None = map upper secs /\
  securities a (Some 1%Z) <> [] /\
  forall s q,
    In (s, Some q) (combine (_securities a) (_badness_scores a)) ->
    exists b : Z,
      (1 <= b)%Z /\ q == inject_Z b /\
      In s (securities a (Some b)) /\
      forall b', (1 <= b' <= b)%Z -> securities a (Some b') <> [].
Proof.
  exact (accepted_class_tiers t n secs bs a).
Qed.

Lemma accepted_class_has_contiguous_tiers_witness :
  exists a,
    TargetAssetclass_init 60 "Stocks" ["ivv"; "voo"; "spy"]
                          [Some 2; None; Some 1] = Ok a /\
    securities a None = ["IVV"; "VOO"; "SPY"] /\
    securities a (Some 1%Z) <> [].
Proof.
  destruct (TargetAssetclass_init 60 "Stocks" ["ivv"; "voo"; "spy"]
                                  [Some 2; None; Some 1]) as [a | e] eqn:E.
  - destruct (accepted_class_has_contiguous_tiers _ _ _ _ _ E)
      as (Hall & Hone & _).
    exists a. split; [reflexivity |]. split; [exact Hall | exact Hone].
  - vm_compute in E. discriminate.
Defined.

(** *** Looking a security up *)

Lemma find_in_first (s : string) (l1 l2 : list (string * TargetAssetclass))
    (n : string) (a : TargetAssetclass) :
  (forall n' a', In (n', a') l1 -> ~ In s (securities a' None)) ->
  In s (securities a None) ->
  find_in s (l1 ++ (n, a) :: l2) =
  {| assetclass := n;
     badness := badness_at s (securities a None) (badness_scores a) |}.
Proof.
  induction l1 as [| [n' a'] l1 IH]; intros Hnot Hin; simpl.
  - apply mem_In in Hin. rewrite Hin. reflexivity.
  - assert (Hm : mem s (securities a' None) = false).
    { apply mem_false_In. apply (Hnot n' a'). left. reflexivity. }
    rewrite Hm. apply IH; [| exact Hin].
    intros n'' a'' H. apply (Hnot n'' a''). right. exact H.
Qed.

Lemma find_in_none (s : string) (l : list (string * TargetAssetclass)) :
  (forall n a, In (n, a) l -> ~ In s (securities a None)) ->
  find_in s l = {| assetclass := OTHER_NAME; badness := None |}.
Proof.
  induction l as [| [n a] l IH]; intros Hnot; simpl; [reflexivity |].
  assert (Hm : mem s (securities a None) = false).
  { apply mem_false_In. apply (Hnot n a). left. reflexivity. }
  rewrite Hm. apply IH. intros n' a' H. apply (Hnot n' a'). right. exact H.
Qed.

Lemma badness_at_listed (s : string) (b : option Q) (secs : list string)
    (bs : list (option Q)) :
  NoDup secs -> In (s, b) (combine secs bs) ->
  In s (map fst (filter (fun _ : string * option Q => true)
                        (combine secs bs))) /\
  badness_at s (map fst (filter (fun _ : string * option Q => true)
                                (combine secs bs))) bs = b.
Proof.
  revert bs. induction secs as [| s' secs IH]; intros [| b' bs] Hnd Hin;
    try (destruct Hin; fail).
  cbn [combine filter map fst badness_at] in *.
  inversion Hnd as [| ? ? Hnotin Hnd']; subst.
  destruct Hin as [E | Hin].
  - inversion E; subst. rewrite String.eqb_refl.
    split; [left; reflexivity | reflexivity].
  - destruct (String.eqb s s') eqn:E.
    + apply String.eqb_eq in E. subst s'. exfalso. apply Hnotin.
      apply in_combine_l in Hin. exact Hin.
    + destruct (IH bs Hnd' Hin) as [H1 H2]. split; [right; exact H1 | exact H2].
Qed.

(** X8: After [validate] every security of the portfolio is found in the asset
    class that lists it, with the badness score stored beside its first
    occurrence in that class, which is the score it was given when the
    class lists no ticker twice; a symbol that no asset class lists is put
    in the class Other without badness; before [validate] the lookup
    fails. *)
Theorem find_security_after_validate (p p' : TargetPortfolio) (s : string) :
  validate p = Ok p' ->
  find_security p s = (if _validated p
                       then find_security p' s
                       else Raise AssertionError) /\
  (forall n a,
     In (n, a) (_target_assetclasses p) ->
     In s (securities a None) ->
     find_security p' s =
     Ok {| assetclass := n;
           badness := badness_at s (securities a None) (badness_scores a) |}) /\
  (forall n a b,
     In (n, a) (_target_assetclasses p) ->
     NoDup (_securities a) ->
     In (s, b) (combine (_securities a) (_badness_scores a)) ->
     find_security p' s = Ok {| assetclass := n; badness := b |}) /\
  ((forall n a, In (n, a) (_target_assetclasses p) ->
                ~ In s (securities a None)) ->
   find_security p' s = Ok {| assetclass := OTHER_NAME; badness := None |}).
Proof.
  intros Hv. apply validate_ok_inv in Hv. destruct Hv as (-> & _ & Hns).
  unfold find_security, target_assetclasses.
  cbn [_validated _target_assetclasses assert bind].
  assert (Hfound : forall n a,
     In (n, a) (_target_assetclasses p) ->
     In s (securities a None) ->
     Ok (find_in s (_target_assetclasses p)) =
     Ok {| assetclass := n;
           badness := badness_at s (securities a None) (badness_scores a) |}).
  { intros n a Hin Hs.
    destruct (in_split _ _ Hin) as (l1 & l2 & E).
    rewrite E. f_equal. apply find_in_first; [| exact Hs].
    intros n' a' Hin' Hs'. apply Hns.
    exists (values l1), a, (values l2), s. split.
    { rewrite E. unfold values. rewrite map_app. reflexivity. }
    split; [exact Hs |]. exists a'. split; [| exact Hs'].
    unfold values. apply in_map_iff. exists (n', a'). split; [reflexivity |].
    exact Hin'. }
  split; [| split; [exact Hfound | split]].
  - destruct (_validated p); reflexivity.
  - intros n a b Hin Hnd Hb.
    destruct (badness_at_listed s b _ _ Hnd Hb) as [Hs Hbad].
    rewrite (Hfound n a Hin Hs). unfold securities, badness_scores.
    rewrite Hbad. reflexivity.
  - intros Hnot. f_equal. apply find_in_none. exact Hnot.
Qed.

Lemma find_security_after_validate_witness :
  find_security Demo.draft "VOO" = Raise AssertionError /\
  find_security Demo.portfolio "VOO" =
    Ok {| assetclass := "Stocks"; badness := Some 2 |}.
Proof.
  destruct (find_security_after_validate Demo.draft Demo.portfolio "VOO"
              eq_refl) as (Hdraft & _ & Hfound & _).
  split.
  - exact Hdraft.
  - apply (Hfound "Stocks" Demo.stocks (Some 2)).
    + left. reflexivity.
    + repeat constructor; simpl; intuition discriminate.
    + right. left. reflexivity.
Defined.

(** *** Portfolios built through the interface *)

Lemma built_inv (p : TargetPortfolio) :
  built p ->
  _validated p = false /\
  NoDup (keys (_target_assetclasses p)) /\
  forall n a, In (n, a) (_target_assetclasses p) ->
              exists t secs bs, TargetAssetclass_init t n secs bs = Ok a.
Proof.
  induction 1 as [| p p' t n secs bs Hb IH Hadd].
  - split; [reflexivity |]. split; [constructor |]. intros n a [].
  - destruct IH as (_ & Hnd & Hall).
    apply add_assetclass_ok in Hadd.
    destruct Hadd as (a & Hv & Ha & Hn & ->).
    cbn [_validated _target_assetclasses].
    split; [reflexivity |]. split.
    + unfold keys. rewrite map_app. cbn [map fst].
      apply NoDup_app_remove_l with (l := []). simpl.
      apply Permutation_NoDup with (l := n :: map fst (_target_assetclasses p)).
      * apply Permutation_cons_append.
      * constructor; assumption.
    + intros n' a' Hin. apply in_app_or in Hin.
      destruct Hin as [Hin | [E | []]].
      * apply Hall. exact Hin.
      * inversion E; subst. exists t, secs, bs. exact Ha.
Qed.

(** X9: A portfolio built by calls of [add_assetclass] and accepted by
    [validate] has between 1 and 100 asset classes, under distinct names
    that are neither Other nor Cash; each class is stored under its own
    name with a whole target of at least 1 percent, the targets add up to
    100, each class has a security of badness 1, and the portfolio accepts
    no further asset class. *)
Theorem built_portfolio_is_well_formed (p p' : TargetPortfolio) :
  built p ->
  validate p = Ok p' ->
  _validated p' = true /\
  _target_assetclasses p' = _target_assetclasses p /\
  (1 <= length (_target_assetclasses p') <= 100)%nat /\
  NoDup (keys (_target_assetclasses p')) /\
  ~ In OTHER_NAME (keys (_target_assetclasses p')) /\
  ~ In CASH_NAME (keys (_target_assetclasses p')) /\
  Qsum (map target (values (_target_assetclasses p'))) == 100 /\
  (forall n a, In (n, a) (_target_assetclasses p') ->
     name a = n /\ 1 <= target a <= 100 /\
     inject_Z (py_int (target a)) == target a /\
     securities a (Some 1%Z) <> []) /\
  forall t n secs bs, add_assetclass p' t n secs bs = Raise AssertionError.
Proof.
  intros Hb Hv. destruct (built_inv p Hb) as (_ & Hnd & Hall).
  pose proof (validated_portfolio_size p p' Hall Hv) as Hsize.
  apply validate_ok_inv in Hv. destruct Hv as (-> & Hsum & _).
  cbn [_validated _target_assetclasses] in *.
  assert (Hreserved : forall n, In n (keys (_target_assetclasses p)) ->
                                mem n [OTHER_NAME; CASH_NAME] = false).
  { intros n Hn. unfold keys in Hn. apply in_map_iff in Hn.
    destruct Hn as ([n' a] & E & Hin). cbn [fst] in E. subst n'.
    destruct (Hall n a Hin) as (t & secs & bs & Hi).
    apply TargetAssetclass_init_ok in Hi. tauto. }
  split; [reflexivity |]. split; [reflexivity |]. split; [split |].
  - unfold targets_sum in Hsum.
    destruct (_target_assetclasses p) as [| x l]; [| simpl; lia].
    exfalso. cbn [values map Qsum] in Hsum. lra.
  - exact Hsize.
  - split; [exact Hnd |]. split; [| split; [| split; [| split]]].
    + intros Hin. specialize (Hreserved _ Hin).
      apply mem_false_In in Hreserved. apply Hreserved. left. reflexivity.
    + intros Hin. specialize (Hreserved _ Hin).
      apply mem_false_In in Hreserved. apply Hreserved. right. left.
      reflexivity.
    + exact Hsum.
    + intros n a Hin. destruct (Hall n a Hin) as (t & secs & bs & Hi).
      destruct (accepted_class_tiers _ _ _ _ _ Hi) as (_ & Hone & _).
      apply TargetAssetclass_init_ok in Hi.
      destruct Hi as (Ht & Hint & _ & _ & _ & _ & _ & _ & ->).
      cbn [name target]. split; [reflexivity |].
      apply andb_true_iff in Ht. destruct Ht as [H0 H100].
      apply Qltb_lt in H0. apply Qle_bool_iff in H100.
      unfold is_integral in Hint. apply Qeq_bool_iff in Hint.
      split; [| split; [symmetry; exact Hint | exact Hone]].
      split; [| exact H100].
      apply integral_positive_ge_1; [exact H0 |].
      unfold is_integral. apply Qeq_bool_iff. exact Hint.
    + intros t n secs bs. reflexivity.
Qed.

Lemma built_portfolio_is_well_formed_witness :
  built Demo.draft /\
  validate Demo.draft = Ok Demo.portfolio /\
  (1 <= length (_target_assetclasses Demo.portfolio) <= 100)%nat /\
  forall t n secs bs,
    add_assetclass Demo.portfolio t n secs bs = Raise AssertionError.
Proof.
  assert (Hb : built Demo.draft).
  { apply (built_add
             {| _validated := false;
                _target_assetclasses := [("Stocks", Demo.stocks)] |}
             Demo.draft 40 "Bonds" ["mub"; "tfi"] [Some 1; Some 1]).
    - apply (built_add TargetPortfolio_init _ 60 "Stocks"
                       ["ivv"; "voo"; "iwb"] [Some 1; Some 2; None]).
      + constructor.
      + reflexivity.
    - reflexivity. }
  destruct (built_portfolio_is_well_formed Demo.draft Demo.portfolio Hb
              eq_refl) as (_ & _ & Hsize & _ & _ & _ & _ & _ & Hadd).
  split; [exact Hb |]. split; [reflexivity |]. split; assumption.
Defined.

(** ** The buy selector *)

Lemma tier_loop_none (fuel : nat) (a : TargetAssetclass) (acct : Account)
    (M : Q) (b0 : Z) :
  (scores_from a b0 < fuel)%nat ->
  tier_loop fuel a acct M b0 = None ->
  exists k, (b0 <= k)%Z /\ securities a (Some k) = [] /\
            forall b', (b0 <= b' < k)%Z ->
                       securities a (Some b') <> [] /\
                       tier_rejected a acct M b'.
Proof.
  revert b0. induction fuel as [| fuel IH]; intros b0 Hf H; [lia |].
  cbn [tier_loop] in H.
  destruct (0 <? length (securities a (Some b0)))%nat eqn:Hne.
  - assert (Hne' : securities a (Some b0) <> []).
    { apply Nat.ltb_lt in Hne. intros E. rewrite E in Hne. simpl in Hne. lia. }
    pose proof (scores_from_next a b0 Hne') as Hlt.
    assert (Hnext : tier_rejected a acct M b0 ->
                    tier_loop fuel a acct M (b0 + 1) = None ->
                    exists k, (b0 <= k)%Z /\ securities a (Some k) = [] /\
                              forall b', (b0 <= b' < k)%Z ->
                                         securities a (Some b') <> [] /\
                                         tier_rejected a acct M b').
    { intros Hrej H'. destruct (IH (b0 + 1)%Z) as (k & Hk & Ek & Hall);
        [lia | exact H' |].
      exists k. split; [lia |]. split; [exact Ek |].
      intros b' Hb'. destruct (Z.eq_dec b' b0) as [-> | Hd].
      - split; assumption.
      - apply Hall. lia. }
    destruct (sorted neg_loss (buy_options a acct b0)) as [| [s l] rest] eqn:Es.
    + apply Hnext; [| exact H]. unfold tier_rejected. rewrite Es. exact I.
    + destruct (Qle_bool (Qabs l) M) eqn:Hl; [discriminate |].
      apply Hnext; [| exact H]. unfold tier_rejected. rewrite Es.
      apply Qle_bool_gt. exact Hl.
  - exists b0. split; [lia |]. split; [| intros b' Hb'; lia].
    apply Nat.ltb_ge in Hne.
    destruct (securities a (Some b0)); [reflexivity | simpl in Hne; lia].
Qed.

Lemma loss_of_nonpos (acct : Account) (s : string) :
  (forall p, In p (df_positions acct) -> lots_loss p <= 0) ->
  loss_of acct s <= 0.
Proof.
  intros H. unfold loss_of.
  destruct (mem s (bought (recent_trades acct))); [apply Qle_refl |].
  induction (df_positions acct) as [| p ps IH]; simpl; [apply Qle_refl |].
  destruct (String.eqb s (p_symbol p)).
  - apply H. left. reflexivity.
  - apply IH. intros p' Hp'. apply H. right. exact Hp'.
Qed.

Lemma Qabs_nonpos (q : Q) : q <= 0 -> Qabs q == - q.
Proof.
  intros H. rewrite <- Qabs_opp. apply Qabs_pos. lra.
Qed.

(** With losses recorded as non-positive numbers, a tier is passed over
    exactly when none of its securities is acceptable. *)
Lemma tier_rejected_iff (a : TargetAssetclass) (acct : Account) (M : Q)
    (b : Z) :
  (forall p, In p (df_positions acct) -> lots_loss p <= 0) ->
  tier_rejected a acct M b <->
  forall s, In s (securities a (Some b)) -> ~ acceptable acct M s.
Proof.
  intros Hloss. unfold tier_rejected, acceptable.
  destruct (sorted neg_loss (buy_options a acct b)) as [| [s l] rest] eqn:Es.
  - assert (E : buy_options a acct b = []).
    { pose proof (sorted_perm neg_loss (buy_options a acct b)) as Hp.
      rewrite Es in Hp. apply Permutation_nil in Hp. exact Hp. }
    split; [| intros _; exact I].
    intros _ s Hs [Hns _].
    assert (Hin : In (s, loss_of acct s) (buy_options a acct b)).
    { apply buy_options_In. auto. }
    rewrite E in Hin. destruct Hin.
  - apply sorted_head in Es. destruct Es as (l1 & l2 & E & H1 & H2).
    assert (Hhead : In (s, l) (buy_options a acct b))
      by (rewrite E; apply in_elt).
    apply buy_options_In in Hhead. destruct Hhead as (Hs & Hns & El).
    split.
    + intros HM s' Hs' [Hns' Hacc].
      assert (Hin : In (s', loss_of acct s') (buy_options a acct b)).
      { apply buy_options_In. auto. }
      assert (Hle : loss_of acct s' <= l).
      { rewrite E in Hin. apply in_app_or in Hin.
        destruct Hin as [Hin | [Hin | Hin]].
        - specialize (H1 _ Hin). unfold neg_loss in H1. simpl in H1. lra.
        - inversion Hin. apply Qle_refl.
        - specialize (H2 _ Hin). unfold neg_loss in H2. simpl in H2. lra. }
      pose proof (loss_of_nonpos acct s' Hloss) as Hn'.
      pose proof (loss_of_nonpos acct s Hloss) as Hn. rewrite <- El in Hn.
      rewrite (Qabs_nonpos _ Hn) in HM.
      rewrite (Qabs_nonpos _ Hn') in Hacc. lra.
    + intros Hall. destruct (Qlt_le_dec M (Qabs l)) as [Hlt | Hle];
        [exact Hlt |].
      exfalso. apply (Hall s Hs). split; [exact Hns |].
      rewrite <- El. exact Hle.
Qed.

(** X10: The automatic choice of [_identify_buys] for an accepted asset class,
    losses being recorded as non-positive numbers: the security bought is
    acceptable (not sold in the window, loss within [MAX_LOSS_TO_FORGO]),
    no security of a lower tier is acceptable, no candidate of its tier
    carries a smaller loss, and no security is chosen exactly when no
    security with a numeric badness score is acceptable. *)
Theorem automatic_buy_is_best_acceptable (t : Q) (n : string)
    (secs : list string) (bs : list (option Q)) (a : TargetAssetclass)
    (acct : Account) (M : Q) :
  TargetAssetclass_init t n secs bs = Ok a ->
  (forall p, In p (df_positions acct) -> lots_loss p <= 0) ->
  (forall bu, pick_buy a acct M = Some bu ->
     exists b s,
       (1 <= b)%Z /\
       bu = {| security := Some s; buy_badness := Some (inject_Z b) |} /\
       In s (securities a (Some b)) /\
       acceptable acct M s /\
       (forall s', In s' (securities a (Some b)) ->
                   ~ In s' (sold (recent_trades acct)) ->
                   loss_of acct s' <= loss_of acct s) /\
       forall b' s', (b' < b)%Z -> In s' (securities a (Some b')) ->
                     ~ acceptable acct M s') /\
  (pick_buy a acct M = None <->
   forall s, has_score a s -> ~ acceptable acct M s).
Proof.
  intros Hinit Hloss.
  assert (Hsome : forall bu, pick_buy a acct M = Some bu ->
     exists b s,
       (1 <= b)%Z /\
       bu = {| security := Some s; buy_badness := Some (inject_Z b) |} /\
       In s (securities a (Some b)) /\
       acceptable acct M s /\
       (forall s', In s' (securities a (Some b)) ->
                   ~ In s' (sold (recent_trades acct)) ->
                   loss_of acct s' <= loss_of acct s) /\
       forall b' s', (b' < b)%Z -> In s' (securities a (Some b')) ->
                     ~ acceptable acct M s').
  { intros bu H. apply pick_buy_some in H.
    destruct H as (b & s & l & l1 & l2 & Hb & -> & E & H1 & H2 & Hl & Hall).
    assert (Hhead : In (s, l) (buy_options a acct b))
      by (rewrite E; apply in_elt).
    apply buy_options_In in Hhead. destruct Hhead as (Hs & Hns & El).
    exists b, s. split; [exact Hb |]. split; [reflexivity |].
    split; [exact Hs |]. split; [| split].
    - split; [exact Hns |]. rewrite <- El. exact Hl.
    - intros s' Hs' Hns'.
      assert (Hin : In (s', loss_of acct s') (buy_options a acct b)).
      { apply buy_options_In. auto. }
      rewrite E in Hin. rewrite <- El. apply in_app_or in Hin.
      destruct Hin as [Hin | [Hin | Hin]].
      + specialize (H1 _ Hin). simpl in H1. lra.
      + inversion Hin. apply Qle_refl.
      + specialize (H2 _ Hin). simpl in H2. exact H2.
    - intros b' s' Hb' Hs'.
      destruct (Z_lt_le_dec b' 1) as [Hlow | Hhigh].
      + (* no security sits below tier 1 *)
        exfalso. apply securities_In in Hs'. destruct Hs' as (q & Hq & Eq).
        destruct (accepted_class_tiers _ _ _ _ _ Hinit)
          as (_ & _ & Hrange).
        destruct (Hrange s' q Hq) as (b1 & Hb1 & Eb1 & _).
        rewrite Eq in Eb1. rewrite inject_Z_injective in Eb1. lia.
      + destruct (Hall b') as [_ Hrej]; [lia |].
        apply (proj1 (tier_rejected_iff a acct M b' Hloss) (Hrej Hb')).
        exact Hs'. }
  split; [exact Hsome |]. split.
  - intros Hnone s (q & Hq).
    destruct (accepted_class_tiers _ _ _ _ _ Hinit)
      as (_ & _ & Hrange).
    destruct (Hrange s q Hq) as (b & Hb & Eb & Hs & Hinh).
    unfold pick_buy in Hnone. apply tier_loop_none in Hnone.
    + destruct Hnone as (k & Hk & Ek & Hrej).
      assert (Hbk : (b < k)%Z).
      { destruct (Z_lt_le_dec b k) as [H | H]; [exact H |].
        exfalso. apply (Hinh k); [lia | exact Ek]. }
      destruct (Hrej b) as [_ Hr]; [lia |].
      apply (proj1 (tier_rejected_iff a acct M b Hloss) Hr). exact Hs.
    + pose proof (scores_from_bound a 1). lia.
  - intros Hall. destruct (pick_buy a acct M) as [bu |] eqn:Ep;
      [| reflexivity].
    exfalso. destruct (Hsome bu eq_refl) as (b & s & _ & _ & Hs & Hacc & _).
    apply (Hall s); [| exact Hacc].
    apply securities_In in Hs. destruct Hs as (q & Hq & _).
    exists q. exact Hq.
Qed.

Lemma automatic_buy_is_best_acceptable_witness :
  exists b s,
    pick_buy Demo.stocks Demo.account 0 =
      Some {| security := Some s; buy_badness := Some (inject_Z b) |} /\
    acceptable Demo.account 0 s /\
    forall s', In s' (securities Demo.stocks (Some 1%Z)) ->
               ~ acceptable Demo.account 0 s'.
Proof.
  destruct (automatic_buy_is_best_acceptable
              60 "Stocks" ["ivv"; "voo"; "iwb"] [Some 1; Some 2; None]
              Demo.stocks Demo.account 0) as (Hsome & _).
  - reflexivity.
  - intros p [<- | [<- | [<- | [<- | []]]]]; vm_compute; discriminate.
  - destruct (pick_buy Demo.stocks Demo.account 0) as [bu |] eqn:E.
    + destruct (Hsome bu eq_refl) as (b & s & Hb & -> & Hs & Hacc & _ & Hlow).
      exists b, s. split; [reflexivity |]. split; [exact Hacc |].
      intros s' Hs'. apply (Hlow 1%Z s'); [| exact Hs'].
      vm_compute in E. injection E as _ Eb. 
      destruct (Z_lt_le_dec 1 b) as [H | H]; [exact H |].
      exfalso. assert (b = 1%Z) as -> by lia. discriminate Eb.
    + vm_compute in E. discriminate.
Defined.

(** *** One buy for every asset class, or none at all *)

Lemma collect_buys_keys_incl (items : list (string * TargetAssetclass))
    (forced : list (string * Buy)) (acct : Account) (M : Q) (n : string) :
  In n (keys (collect_buys items forced acct M)) -> In n (keys items).
Proof.
  unfold keys. rewrite !in_map_iff.
  intros ([n' bu] & E & Hin). cbn [fst] in E. subst n'.
  apply collect_buys_In in Hin. destruct Hin as (a & Ha & _).
  exists (n, a). split; [reflexivity | exact Ha].
Qed.

Lemma collect_buys_all (items : list (string * TargetAssetclass))
    (forced : list (string * Buy)) (acct : Account) (M : Q) :
  (forall n a, In (n, a) items ->
               lookup n forced <> None \/ pick_buy a acct M <> None) ->
  keys (collect_buys items forced acct M) = keys items.
Proof.
  induction items as [| [n a] items IH]; intros H; [reflexivity |].
  assert (IH' : keys (collect_buys items forced acct M) = keys items).
  { apply IH. intros n' a' Hin. apply H. right. exact Hin. }
  cbn [collect_buys].
  destruct (lookup n forced) as [fb |] eqn:Ef.
  - unfold keys in *. simpl. rewrite IH'. reflexivity.
  - destruct (pick_buy a acct M) as [b |] eqn:Ep.
    + unfold keys in *. simpl. rewrite IH'. reflexivity.
    + exfalso. destruct (H n a (or_introl eq_refl)) as [Hc | Hc].
      * apply Hc. exact Ef.
      * apply Hc. exact Ep.
Qed.

Lemma collect_buys_misses (items : list (string * TargetAssetclass))
    (forced : list (string * Buy)) (acct : Account) (M : Q)
    (n : string) (a : TargetAssetclass) :
  NoDup (keys items) -> In (n, a) items ->
  lookup n forced = None -> pick_buy a acct M = None ->
  ~ In n (keys (collect_buys items forced acct M)).
Proof.
  intros Hnd Hin Hf Hp Hk. unfold keys in Hk. apply in_map_iff in Hk.
  destruct Hk as ([n' bu] & E & Hb). cbn [fst] in E. subst n'.
  apply collect_buys_In in Hb. destruct Hb as (a' & Ha' & Hcase).
  assert (a' = a) as ->.
  { clear Hcase. induction items as [| [k v] items IH]; [destruct Hin |].
    cbn [keys map fst] in Hnd. inversion Hnd as [| ? ? Hnot Hnd']; subst.
    destruct Hin as [E | Hin]; destruct Ha' as [E' | Ha'].
    - congruence.
    - inversion E; subst. exfalso. apply Hnot. apply in_map_iff.
      exists (n, a'). split; [reflexivity | exact Ha'].
    - inversion E'; subst. exfalso. apply Hnot. apply in_map_iff.
      exists (n, a). split; [reflexivity | exact Hin].
    - apply IH; assumption. }
  destruct Hcase as [Hc | [_ Hc]]; congruence.
Qed.

Lemma same_set_refl (l : list string) : same_set l l = true.
Proof.
  unfold same_set.
  assert (H : forallb (fun s => mem s l) l = true).
  { apply forallb_forall. intros s Hs. apply mem_In. exact Hs. }
  rewrite H. reflexivity.
Qed.

(** The selection of [_identify_buys]: a buy for every asset class, or
    [RebalancerError]. *)
Lemma identify_buys_selects (p : TargetPortfolio)
    (forced : list (string * Buy)) (acct : Account) (M : Q) :
  NoDup (keys (_target_assetclasses p)) ->
  (_validated p = false ->
   _identify_buys p forced acct M = Raise AssertionError) /\
  (_validated p = true ->
   (forall n a, In (n, a) (_target_assetclasses p) ->
                lookup n forced <> None \/ pick_buy a acct M <> None) ->
   exists buys,
     _identify_buys p forced acct M = Ok buys /\
     keys buys = keys (_target_assetclasses p) /\
     forall n a, In (n, a) (_target_assetclasses p) ->
                 lookup n buys = match lookup n forced with
                                 | Some fb => Some fb
                                 | None => pick_buy a acct M
                                 end) /\
  (_validated p = true ->
   (exists n a, In (n, a) (_target_assetclasses p) /\
                lookup n forced = None /\ pick_buy a acct M = None) ->
   _identify_buys p forced acct M = Raise RebalancerError).
Proof.
  intros Hnd. unfold _identify_buys, target_assetclasses.
  split; [| split].
  - intros ->. reflexivity.
  - intros -> Hall. cbn [assert bind].
    pose proof (collect_buys_all _ forced acct M Hall) as Hk.
    rewrite Hk, same_set_refl. cbn [negb].
    exists (collect_buys (_target_assetclasses p) forced acct M).
    split; [reflexivity |]. split; [exact Hk |].
    intros n a Hin. clear Hk Hall.
    induction (_target_assetclasses p) as [| [k v] items IH];
      [destruct Hin |].
    cbn [keys map fst] in Hnd. inversion Hnd as [| ? ? Hnot Hnd']; subst.
    cbn [collect_buys].
    destruct Hin as [E | Hin].
    + inversion E; subst.
      destruct (lookup n forced) as [fb |] eqn:Ef.
      * simpl. rewrite String.eqb_refl. reflexivity.
      * destruct (pick_buy a acct M) as [b |] eqn:Ep.
        -- simpl. rewrite String.eqb_refl. reflexivity.
        -- destruct (lookup n (collect_buys items forced acct M)) eqn:El;
             [| reflexivity].
           exfalso. apply Hnot. apply lookup_In in El.
           apply (collect_buys_keys_incl items forced acct M).
           unfold keys. apply in_map_iff. exists (n, b).
           split; [reflexivity | exact El].
    + assert (Hne : String.eqb n k = false).
      { apply String.eqb_neq. intros ->. apply Hnot. apply in_map_iff.
        exists (k, a). split; [reflexivity | exact Hin]. }
      specialize (IH Hnd' Hin).
      destruct (lookup k forced) as [fb |].
      * simpl. rewrite Hne. exact IH.
      * destruct (pick_buy v acct M) as [b |].
        -- simpl. rewrite Hne. exact IH.
        -- exact IH.
  - intros -> (n & a & Hin & Hf & Hp). cbn [assert bind].
    assert (Hs : same_set
                   (keys (collect_buys (_target_assetclasses p) forced acct M))
                   (keys (_target_assetclasses p)) = false).
    { unfold same_set. apply andb_false_iff. right.
      apply not_true_is_false. intros Hall.
      rewrite forallb_forall in Hall.
      assert (Hn : In n (keys (_target_assetclasses p))).
      { unfold keys. apply in_map_iff. exists (n, a). split; [reflexivity |].
        exact Hin. }
      specialize (Hall n Hn). apply mem_In in Hall.
      exact (collect_buys_misses _ forced acct M n a Hnd Hin Hf Hp Hall). }
    rewrite Hs. reflexivity.
Qed.

(** Without a connection the prices are those of the table. *)
Lemma set_prices_offline (buys : list (string * Buy)) :
  set_prices current_price_offline buys = price_buys buys.
Proof.
  induction buys as [| [n b] buys IH]; [reflexivity |].
  cbn [set_prices price_buys]. rewrite IH. reflexivity.
Qed.

(** The price look-up succeeds when every security bought has a price. *)
Lemma set_prices_ok (current_price : string -> result Q)
    (buys : list (string * Buy)) :
  (forall n b s, In (n, b) buys -> security b = Some s ->
                 exists c, current_price s = Ok c) ->
  exists prices,
    set_prices current_price buys = Ok prices /\
    forall n b s, In (n, b) buys -> security b = Some s ->
                  exists c, current_price s = Ok c /\ In (n, c) prices.
Proof.
  induction buys as [| [n0 b0] buys IH]; intros H.
  - exists []. split; [reflexivity |]. intros n b s [].
  - destruct IH as (rest & Hrest & Hin).
    { intros n b s Hb. apply (H n b s). right. exact Hb. }
    cbn [set_prices]. destruct (security b0) as [s0 |] eqn:E0.
    + destruct (H n0 b0 s0 (or_introl eq_refl) E0) as (c0 & Hc0).
      rewrite Hc0, Hrest. cbn [bind].
      exists ((n0, c0) :: rest). split; [reflexivity |].
      intros n b s [E | Hb] Hs.
      * inversion E; subst. rewrite E0 in Hs. inversion Hs; subst.
        exists c0. split; [exact Hc0 | left; reflexivity].
      * destruct (Hin n b s Hb Hs) as (c & Hc & Hcin).
        exists c. split; [exact Hc | right; exact Hcin].
    + exists rest. split; [exact Hrest |].
      intros n b s [E | Hb] Hs.
      * inversion E; subst. congruence.
      * exact (Hin n b s Hb Hs).
Qed.

(** It stops on the first security whose price cannot be had. *)
Lemma set_prices_raises (current_price : string -> result Q)
    (buys : list (string * Buy)) :
  (exists n b s e, In (n, b) buys /\ security b = Some s /\
                   current_price s = Raise e) ->
  exists n b s e, In (n, b) buys /\ security b = Some s /\
                  current_price s = Raise e /\
                  set_prices current_price buys = Raise e.
Proof.
  induction buys as [| [n0 b0] buys IH]; intros (n & b & s & e & Hb & Hs & He).
  - destruct Hb.
  - cbn [set_prices]. destruct (security b0) as [s0 |] eqn:E0.
    + destruct (current_price s0) as [c0 | e0] eqn:Ec0.
      * destruct Hb as [E | Hb].
        { inversion E; subst. rewrite E0 in Hs. inversion Hs; subst.
          congruence. }
        destruct IH as (n' & b' & s' & e' & Hb' & Hs' & He' & Hr).
        { exists n, b, s, e. auto. }
        exists n', b', s', e'. repeat split; try assumption.
        -- right. exact Hb'.
        -- cbn [bind]. rewrite Hr. reflexivity.
      * exists n0, b0, s0, e0. repeat split; try assumption.
        left. reflexivity.
    + destruct Hb as [E | Hb].
      { inversion E; subst. congruence. }
      destruct IH as (n' & b' & s' & e' & Hb' & Hs' & He' & Hr).
      { exists n, b, s, e. auto. }
      exists n', b', s', e'. repeat split; try assumption.
      right. exact Hb'.
Qed.

(** X11: [_identify_buys] assigns [self._buys] a buy and a price for every
    asset class, or raises and leaves it unassigned.  Before validation
    it fails on the assertion.  On a validated portfolio it raises
    [RebalancerError] when some asset class has neither a forced entry
    nor an automatic choice.  When every asset class has one, the buys
    are these, in the order of the asset classes, and the function
    returns them with the price of every security bought if all these
    prices can be had; if the look-up of one of them raises (a
    [KeyError] for a security that the offline table does not list, an
    error of the broker), the function raises that exception. *)
Theorem identify_buys_all_or_nothing (current_price : string -> result Q)
    (p : TargetPortfolio) (forced : list (string * Buy)) (acct : Account)
    (M : Q) :
  NoDup (keys (_target_assetclasses p)) ->
  (_validated p = false ->
   _identify_buys_with_prices current_price p forced acct M =
     Raise AssertionError) /\
  (_validated p = true ->
   (exists n a, In (n, a) (_target_assetclasses p) /\
                lookup n forced = None /\ pick_buy a acct M = None) ->
   _identify_buys_with_prices current_price p forced acct M =
     Raise RebalancerError) /\
  (_validated p = true ->
   (forall n a, In (n, a) (_target_assetclasses p) ->
                lookup n forced <> None \/ pick_buy a acct M <> None) ->
   exists buys,
     keys buys = keys (_target_assetclasses p) /\
     (forall n a, In (n, a) (_target_assetclasses p) ->
                  lookup n buys = match lookup n forced with
                                  | Some fb => Some fb
                                  | None => pick_buy a acct M
                                  end) /\
     ((forall n b s, In (n, b) buys -> security b = Some s ->
                     exists c, current_price s = Ok c) ->
      exists prices,
        _identify_buys_with_prices current_price p forced acct M =
          Ok (buys, prices) /\
        forall n b s, In (n, b) buys -> security b = Some s ->
                      exists c, current_price s = Ok c /\ In (n, c) prices) /\
     ((exists n b s e, In (n, b) buys /\ security b = Some s /\
                       current_price s = Raise e) ->
      exists n b s e, In (n, b) buys /\ security b = Some s /\
                      current_price s = Raise e /\
                      _identify_buys_with_prices current_price p forced acct M
                        = Raise e)).
Proof.
  intros Hnd.
  destruct (identify_buys_selects p forced acct M Hnd) as (H1 & H2 & H3).
  unfold _identify_buys_with_prices. split; [| split].
  - intros Hv. rewrite (H1 Hv). reflexivity.
  - intros Hv Hmiss. rewrite (H3 Hv Hmiss). reflexivity.
  - intros Hv Hall. destruct (H2 Hv Hall) as (buys & Hb & Hk & Hl).
    exists buys. split; [exact Hk |]. split; [exact Hl |].
    rewrite Hb. cbn [bind]. split.
    + intros Hp. destruct (set_prices_ok current_price buys Hp)
        as (prices & Hs & Hin).
      exists prices. rewrite Hs. split; [reflexivity | exact Hin].
    + intros Hr. destruct (set_prices_raises current_price buys Hr)
        as (n & b & s & e & Hin & Hs & He & Hraise).
      exists n, b, s, e. rewrite Hraise. auto.
Qed.

Lemma identify_buys_all_or_nothing_witness :
  _identify_buys_with_prices current_price_offline Demo.portfolio []
    {| df_positions := []; df_lots := []; cash := 0;
       recent_trades := {| sold := ["MUB"; "TFI"]; bought := [] |} |} 0 =
    Raise RebalancerError /\
  _identify_buys_with_prices current_price_offline Demo.portfolio []
    Demo.account 0 =
    Ok (Demo.buys, [("Stocks", 350855 # 1000); ("Bonds", 102015 # 1000)]) /\
  _identify_buys_with_prices current_price_offline
    {| _validated := true;
       _target_assetclasses :=
         [ ("Gold", {| target := 100; name := "Gold";
                       _securities := ["GLD"];
                       _badness_scores := [Some 1] |}) ] |}
    [] Demo.account 0 = Raise KeyError.
Proof.
  split; [| split; reflexivity].
  destruct (identify_buys_all_or_nothing current_price_offline
              Demo.portfolio []
              {| df_positions := []; df_lots := []; cash := 0;
                 recent_trades := {| sold := ["MUB"; "TFI"];
                                     bought := [] |} |} 0)
    as (_ & Hfail & _).
  - repeat constructor; simpl; intuition discriminate.
  - apply Hfail; [reflexivity |].
    exists "Bonds", Demo.bonds. split; [right; left; reflexivity |].
    split; reflexivity.
Defined.

(** ** The sell selector as a whole *)

(** *** Dictionaries *)

Lemma lookup_dict_set_eq {V : Type} (k : string) (v : V)
    (d : list (string * V)) :
  lookup k (dict_set k v d) = Some v.
Proof.
  induction d as [| [k' v'] d IH]; simpl.
  - rewrite String.eqb_refl. reflexivity.
  - destruct (String.eqb k k') eqn:E; simpl.
    + rewrite String.eqb_refl. reflexivity.
    + rewrite E. exact IH.
Qed.

Lemma lookup_dict_set_neq {V : Type} (k k' : string) (v : V)
    (d : list (string * V)) :
  k' <> k -> lookup k' (dict_set k v d) = lookup k' d.
Proof.
  intros Hne. induction d as [| [k0 v0] d IH]; simpl.
  - destruct (String.eqb k' k) eqn:E; [| reflexivity].
    apply String.eqb_eq in E. congruence.
  - destruct (String.eqb k k0) eqn:E.
    + apply String.eqb_eq in E. subst k0. simpl.
      destruct (String.eqb k' k) eqn:E'; [| reflexivity].
      apply String.eqb_eq in E'. congruence.
    + simpl. destruct (String.eqb k' k0); [reflexivity | exact IH].
Qed.

Lemma keys_dict_set_In {V : Type} (k x : string) (v : V)
    (d : list (string * V)) :
  In x (keys (dict_set k v d)) <-> x = k \/ In x (keys d).
Proof.
  unfold keys. induction d as [| [k0 v0] d IH]; simpl.
  - intuition.
  - destruct (String.eqb k k0) eqn:E.
    + apply String.eqb_eq in E. subst k0. simpl. intuition.
    + simpl. rewrite IH. intuition.
Qed.

Lemma keys_dict_set_NoDup {V : Type} (k : string) (v : V)
    (d : list (string * V)) :
  NoDup (keys d) -> NoDup (keys (dict_set k v d)).
Proof.
  induction d as [| [k0 v0] d IH]; intros H.
  - simpl. constructor; [intros [] | constructor].
  - cbn [dict_set]. destruct (String.eqb k k0) eqn:E.
    + apply String.eqb_eq in E. subst k0. exact H.
    + unfold keys in *. cbn [map fst] in *.
      inversion H as [| ? ? Hnot Hnd]; subst. constructor.
      * intros Hin. apply (keys_dict_set_In k k0 v d) in Hin.
        destruct Hin as [-> | Hin]; [| exact (Hnot Hin)].
        rewrite String.eqb_refl in E. discriminate.
      * apply IH. exact Hnd.
Qed.

Lemma keys_dict_set_present {V : Type} (k : string) (v e : V)
    (d : list (string * V)) :
  lookup k d = Some e -> keys (dict_set k v d) = keys d.
Proof.
  unfold keys. induction d as [| [k0 v0] d IH]; simpl; [discriminate |].
  destruct (String.eqb k k0) eqn:E.
  - apply String.eqb_eq in E. subst k0. reflexivity.
  - intros H. simpl. f_equal. apply IH. exact H.
Qed.

Lemma lookup_keys {V : Type} (k : string) (d : list (string * V)) :
  In k (keys d) <-> lookup k d <> None.
Proof.
  unfold keys. induction d as [| [k0 v0] d IH]; simpl.
  - intuition.
  - destruct (String.eqb k k0) eqn:E.
    + apply String.eqb_eq in E. subst k0. intuition discriminate.
    + rewrite <- IH. apply String.eqb_neq in E. intuition congruence.
Qed.

Lemma In_lookup {V : Type} (k : string) (v : V) (d : list (string * V)) :
  NoDup (keys d) -> In (k, v) d -> lookup k d = Some v.
Proof.
  unfold keys. induction d as [| [k0 v0] d IH]; intros Hnd Hin;
    [destruct Hin |].
  cbn [map fst] in Hnd. inversion Hnd as [| ? ? Hnot Hnd']; subst.
  simpl. destruct Hin as [E | Hin].
  - inversion E; subst. rewrite String.eqb_refl. reflexivity.
  - destruct (String.eqb k k0) eqn:E.
    + apply String.eqb_eq in E. subst k0. exfalso. apply Hnot.
      apply in_map_iff. exists (k, v). split; [reflexivity | exact Hin].
    + apply IH; assumption.
Qed.

(** *** The empty entries *)

Lemma sells_init_fold (rows : list Position) (d : list (string * Sell)) :
  NoDup (keys d) ->
  (forall s e, lookup s d = Some e -> e = fresh_sell) ->
  let d' := fold_left (fun d row => dict_set (p_symbol row) fresh_sell d)
                      rows d in
  NoDup (keys d') /\
  (forall s e, lookup s d' = Some e -> e = fresh_sell) /\
  (forall s, In s (keys d') <-> In s (map p_symbol rows) \/ In s (keys d)).
Proof.
  revert d. induction rows as [| row rows IH]; intros d Hnd Hall; simpl.
  - split; [exact Hnd |]. split; [exact Hall |]. intuition.
  - destruct (IH (dict_set (p_symbol row) fresh_sell d)) as (H1 & H2 & H3).
    + apply keys_dict_set_NoDup. exact Hnd.
    + intros s e. destruct (string_dec s (p_symbol row)) as [-> | Hne].
      * rewrite lookup_dict_set_eq. congruence.
      * rewrite lookup_dict_set_neq by exact Hne. apply Hall.
    + split; [exact H1 |]. split; [exact H2 |].
      intros s. rewrite H3, keys_dict_set_In. intuition.
Qed.

Lemma sells_init_spec (acct : Account) :
  NoDup (keys (sells_init acct)) /\
  forall s,
    lookup s (sells_init acct) =
    if mem s (map p_symbol (df_positions acct)) then Some fresh_sell
    else None.
Proof.
  destruct (sells_init_fold (df_positions acct) []) as (H1 & H2 & H3).
  - constructor.
  - intros s e H. discriminate.
  - fold (sells_init acct) in H1, H2, H3. split; [exact H1 |].
    intros s. destruct (mem s (map p_symbol (df_positions acct))) eqn:E.
    + apply mem_In in E.
      assert (Hk : In s (keys (sells_init acct))) by (apply H3; left; exact E).
      apply lookup_keys in Hk.
      destruct (lookup s (sells_init acct)) as [e |] eqn:El; [| congruence].
      rewrite (H2 s e El). reflexivity.
    + apply mem_false_In in E.
      destruct (lookup s (sells_init acct)) as [e |] eqn:El; [| reflexivity].
      exfalso. apply E.
      assert (Hk : In s (keys (sells_init acct))).
      { apply lookup_keys. congruence. }
      apply H3 in Hk. destruct Hk as [Hk | []]. exact Hk.
Qed.

(** *** Pass 1 *)

Lemma with_losses_nil (e : Sell) : with_losses e [] = e.
Proof.
  destruct e. unfold with_losses. simpl.
  rewrite app_nil_r, orb_false_r. reflexivity.
Qed.

Lemma with_gains_nil (e : Sell) : with_gains e [] = e.
Proof.
  destruct e. unfold with_gains. simpl.
  rewrite app_nil_r, orb_false_r. reflexivity.
Qed.

Lemma pos_length_app {A : Type} (l1 l2 : list A) :
  (0 <? length (l1 ++ l2))%nat = (0 <? length l1)%nat || (0 <? length l2)%nat.
Proof.
  destruct l1; simpl; [reflexivity | reflexivity].
Qed.

Lemma with_gains_app (e : Sell) (l1 l2 : list Lot) :
  with_gains (with_gains e l1) l2 = with_gains e (l1 ++ l2).
Proof.
  unfold with_gains. simpl.
  rewrite map_app, app_assoc, pos_length_app, orb_assoc. reflexivity.
Qed.

Lemma sell_losses_exact (dns : list (option string)) (rows : list Lot)
    (sells sells' : list (string * Sell)) :
  sell_losses dns rows sells = Ok sells' ->
  keys sells' = keys sells /\
  (forall row, In row rows -> loss_to_sell dns row = true ->
               In (symbol row) (keys sells)) /\
  forall s,
    lookup s sells' =
    option_map
      (fun e => with_losses e (filter (fun r => String.eqb (symbol r) s)
                                      (filter (loss_to_sell dns) rows)))
      (lookup s sells).
Proof.
  revert sells. induction rows as [| row rows IH]; intros sells H.
  - simpl in H. inversion H; subst. split; [reflexivity |].
    split; [intros row [] |].
    intros s. simpl. destruct (lookup s sells') as [e |]; simpl;
      [rewrite with_losses_nil |]; reflexivity.
  - cbn [sell_losses] in H. fold (loss_to_sell dns row) in H.
    cbn [filter]. destruct (loss_to_sell dns row) eqn:Ec.
    + destruct (lookup (symbol row) sells) as [e0 |] eqn:E0; [| discriminate].
      apply IH in H. destruct H as (Hk & Hin & Hl).
      rewrite (keys_dict_set_present _ _ _ _ E0) in Hk, Hin.
      split; [exact Hk |]. split.
      * intros r [<- | Hr] Hc.
        -- apply lookup_keys. congruence.
        -- apply Hin; assumption.
      * intros s. rewrite Hl. cbn [filter].
        destruct (string_dec s (symbol row)) as [-> | Hne].
        -- rewrite lookup_dict_set_eq, E0, String.eqb_refl. simpl.
           f_equal.
           change ({| sell_lots := sell_lots e0 ++ [lot_ref row];
                      sell_loss := true;
                      sell_gain := sell_gain e0;
                      estimated_proceeds := estimated_proceeds e0 |})
             with (with_losses e0 [row]) at 1 || idtac.
           unfold with_losses. simpl.
           rewrite <- app_assoc, orb_true_r. reflexivity.
        -- rewrite lookup_dict_set_neq by exact Hne.
           assert (E : String.eqb (symbol row) s = false).
           { apply String.eqb_neq. congruence. }
           rewrite E. reflexivity.
    + apply IH in H. destruct H as (Hk & Hin & Hl).
      split; [exact Hk |]. split; [| exact Hl].
      intros r [<- | Hr] Hc; [congruence | apply Hin; assumption].
Qed.

(** *** Pass 2 *)

Lemma harvest_loop_le (fuel : nat) (lots : list Lot) (M : Q) (k : nat) :
  harvest_loop fuel lots M 0 = Some k -> (k <= length lots)%nat.
Proof.
  intros H. destruct lots as [| a lots].
  - destruct (Qlt_le_dec 0 M) as [Hpos | Hle].
    + rewrite (harvest_loop_empty M fuel 0 Hpos) in H. discriminate.
    + destruct fuel as [| fuel]; [discriminate |].
      cbn [harvest_loop] in H. unfold harvest_step, cumulative_gain in H.
      rewrite firstn_nil in H. cbn [map Qsum] in H.
      apply Qltb_ge in Hle. rewrite Hle in H. inversion H. simpl. lia.
  - destruct (harvest_loop_from (a :: lots) M (length (a :: lots)) 0)
      as (r & Hr & Hb & _); [simpl; lia | lia |].
    apply (harvest_loop_more_fuel _ _ _ (length (a :: lots))) in H.
    apply (harvest_loop_more_fuel _ _ _ fuel) in Hr.
    rewrite Nat.add_comm in Hr. rewrite H in Hr. inversion Hr. lia.
Qed.

Lemma eligible_not_protected (p : TargetPortfolio)
    (buys : list (string * Buy)) (dns : list (option string))
    (row : Position) :
  eligible_for_gains p buys dns row = Ok true ->
  in_do_not_sell (p_symbol row) dns = false.
Proof.
  unfold eligible_for_gains. intros H. apply bind_ok in H.
  destruct H as (f & _ & H).
  destruct (in_do_not_sell (p_symbol row) dns); [discriminate | reflexivity].
Qed.

Lemma gains_sold_cons (fuel : nat) (p : TargetPortfolio)
    (buys : list (string * Buy)) (dns : list (option string))
    (acct : Account) (M : Q) (row : Position) (rows : list Position)
    (s : string) :
  gains_sold fuel p buys dns acct M (row :: rows) s =
  (if String.eqb (p_symbol row) s then
     match eligible_for_gains p buys dns row with
     | Ok true =>
         match harvest_loop fuel (gaining_lots acct s) M 0 with
         | Some k => lots_sold_for_gain (gaining_lots acct s) k
         | None => []
         end
     | _ => []
     end
   else []) ++ gains_sold fuel p buys dns acct M rows s.
Proof. reflexivity. Qed.

Lemma sell_gains_exact (fuel : nat) (p : TargetPortfolio)
    (buys : list (string * Buy)) (dns : list (option string))
    (acct : Account) (M : Q) (rows : list Position)
    (sells sells' : list (string * Sell)) :
  sell_gains fuel p buys dns acct M rows sells = Some (Ok sells') ->
  keys sells' = keys sells /\
  forall s,
    lookup s sells' =
    option_map
      (fun e => with_gains e (gains_sold fuel p buys dns acct M rows s))
      (lookup s sells).
Proof.
  revert sells. induction rows as [| row rows IH]; intros sells H.
  - simpl in H. inversion H; subst. split; [reflexivity |].
    intros s. simpl. destruct (lookup s sells') as [e |]; simpl;
      [rewrite with_gains_nil |]; reflexivity.
  - cbn [sell_gains] in H.
    destruct (eligible_for_gains p buys dns row) as [[|] | e] eqn:Ee;
      [| | discriminate].
    + destruct (harvest_loop fuel (gaining_lots acct (p_symbol row)) M 0)
        as [k |] eqn:Eh; [| discriminate].
      destruct (lookup (p_symbol row) sells) as [e0 |] eqn:E0;
        [| discriminate].
      apply IH in H. destruct H as (Hk & Hl).
      rewrite (keys_dict_set_present _ _ _ _ E0) in Hk.
      split; [exact Hk |].
      intros s. rewrite Hl, gains_sold_cons, Ee.
      destruct (string_dec s (p_symbol row)) as [-> | Hne].
      * rewrite lookup_dict_set_eq, E0, String.eqb_refl, Eh. simpl.
        f_equal. rewrite <- with_gains_app. f_equal.
        unfold with_gains. f_equal.
        pose proof (harvest_loop_le _ _ _ _ Eh) as Hle.
        unfold lots_sold_for_gain. rewrite length_firstn.
        rewrite Nat.min_l by exact Hle.
        destruct (0 <? k)%nat; [rewrite orb_true_r | rewrite orb_false_r];
          reflexivity.
      * rewrite lookup_dict_set_neq by exact Hne.
        assert (E : String.eqb (p_symbol row) s = false).
        { apply String.eqb_neq. congruence. }
        rewrite E. reflexivity.
    + apply IH in H. destruct H as (Hk & Hl). split; [exact Hk |].
      intros s. rewrite Hl, gains_sold_cons, Ee.
      destruct (String.eqb (p_symbol row) s); reflexivity.
Qed.

(** *** The whole function *)

Lemma keys_filter_NoDup {V : Type} (f : string * V -> bool)
    (d : list (string * V)) :
  NoDup (keys d) -> NoDup (keys (filter f d)).
Proof.
  unfold keys. induction d as [| [k v] d IH]; intros H; [constructor |].
  cbn [map fst] in H. inversion H as [| ? ? Hnot Hnd]; subst.
  cbn [filter]. destruct (f (k, v)).
  - cbn [map fst]. constructor; [| apply IH; exact Hnd].
    intros Hin. apply Hnot. apply in_map_iff in Hin.
    destruct Hin as ([k' v'] & E & Hin). cbn [fst] in E. subst k'.
    apply filter_In in Hin. apply in_map_iff. exists (k, v').
    split; [reflexivity | tauto].
  - apply IH. exact Hnd.
Qed.

Lemma preview_entry (acct : Account) (s : string) (L G : list Lot) :
  preview acct (s, with_gains (with_losses fresh_sell L) G) =
  (s, sold_entry acct L G).
Proof.
  unfold preview, sold_entry, with_gains, with_losses, fresh_sell.
  cbn [fst snd sell_lots sell_loss sell_gain estimated_proceeds app orb].
  rewrite <- map_app. reflexivity.
Qed.

Lemma identify_sells_exact (fuel : nat) (p : TargetPortfolio)
    (buys : list (string * Buy)) (acct : Account) (M : Q)
    (sells : list (string * Sell)) :
  _identify_sells fuel p buys acct M = Some (Ok sells) ->
  NoDup (keys sells) /\
  (forall row, In row (df_lots acct) ->
               loss_to_sell (do_not_sell acct buys) row = true ->
               In (symbol row) (map p_symbol (df_positions acct))) /\
  forall s e,
    In (s, e) sells <->
    In s (map p_symbol (df_positions acct)) /\
    (losses_sold acct (do_not_sell acct buys) s <> [] \/
     gains_sold fuel p buys (do_not_sell acct buys) acct M
                (df_positions acct) s <> []) /\
    e = sold_entry acct
          (losses_sold acct (do_not_sell acct buys) s)
          (gains_sold fuel p buys (do_not_sell acct buys) acct M
                      (df_positions acct) s).
Proof.
  unfold _identify_sells. cbv zeta.
  set (dns := do_not_sell acct buys).
  destruct (sell_losses dns (df_lots acct) (sells_init acct))
    as [sells1 | e1] eqn:E1; [| discriminate].
  destruct (sell_gains fuel p buys dns acct M (df_positions acct) sells1)
    as [[sells2 | e2] |] eqn:E2; try discriminate.
  intros H. inversion H; subst sells. clear H.
  apply sell_losses_exact in E1. destruct E1 as (Hk1 & Hin1 & Hl1).
  apply sell_gains_exact in E2. destruct E2 as (Hk2 & Hl2).
  destruct (sells_init_spec acct) as (Hnd0 & Hl0).
  assert (Hnd2 : NoDup (keys sells2)) by (rewrite Hk2, Hk1; exact Hnd0).
  assert (Hlookup : forall s,
    lookup s sells2 =
    if mem s (map p_symbol (df_positions acct))
    then Some (with_gains (with_losses fresh_sell (losses_sold acct dns s))
                          (gains_sold fuel p buys dns acct M
                                      (df_positions acct) s))
    else None).
  { intros s. rewrite Hl2, Hl1, Hl0.
    destruct (mem s (map p_symbol (df_positions acct))); reflexivity. }
  split; [| split].
  - assert (E : keys (map (preview acct) (filter sold_something sells2)) =
                keys (filter sold_something sells2)).
    { unfold keys. rewrite map_map. reflexivity. }
    rewrite E. apply keys_filter_NoDup. exact Hnd2.
  - intros row Hrow Hc. specialize (Hin1 row Hrow Hc).
    apply lookup_keys in Hin1. rewrite Hl0 in Hin1.
    destruct (mem (symbol row) (map p_symbol (df_positions acct))) eqn:Em;
      [apply mem_In; exact Em | congruence].
  - intros s e. rewrite in_map_iff. split.
    + intros ([s' e2] & Ep & Hf). apply filter_In in Hf.
      destruct Hf as [Hin Hsold].
      assert (s' = s) as ->
        by (unfold preview in Ep; inversion Ep; reflexivity).
      apply (In_lookup _ _ _ Hnd2) in Hin. rewrite Hlookup in Hin.
      destruct (mem s (map p_symbol (df_positions acct))) eqn:Em;
        [| discriminate].
      inversion Hin; subst e2. clear Hin.
      rewrite preview_entry in Ep. inversion Ep; subst e.
      split; [apply mem_In; exact Em |]. split; [| reflexivity].
      unfold sold_something, with_gains, with_losses, fresh_sell in Hsold.
      cbn [snd sell_loss sell_gain orb] in Hsold.
      apply orb_true_iff in Hsold. destruct Hsold as [Hs | Hs].
      * left. intros E. rewrite E in Hs. discriminate.
      * right. intros E. rewrite E in Hs. discriminate.
    + intros (Hs & Hne & ->).
      exists (s, with_gains (with_losses fresh_sell (losses_sold acct dns s))
                            (gains_sold fuel p buys dns acct M
                                        (df_positions acct) s)).
      split; [apply preview_entry |].
      apply filter_In. split.
      * apply lookup_In. rewrite Hlookup.
        apply mem_In in Hs. rewrite Hs. reflexivity.
      * unfold sold_something, with_gains, with_losses, fresh_sell.
        cbn [snd sell_loss sell_gain orb].
        apply orb_true_iff.
        destruct Hne as [Hne | Hne]; [left | right];
          match goal with
          | |- (0 <? length ?l)%nat = true =>
              destruct l; [congruence | reflexivity]
          end.
Qed.

(** *** What is sold *)

Lemma in_do_not_sell_false (acct : Account) (buys : list (string * Buy))
    (s : string) :
  in_do_not_sell s (do_not_sell acct buys) = false <->
  ~ In s (bought (recent_trades acct)) /\
  forall n b, In (n, b) buys -> security b <> Some s.
Proof.
  unfold in_do_not_sell, do_not_sell. split.
  - intros H. split.
    + intros Hin.
      assert (Hex : existsb (fun o => match o with
                                      | Some s' => String.eqb s s'
                                      | None => false
                                      end)
                      (map Some (bought (recent_trades acct)) ++
                       map security (values buys)) = true).
      { apply existsb_exists. exists (Some s). split.
        - apply in_or_app. left. apply in_map. exact Hin.
        - apply String.eqb_refl. }
      congruence.
    + intros n b Hin Hs.
      assert (Hex : existsb (fun o => match o with
                                      | Some s' => String.eqb s s'
                                      | None => false
                                      end)
                      (map Some (bought (recent_trades acct)) ++
                       map security (values buys)) = true).
      { apply existsb_exists. exists (Some s). split.
        - apply in_or_app. right. rewrite <- Hs. apply in_map.
          unfold values. apply in_map_iff. exists (n, b).
          split; [reflexivity | exact Hin].
        - apply String.eqb_refl. }
      congruence.
  - intros [Hb Hbuys]. apply not_true_is_false. intros Hex.
    apply existsb_exists in Hex. destruct Hex as ([s' |] & Hin & E);
      [| discriminate].
    apply String.eqb_eq in E. subst s'. apply in_app_or in Hin.
    destruct Hin as [Hin | Hin].
    + apply in_map_iff in Hin. destruct Hin as (x & Ex & Hx).
      inversion Ex; subst. exact (Hb Hx).
    + apply in_map_iff in Hin. destruct Hin as (b & Eb & Hb').
      unfold values in Hb'. apply in_map_iff in Hb'.
      destruct Hb' as ([n b'] & E' & Hin). cbn [snd] in E'. subst b'.
      exact (Hbuys n b Hin Eb).
Qed.

Lemma firstn_In {A : Type} (k : nat) (l : list A) (x : A) :
  In x (firstn k l) -> In x l.
Proof.
  intros H. rewrite <- (firstn_skipn k l). apply in_or_app. left. exact H.
Qed.

Lemma losses_sold_In (acct : Account) (dns : list (option string))
    (s : string) (lot : Lot) :
  In lot (losses_sold acct dns s) <->
  In lot (df_lots acct) /\ symbol lot = s /\
  in_do_not_sell s dns = false /\ gain lot < 0.
Proof.
  unfold losses_sold. rewrite filter_In, losing_lots_spec, String.eqb_eq.
  split.
  - intros ((H1 & H2 & H3) & <-). auto.
  - intros (H1 & <- & H2 & H3). auto.
Qed.

Lemma gains_sold_In (fuel : nat) (p : TargetPortfolio)
    (buys : list (string * Buy)) (dns : list (option string))
    (acct : Account) (M : Q) (rows : list Position) (s : string)
    (lot : Lot) :
  In lot (gains_sold fuel p buys dns acct M rows s) ->
  In lot (df_lots acct) /\ symbol lot = s /\
  in_do_not_sell s dns = false /\ 0 < gain lot.
Proof.
  unfold gains_sold. rewrite in_flat_map. intros (row & Hrow & Hin).
  destruct (String.eqb (p_symbol row) s) eqn:Es; [| destruct Hin].
  apply String.eqb_eq in Es.
  destruct (eligible_for_gains p buys dns row) as [[|] | e] eqn:Ee;
    try (destruct Hin; fail).
  destruct (harvest_loop fuel (gaining_lots acct s) M 0) as [k |];
    [| destruct Hin].
  apply firstn_In, gaining_lots_In in Hin. destruct Hin as (H1 & H2 & H3).
  apply eligible_not_protected in Ee. rewrite Es in Ee. auto.
Qed.

(** X12: [_identify_sells] never sells a security that was bought in the
    look-back window or that is about to be bought: every security in the
    sells it returns is outside both lists, has at least one lot to sell,
    and each lot listed is a lot of that security in [df_lots], taken with
    its whole quantity, whose gain is not zero. *)
Theorem sells_spare_protected_securities (fuel : nat) (p : TargetPortfolio)
    (buys : list (string * Buy)) (acct : Account) (M : Q)
    (sells : list (string * Sell)) :
  _identify_sells fuel p buys acct M = Some (Ok sells) ->
  NoDup (keys sells) /\
  forall s e, In (s, e) sells ->
    In s (map p_symbol (df_positions acct)) /\
    ~ In s (bought (recent_trades acct)) /\
    (forall n b, In (n, b) buys -> security b <> Some s) /\
    sell_lots e <> [] /\
    forall ref, In ref (sell_lots e) ->
      exists lot, In lot (df_lots acct) /\ symbol lot = s /\
                  ref = {| ref_position_lot_id := position_lot_id lot;
                           ref_quantity := quantity lot |} /\
                  ~ gain lot == 0.
Proof.
  intros H. apply identify_sells_exact in H. destruct H as (Hnd & _ & Hex).
  split; [exact Hnd |].
  intros s e Hin. apply Hex in Hin. destruct Hin as (Hs & Hne & ->).
  set (dns := do_not_sell acct buys) in *.
  set (L := losses_sold acct dns s) in *.
  set (G := gains_sold fuel p buys dns acct M (df_positions acct) s) in *.
  assert (Hsold : forall lot, In lot (L ++ G) ->
            In lot (df_lots acct) /\ symbol lot = s /\
            in_do_not_sell s dns = false /\ ~ gain lot == 0).
  { intros lot Hlot. apply in_app_or in Hlot. destruct Hlot as [Hl | Hg].
    - apply losses_sold_In in Hl. destruct Hl as (H1 & H2 & H3 & H4).
      repeat split; try assumption. lra.
    - apply gains_sold_In in Hg. destruct Hg as (H1 & H2 & H3 & H4).
      repeat split; try assumption. lra. }
  assert (Hsome : exists lot, In lot (L ++ G)).
  { destruct Hne as [Hne | Hne].
    - destruct L as [| lot L']; [congruence |]. exists lot. left. reflexivity.
    - destruct G as [| lot G']; [congruence |]. exists lot.
      apply in_or_app. right. left. reflexivity. }
  split; [exact Hs |].
  destruct Hsome as (lot0 & Hlot0).
  destruct (Hsold lot0 Hlot0) as (_ & _ & Hdns & _).
  apply in_do_not_sell_false in Hdns. destruct Hdns as [Hb Hbuys].
  split; [exact Hb |]. split; [exact Hbuys |]. split.
  - cbn [sold_entry sell_lots]. intros E.
    apply (in_map lot_ref) in Hlot0. rewrite E in Hlot0. destruct Hlot0.
  - intros ref Href. cbn [sold_entry sell_lots] in Href.
    apply in_map_iff in Href. destruct Href as (lot & <- & Hlot).
    destruct (Hsold lot Hlot) as (H1 & H2 & _ & H4).
    exists lot. repeat split; assumption.
Qed.

Lemma sells_spare_protected_securities_witness :
  exists sells,
    _identify_sells 3 Demo.portfolio Demo.buys DemoSells.account 7 =
      Some (Ok sells) /\
    keys sells = ["IVV"; "VIG"; "ORAN"] /\
    forall s e, In (s, e) sells ->
      (forall n b, In (n, b) Demo.buys -> security b <> Some s) /\
      sell_lots e <> [].
Proof.
  destruct (_identify_sells 3 Demo.portfolio Demo.buys DemoSells.account 7)
    as [[sells | e] |] eqn:E;
    [| vm_compute in E; discriminate | vm_compute in E; discriminate].
  exists sells. split; [reflexivity |].
  split; [vm_compute in E; inversion E; reflexivity |].
  destruct (sells_spare_protected_securities _ _ _ _ _ _ E) as (_ & Hall).
  intros s e Hin. destruct (Hall s e Hin) as (_ & _ & Hbuys & Hne & _).
  split; assumption.
Defined.

(** X13: Every losing lot of a security that is neither protected by a recent
    purchase nor about to be bought is sold: it is listed under its
    security, which is flagged [sell_loss]. *)
Theorem every_unprotected_loss_is_sold (fuel : nat) (p : TargetPortfolio)
    (buys : list (string * Buy)) (acct : Account) (M : Q)
    (sells : list (string * Sell)) (lot : Lot) :
  _identify_sells fuel p buys acct M = Some (Ok sells) ->
  In lot (df_lots acct) ->
  gain lot < 0 ->
  ~ In (symbol lot) (bought (recent_trades acct)) ->
  (forall n b, In (n, b) buys -> security b <> Some (symbol lot)) ->
  exists e,
    In (symbol lot, e) sells /\
    lookup (symbol lot) sells = Some e /\
    sell_loss e = true /\
    In {| ref_position_lot_id := position_lot_id lot;
          ref_quantity := quantity lot |} (sell_lots e).
Proof.
  intros H Hlot Hgain Hb Hbuys.
  apply identify_sells_exact in H. destruct H as (Hnd & Hpos & Hex).
  set (dns := do_not_sell acct buys) in *.
  assert (Hdns : in_do_not_sell (symbol lot) dns = false).
  { apply in_do_not_sell_false. split; assumption. }
  assert (HL : In lot (losses_sold acct dns (symbol lot))).
  { apply losses_sold_In. auto. }
  assert (Hin : In (symbol lot,
                    sold_entry acct (losses_sold acct dns (symbol lot))
                      (gains_sold fuel p buys dns acct M (df_positions acct)
                                  (symbol lot))) sells).
  { apply Hex. split; [| split; [| reflexivity]].
    - apply Hpos; [exact Hlot |]. unfold loss_to_sell.
      fold dns. rewrite Hdns. apply Qltb_lt in Hgain. rewrite Hgain.
      reflexivity.
    - left. intros E. rewrite E in HL. destruct HL. }
  eexists. split; [exact Hin |]. split; [apply In_lookup; assumption |].
  split.
  - cbn [sold_entry sell_loss].
    destruct (losses_sold acct dns (symbol lot)); [destruct HL | reflexivity].
  - cbn [sold_entry sell_lots]. rewrite map_app. apply in_or_app. left.
    apply (in_map lot_ref) in HL. exact HL.
Qed.

Lemma every_unprotected_loss_is_sold_witness :
  exists e,
    lookup "ORAN" (match _identify_sells 3 Demo.portfolio Demo.buys
                           DemoSells.account 7 with
                   | Some (Ok sells) => sells
                   | _ => []
                   end) = Some e /\
    sell_loss e = true.
Proof.
  destruct (_identify_sells 3 Demo.portfolio Demo.buys DemoSells.account 7)
    as [[sells | e] |] eqn:E;
    [| vm_compute in E; discriminate | vm_compute in E; discriminate].
  destruct (every_unprotected_loss_is_sold
              3 Demo.portfolio Demo.buys DemoSells.account 7 sells
              {| position_lot_id := "5"; symbol := "ORAN"; quantity := 8;
                 market_value := 80; gain := - (20) |} E)
    as (e & _ & Hl & Hloss & _).
  - simpl. tauto.
  - reflexivity.
  - simpl. tauto.
  - intros n b [Hb | [Hb | []]]; inversion Hb; subst; discriminate.
  - exists e. split; [exact Hl | exact Hloss].
Defined.

(** *** Without an allowance for gains *)

Lemma harvest_loop_nonpos (fuel : nat) (acct : Account) (s : string) (M : Q) :
  M <= 0 -> harvest_loop (S fuel) (gaining_lots acct s) M 0 = Some 0%nat.
Proof.
  intros HM. cbn [harvest_loop]. unfold harvest_step, cumulative_gain.
  assert (Hge : M <= Qsum (map gain (firstn (0 + 1) (gaining_lots acct s)))).
  { destruct (gaining_lots acct s) as [| a l] eqn:E.
    - simpl. exact HM.
    - assert (Ha : In a (gaining_lots acct s))
        by (rewrite E; left; reflexivity).
      apply gaining_lots_In in Ha. destruct Ha as (_ & _ & Ha).
      cbn [Nat.add firstn map Qsum]. lra. }
  apply Qltb_ge in Hge. rewrite Hge. reflexivity.
Qed.

Lemma gains_sold_nonpos (fuel : nat) (p : TargetPortfolio)
    (buys : list (string * Buy)) (dns : list (option string))
    (acct : Account) (M : Q) (rows : list Position) (s : string) :
  M <= 0 -> gains_sold fuel p buys dns acct M rows s = [].
Proof.
  intros HM. induction rows as [| row rows IH]; [reflexivity |].
  rewrite gains_sold_cons, IH, app_nil_r.
  destruct (String.eqb (p_symbol row) s); [| reflexivity].
  destruct (eligible_for_gains p buys dns row) as [[|] | e]; try reflexivity.
  destruct fuel as [| fuel]; [reflexivity |].
  rewrite (harvest_loop_nonpos fuel acct s M HM). reflexivity.
Qed.

Lemma sell_gains_nonpos (fuel : nat) (p : TargetPortfolio)
    (buys : list (string * Buy)) (dns : list (option string))
    (acct : Account) (M : Q) (rows : list Position)
    (sells : list (string * Sell)) :
  M <= 0 -> sell_gains (S fuel) p buys dns acct M rows sells <> None.
Proof.
  intros HM. revert sells. induction rows as [| row rows IH]; intros sells.
  - discriminate.
  - cbn [sell_gains].
    destruct (eligible_for_gains p buys dns row) as [[|] | e];
      [| apply IH | discriminate].
    rewrite (harvest_loop_nonpos fuel acct (p_symbol row) M HM).
    destruct (lookup (p_symbol row) sells); [apply IH | discriminate].
Qed.

(** X14: With [MAX_GAIN_TO_SELL <= 0] the harvest loops stop at their first
    test: [_identify_sells] always comes to an end, and what it sells are
    exactly the unprotected losing lots, no security being flagged
    [sell_gain]. *)
Theorem no_allowance_sells_losses_only (p : TargetPortfolio)
    (buys : list (string * Buy)) (acct : Account) (M : Q) :
  M <= 0 ->
  (forall fuel, _identify_sells (S fuel) p buys acct M <> None) /\
  forall fuel sells,
    _identify_sells fuel p buys acct M = Some (Ok sells) ->
    forall s e, In (s, e) sells ->
      sell_gain e = false /\ sell_loss e = true /\
      sell_lots e =
        map lot_ref (filter (fun r => String.eqb (symbol r) s)
                            (losing_lots acct (do_not_sell acct buys))) /\
      forall r, In r (sell_lots e) ->
        exists lot, In lot (df_lots acct) /\ lot_ref lot = r /\ gain lot < 0.
Proof.
  intros HM. split.
  - intros fuel. unfold _identify_sells. cbv zeta.
    destruct (sell_losses _ _ _) as [sells1 | e1]; [| discriminate].
    pose proof (sell_gains_nonpos fuel p buys (do_not_sell acct buys) acct M
                  (df_positions acct) sells1 HM) as Hn.
    destruct (sell_gains _ _ _ _ _ _ _ _) as [[sells2 | e2] |];
      [discriminate | discriminate | congruence].
  - intros fuel sells H s e Hin.
    apply identify_sells_exact in H. destruct H as (_ & _ & Hex).
    apply Hex in Hin. destruct Hin as (_ & Hne & ->).
    rewrite (gains_sold_nonpos fuel p buys _ acct M _ s HM) in *.
    unfold sold_entry. rewrite !app_nil_r.
    cbn [sell_gain sell_loss sell_lots length].
    split; [reflexivity |]. split; [| split].
    + destruct Hne as [Hne | Hne]; [| congruence].
      destruct (losses_sold acct (do_not_sell acct buys) s);
        [congruence | reflexivity].
    + reflexivity.
    + intros r Hr. apply in_map_iff in Hr. destruct Hr as (lot & <- & Hlot).
      apply losses_sold_In in Hlot. destruct Hlot as (H1 & _ & _ & H4).
      exists lot. auto.
Qed.

Lemma no_allowance_sells_losses_only_witness :
  exists sells,
    _identify_sells 1 Demo.portfolio Demo.buys Demo.account 0 =
      Some (Ok sells) /\
    forall s e, In (s, e) sells -> sell_gain e = false.
Proof.
  destruct (no_allowance_sells_losses_only Demo.portfolio Demo.buys
              Demo.account 0) as (Hends & Honly).
  - apply Qle_refl.
  - destruct (_identify_sells 1 Demo.portfolio Demo.buys Demo.account 0)
      as [[sells | e] |] eqn:E.
    + exists sells. split; [reflexivity |].
      intros s e Hin. destruct (Honly 1%nat sells E s e Hin) as (Hg & _).
      exact Hg.
    + vm_compute in E. discriminate.
    + exfalso. exact (Hends 0%nat E).
Defined.

(** *** A pinned buy without badness score *)

Lemma sell_gains_raises (fuel : nat) (p : TargetPortfolio)
    (buys : list (string * Buy)) (dns : list (option string))
    (acct : Account) (M : Q) (rows : list Position)
    (sells sells' : list (string * Sell)) (row : Position) (e : exn) :
  In row rows ->
  eligible_for_gains p buys dns row = Raise e ->
  sell_gains fuel p buys dns acct M rows sells <> Some (Ok sells').
Proof.
  intros Hin He. revert sells. induction rows as [| r rows IH]; intros sells;
    [destruct Hin |].
  cbn [sell_gains]. destruct Hin as [-> | Hin].
  - rewrite He. discriminate.
  - destruct (eligible_for_gains p buys dns r) as [[|] | e'];
      [| apply IH; exact Hin | discriminate].
    destruct (harvest_loop _ _ _ _); [| discriminate].
    destruct (lookup _ _); [apply IH; exact Hin | discriminate].
Qed.

(** X15: When the buy of an asset class carries no badness score (a security
    without score pinned through [forced_buys]) and the account holds an
    unprotected security of that class that has a score, the comparison
    of the two in pass 2 is a [TypeError], and [_identify_sells] does not
    return any sells. *)
Theorem unscored_pinned_buy_blocks_the_sells (p : TargetPortfolio)
    (buys : list (string * Buy)) (acct : Account) (M : Q)
    (row : Position) (n x : string) (q : Q) :
  In row (df_positions acct) ->
  find_security p (p_symbol row) =
    Ok {| assetclass := n; badness := Some q |} ->
  n <> OTHER_NAME ->
  lookup n buys = Some {| security := Some x; buy_badness := None |} ->
  ~ In (p_symbol row) (bought (recent_trades acct)) ->
  (forall n' b, In (n', b) buys -> security b <> Some (p_symbol row)) ->
  eligible_for_gains p buys (do_not_sell acct buys) row = Raise TypeError /\
  forall fuel sells,
    _identify_sells fuel p buys acct M <> Some (Ok sells).
Proof.
  intros Hrow Hfind Hn Hbuy Hb Hbuys.
  assert (Hdns : in_do_not_sell (p_symbol row) (do_not_sell acct buys) = false).
  { apply in_do_not_sell_false. split; assumption. }
  assert (He : eligible_for_gains p buys (do_not_sell acct buys) row =
               Raise TypeError).
  { unfold eligible_for_gains. rewrite Hfind. cbn [bind].
    rewrite Hdns. cbn [assetclass badness].
    apply String.eqb_neq in Hn. rewrite Hn, Hbuy. reflexivity. }
  split; [exact He |].
  intros fuel sells. unfold _identify_sells. cbv zeta.
  destruct (sell_losses _ _ _) as [sells1 | e1]; [| discriminate].
  pose proof (sell_gains_raises fuel p buys (do_not_sell acct buys) acct M
                (df_positions acct) sells1) as Hr.
  destruct (sell_gains _ _ _ _ _ _ _ _) as [[sells2 | e2] |];
    [| discriminate | discriminate].
  exfalso. exact (Hr sells2 row TypeError Hrow He eq_refl).
Qed.

Lemma unscored_pinned_buy_blocks_the_sells_witness :
  init_buys Demo.portfolio [("Stocks", Some "IWB")] DemoSells.account 0 =
    Ok DemoSells.buys_pinned /\
  forall fuel sells,
    _identify_sells fuel Demo.portfolio DemoSells.buys_pinned
                    DemoSells.account 7 <> Some (Ok sells).
Proof.
  split; [reflexivity |].
  destruct (unscored_pinned_buy_blocks_the_sells
              Demo.portfolio DemoSells.buys_pinned DemoSells.account 7
              {| p_symbol := "IVV"; p_market_value := 4000;
                 lots_loss := - (500); lots_gain := 0 |}
              "Stocks" "IWB" 1) as (_ & H).
  - left. reflexivity.
  - reflexivity.
  - discriminate.
  - reflexivity.
  - simpl. tauto.
  - intros n b [Hb | [Hb | []]]; inversion Hb; subst; discriminate.
  - exact H.
Defined.

(** *** The estimated proceeds *)

Lemma Qsum_perm (l l' : list Q) : Permutation l l' -> Qsum l == Qsum l'.
Proof.
  induction 1; simpl; lra.
Qed.

Lemma NoDup_map_inj {A B : Type} (f : A -> B) (l : list A) (x y : A) :
  NoDup (map f l) -> In x l -> In y l -> f x = f y -> x = y.
Proof.
  induction l as [| a l IH]; intros Hnd Hx Hy E; [destruct Hx |].
  cbn [map] in Hnd. inversion Hnd as [| ? ? Hnot Hnd']; subst.
  destruct Hx as [-> | Hx]; destruct Hy as [-> | Hy].
  - reflexivity.
  - exfalso. apply Hnot. rewrite E. apply in_map. exact Hy.
  - exfalso. apply Hnot. rewrite <- E. apply in_map. exact Hx.
  - apply IH; assumption.
Qed.

Lemma NoDup_firstn {A : Type} (k : nat) (l : list A) :
  NoDup l -> NoDup (firstn k l).
Proof.
  intros H. rewrite <- (firstn_skipn k l) in H.
  apply NoDup_app_remove_r in H. exact H.
Qed.

(** [isin] on unique lot ids selects the lots listed, each once. *)
Lemma isin_filter_perm (D L : list Lot) :
  NoDup (map position_lot_id D) -> NoDup L -> incl L D ->
  Permutation
    (filter (fun r => mem (position_lot_id r)
                          (map ref_position_lot_id (map lot_ref L))) D)
    L.
Proof.
  intros HD HL Hincl.
  assert (Eids : map ref_position_lot_id (map lot_ref L) =
                 map position_lot_id L).
  { rewrite map_map. reflexivity. }
  rewrite Eids. apply NoDup_Permutation.
  - apply NoDup_filter. apply NoDup_map_inv in HD. exact HD.
  - exact HL.
  - intros x. rewrite filter_In, mem_In, in_map_iff. split.
    + intros (Hx & y & E & Hy).
      assert (y = x) as <-.
      { apply (NoDup_map_inj position_lot_id D); auto. }
      exact Hy.
    + intros Hx. split; [apply Hincl; exact Hx |].
      exists x. split; [reflexivity | exact Hx].
Qed.

Lemma gains_sold_absent (fuel : nat) (p : TargetPortfolio)
    (buys : list (string * Buy)) (dns : list (option string))
    (acct : Account) (M : Q) (rows : list Position) (s : string) :
  ~ In s (map p_symbol rows) ->
  gains_sold fuel p buys dns acct M rows s = [].
Proof.
  induction rows as [| row rows IH]; intros H; [reflexivity |].
  rewrite gains_sold_cons, IH.
  - assert (E : String.eqb (p_symbol row) s = false).
    { apply String.eqb_neq. intros E. apply H. left. exact E. }
    rewrite E. reflexivity.
  - intros Hin. apply H. right. exact Hin.
Qed.

Lemma gains_sold_prefix (fuel : nat) (p : TargetPortfolio)
    (buys : list (string * Buy)) (dns : list (option string))
    (acct : Account) (M : Q) (rows : list Position) (s : string) :
  NoDup (map p_symbol rows) ->
  exists k, gains_sold fuel p buys dns acct M rows s =
            firstn k (gaining_lots acct s).
Proof.
  induction rows as [| row rows IH]; intros H.
  - exists 0%nat. reflexivity.
  - cbn [map] in H. inversion H as [| ? ? Hnot Hnd]; subst.
    rewrite gains_sold_cons.
    destruct (String.eqb (p_symbol row) s) eqn:E.
    + apply String.eqb_eq in E. subst s.
      rewrite (gains_sold_absent _ _ _ _ _ _ _ _ Hnot), app_nil_r.
      destruct (eligible_for_gains p buys dns row) as [[|] | e];
        try (exists 0%nat; reflexivity).
      destruct (harvest_loop _ _ _ _) as [k |];
        [exists k; reflexivity | exists 0%nat; reflexivity].
    + apply IH. exact Hnd.
Qed.

(** X16: With lot ids that identify the lots and one position row per symbol,
    the proceeds estimated for a security are the market value of the lots
    listed for it, each of which is listed once. *)
Theorem estimated_proceeds_are_value_of_lots_sold (fuel : nat)
    (p : TargetPortfolio) (buys : list (string * Buy)) (acct : Account)
    (M : Q) (sells : list (string * Sell)) (s : string) (e : Sell) :
  NoDup (map position_lot_id (df_lots acct)) ->
  NoDup (map p_symbol (df_positions acct)) ->
  _identify_sells fuel p buys acct M = Some (Ok sells) ->
  In (s, e) sells ->
  exists L v,
    sell_lots e = map lot_ref L /\
    NoDup (map position_lot_id L) /\
    (forall lot, In lot L -> In lot (df_lots acct) /\ symbol lot = s) /\
    estimated_proceeds e = Some v /\
    v == Qsum (map market_value L).
Proof.
  intros Hids Hsyms H Hin.
  apply identify_sells_exact in H. destruct H as (_ & _ & Hex).
  apply Hex in Hin. destruct Hin as (_ & _ & ->).
  set (dns := do_not_sell acct buys) in *.
  set (Ls := losses_sold acct dns s).
  set (Gs := gains_sold fuel p buys dns acct M (df_positions acct) s).
  assert (HD : NoDup (df_lots acct))
    by (apply NoDup_map_inv in Hids; exact Hids).
  assert (Hin : forall lot, In lot (Ls ++ Gs) ->
                            In lot (df_lots acct) /\ symbol lot = s).
  { intros lot Hlot. apply in_app_or in Hlot. destruct Hlot as [Hl | Hg].
    - apply losses_sold_In in Hl. tauto.
    - apply gains_sold_In in Hg. tauto. }
  assert (HL : NoDup (Ls ++ Gs)).
  { apply NoDup_app.
    - unfold Ls, losses_sold, losing_lots. apply NoDup_filter, NoDup_filter.
      exact HD.
    - destruct (gains_sold_prefix fuel p buys dns acct M (df_positions acct)
                                  s Hsyms) as (k & Ek).
      fold Gs in Ek. rewrite Ek. apply NoDup_firstn.
      unfold gaining_lots.
      apply (Permutation_NoDup (Permutation_sym (sorted_perm gain _))).
      apply NoDup_filter. exact HD.
    - intros lot Hl Hg. apply losses_sold_In in Hl. apply gains_sold_In in Hg.
      destruct Hl as (_ & _ & _ & Hl). destruct Hg as (_ & _ & _ & Hg). lra. }
  exists (Ls ++ Gs). eexists.
  split; [reflexivity |]. split; [| split; [exact Hin |]].
  - apply Finite.Injective_map_NoDup_in; [| exact HL].
    intros x y Hx Hy E.
    apply (NoDup_map_inj position_lot_id (df_lots acct)); auto.
    + apply Hin. exact Hx.
    + apply Hin. exact Hy.
  - split; [reflexivity |].
    apply Qsum_perm. apply Permutation_map.
    apply isin_filter_perm; [exact Hids | exact HL |].
    intros lot Hlot. apply Hin. exact Hlot.
Qed.

Lemma estimated_proceeds_are_value_of_lots_sold_witness :
  exists sells e L v,
    _identify_sells 3 Demo.portfolio Demo.buys DemoSells.account 7 =
      Some (Ok sells) /\
    In ("ORAN", e) sells /\
    sell_lots e = map lot_ref L /\
    estimated_proceeds e = Some v /\
    v == Qsum (map market_value L).
Proof.
  destruct (_identify_sells 3 Demo.portfolio Demo.buys DemoSells.account 7)
    as [[sells | e] |] eqn:E;
    [| vm_compute in E; discriminate | vm_compute in E; discriminate].
  assert (Hin : exists e, In ("ORAN", e) sells).
  { vm_compute in E. inversion E. eexists. right. right. left. reflexivity. }
  destruct Hin as (e & Hin).
  destruct (estimated_proceeds_are_value_of_lots_sold
              3 Demo.portfolio Demo.buys DemoSells.account 7 sells "ORAN" e)
    as (L & v & Hl & _ & _ & Hv & Hsum).
  - repeat constructor; simpl; intuition discriminate.
  - repeat constructor; simpl; intuition discriminate.
  - exact E.
  - exact Hin.
  - exists sells, e, L, v. repeat split; assumption.
Defined.

(** *** Whether the function comes to an end *)

Lemma gaining_lots_length (acct : Account) (s : string) :
  (length (gaining_lots acct s) <= length (df_lots acct))%nat.
Proof.
  unfold gaining_lots.
  rewrite (Permutation_length (sorted_perm gain _)).
  apply filter_length_le.
Qed.

Lemma sell_losses_ok (dns : list (option string)) (rows : list Lot)
    (sells : list (string * Sell)) :
  (forall row, In row rows -> In (symbol row) (keys sells)) ->
  exists sells', sell_losses dns rows sells = Ok sells'.
Proof.
  revert sells. induction rows as [| row rows IH]; intros sells H.
  - exists sells. reflexivity.
  - cbn [sell_losses].
    destruct (negb (in_do_not_sell (symbol row) dns) && Qltb (gain row) 0).
    + pose proof (H row (or_introl eq_refl)) as Hk. apply lookup_keys in Hk.
      destruct (lookup (symbol row) sells) as [e |] eqn:El; [| congruence].
      apply IH. intros r Hr.
      rewrite (keys_dict_set_present _ _ _ _ El). apply H. right. exact Hr.
    + apply IH. intros r Hr. apply H. right. exact Hr.
Qed.

Lemma sell_gains_ends (p : TargetPortfolio) (buys : list (string * Buy))
    (dns : list (option string)) (acct : Account) (M : Q)
    (rows : list Position) (sells : list (string * Sell)) :
  0 <= M ->
  (forall row, In row rows ->
     eligible_for_gains p buys dns row = Ok true ->
     gaining_lots acct (p_symbol row) <> []) ->
  exists r, forall fuel, (length (df_lots acct) <= fuel)%nat ->
    sell_gains fuel p buys dns acct M rows sells = Some r.
Proof.
  intros HM. revert sells. induction rows as [| row rows IH]; intros sells H.
  - exists (Ok sells). reflexivity.
  - assert (Hrest : forall sells', exists r, forall fuel,
              (length (df_lots acct) <= fuel)%nat ->
              sell_gains fuel p buys dns acct M rows sells' = Some r).
    { intros sells'. apply IH. intros r Hr. apply H. right. exact Hr. }
    cbn [sell_gains].
    destruct (eligible_for_gains p buys dns row) as [[|] | e] eqn:Ee.
    + destruct (harvest_loop_ends (gaining_lots acct (p_symbol row)) M
                  (H row (or_introl eq_refl) Ee) HM) as (k & Hk & _).
      destruct (lookup (p_symbol row) sells) as [e0 |] eqn:E0.
      * destruct (Hrest (dict_set (p_symbol row)
                   {| sell_lots := sell_lots e0 ++
                        map lot_ref (lots_sold_for_gain
                                       (gaining_lots acct (p_symbol row)) k);
                      sell_loss := sell_loss e0;
                      sell_gain := if (0 <? k)%nat then true else sell_gain e0;
                      estimated_proceeds := estimated_proceeds e0 |} sells))
          as (r & Hr).
        exists r. intros fuel Hf. cbv zeta. rewrite Hk.
        -- apply Hr. exact Hf.
        -- pose proof (gaining_lots_length acct (p_symbol row)). lia.
      * exists (Raise KeyError). intros fuel Hf. cbv zeta. rewrite Hk.
        -- reflexivity.
        -- pose proof (gaining_lots_length acct (p_symbol row)). lia.
    + apply Hrest.
    + exists (Raise e). reflexivity.
Qed.

Lemma sell_gains_diverges (fuel : nat) (p : TargetPortfolio)
    (buys : list (string * Buy)) (dns : list (option string))
    (acct : Account) (M : Q) (rows : list Position)
    (sells : list (string * Sell)) :
  0 < M ->
  (forall row, In row rows -> In (p_symbol row) (keys sells)) ->
  (forall row, In row rows ->
     exists b, eligible_for_gains p buys dns row = Ok b) ->
  (exists row, In row rows /\
     eligible_for_gains p buys dns row = Ok true /\
     gaining_lots acct (p_symbol row) = []) ->
  sell_gains fuel p buys dns acct M rows sells = None.
Proof.
  intros HM. revert sells. induction rows as [| row rows IH];
    intros sells Hkeys Hel (bad & Hin & Hbad & Hnone); [destruct Hin |].
  cbn [sell_gains]. cbv zeta.
  destruct (Hel row (or_introl eq_refl)) as (b & Eb). rewrite Eb.
  assert (Hrest : In bad rows ->
            forall sells', keys sells' = keys sells ->
            sell_gains fuel p buys dns acct M rows sells' = None).
  { intros Hin' sells' Hk. apply IH.
    - intros r Hr. rewrite Hk. apply Hkeys. right. exact Hr.
    - intros r Hr. apply Hel. right. exact Hr.
    - exists bad. auto. }
  destruct b.
  - destruct (harvest_loop fuel (gaining_lots acct (p_symbol row)) M 0)
      as [k |] eqn:Eh; [| reflexivity].
    destruct Hin as [<- | Hin].
    + rewrite Hnone in Eh. rewrite (harvest_loop_empty M fuel 0 HM) in Eh.
      discriminate.
    + pose proof (Hkeys row (or_introl eq_refl)) as Hk.
      apply lookup_keys in Hk.
      destruct (lookup (p_symbol row) sells) as [e0 |] eqn:E0; [| congruence].
      apply Hrest; [exact Hin |].
      apply (keys_dict_set_present _ _ _ _ E0).
  - destruct Hin as [<- | Hin]; [congruence |].
    apply Hrest; [exact Hin | reflexivity].
Qed.

(** X17: Whether [_identify_sells] comes to an end is decided by the winning
    lots.  With [MAX_GAIN_TO_SELL >= 0], if every position that passes the
    three tests of pass 2 has a winning lot, the function ends, with the
    same result for every bound on the loops above the number of lots.
    With [MAX_GAIN_TO_SELL > 0], if the lots all belong to listed
    positions, no test of pass 2 raises, and some position that passes
    them has no winning lot, the function never ends. *)
Theorem identify_sells_ends_or_runs_forever (p : TargetPortfolio)
    (buys : list (string * Buy)) (acct : Account) (M : Q) :
  (0 <= M ->
   (forall row, In row (df_positions acct) ->
      eligible_for_gains p buys (do_not_sell acct buys) row = Ok true ->
      gaining_lots acct (p_symbol row) <> []) ->
   exists r, forall fuel, (length (df_lots acct) <= fuel)%nat ->
     _identify_sells fuel p buys acct M = Some r) /\
  (0 < M ->
   (forall lot, In lot (df_lots acct) ->
      In (symbol lot) (map p_symbol (df_positions acct))) ->
   (forall row, In row (df_positions acct) ->
      exists b, eligible_for_gains p buys (do_not_sell acct buys) row = Ok b) ->
   (exists row, In row (df_positions acct) /\
      eligible_for_gains p buys (do_not_sell acct buys) row = Ok true /\
      gaining_lots acct (p_symbol row) = []) ->
   forall fuel, _identify_sells fuel p buys acct M = None).
Proof.
  assert (Hkeys : forall s, In s (keys (sells_init acct)) <->
                            In s (map p_symbol (df_positions acct))).
  { intros s. destruct (sells_init_spec acct) as (_ & Hl).
    rewrite lookup_keys, Hl, <- mem_In.
    destruct (mem s (map p_symbol (df_positions acct)));
      intuition congruence. }
  split.
  - intros HM Hwin. unfold _identify_sells. cbv zeta.
    destruct (sell_losses _ (df_lots acct) (sells_init acct))
      as [sells1 | e1]; [| exists (Raise e1); reflexivity].
    destruct (sell_gains_ends p buys (do_not_sell acct buys) acct M
                (df_positions acct) sells1 HM Hwin) as (r & Hr).
    destruct r as [sells2 | e2].
    + eexists. intros fuel Hf. rewrite (Hr fuel Hf). reflexivity.
    + exists (Raise e2). intros fuel Hf. rewrite (Hr fuel Hf). reflexivity.
  - intros HM Hlots Hel Hbad fuel. unfold _identify_sells. cbv zeta.
    destruct (sell_losses_ok (do_not_sell acct buys) (df_lots acct)
                (sells_init acct)) as (sells1 & E1).
    { intros lot Hlot. apply Hkeys. apply Hlots. exact Hlot. }
    rewrite E1.
    rewrite (sell_gains_diverges fuel p buys (do_not_sell acct buys) acct M
               (df_positions acct) sells1 HM); [reflexivity | | exact Hel
                                                | exact Hbad].
    intros row Hrow. apply sell_losses_exact in E1.
    destruct E1 as (Hk & _). rewrite Hk. apply Hkeys.
    apply in_map. exact Hrow.
Qed.

Lemma identify_sells_ends_or_runs_forever_witness :
  (exists r, forall fuel, (6 <= fuel)%nat ->
     _identify_sells fuel Demo.portfolio Demo.buys DemoSells.account 7 =
       Some r) /\
  forall fuel,
    _identify_sells fuel Demo.portfolio Demo.buys Demo.account 7 = None.
Proof.
  split.
  - destruct (identify_sells_ends_or_runs_forever Demo.portfolio Demo.buys
                DemoSells.account 7) as (Hends & _).
    apply Hends.
    + discriminate.
    + intros row [<- | [<- | [<- | [<- | []]]]] He; vm_compute in He;
        try discriminate; vm_compute; discriminate.
  - destruct (identify_sells_ends_or_runs_forever Demo.portfolio Demo.buys
                Demo.account 7) as (_ & Hruns).
    apply Hruns.
    + reflexivity.
    + intros lot [<- | [<- | [<- | [<- | [<- | []]]]]]; simpl; tauto.
    + intros row [<- | [<- | [<- | [<- | []]]]]; eexists; vm_compute;
        reflexivity.
    + exists Demo.oran. split; [simpl; tauto |]. split; reflexivity.
Defined.

(** ** Whole shares *)

Lemma py_int_floor (q : Q) :
  0 <= q -> (0 <= py_int q)%Z /\
            inject_Z (py_int q) <= q /\ q < inject_Z (py_int q) + 1.
Proof.
  intros Hq. destruct q as [n d]. unfold py_int. cbn [Qnum Qden].
  assert (Hn : (0 <= n)%Z).
  { unfold Qle in Hq. simpl in Hq. lia. }
  rewrite Z.quot_div_nonneg by lia.
  pose proof (Z.mul_div_le n (Z.pos d) ltac:(lia)) as Hle.
  pose proof (Z.mul_succ_div_gt n (Z.pos d) ltac:(lia)) as Hgt.
  split; [apply Z.div_pos; lia |]. split.
  - unfold Qle, inject_Z. cbn [Qnum Qden]. lia.
  - change 1 with (inject_Z 1). rewrite <- inject_Z_plus.
    unfold Qlt, inject_Z. cbn [Qnum Qden]. lia.
Qed.

Lemma whole_shares_bounds (t c : Q) :
  0 <= t -> 0 < c ->
  (0 <= py_int (t / c))%Z /\
  inject_Z (py_int (t / c)) * c <= t /\
  t < inject_Z (py_int (t / c)) * c + c.
Proof.
  intros Ht Hc.
  assert (Hq : 0 <= t / c).
  { apply Qle_shift_div_l; [exact Hc | lra]. }
  destruct (py_int_floor (t / c) Hq) as (H0 & Hle & Hlt).
  split; [exact H0 |].
  assert (E : t == t / c * c) by (field; lra).
  split.
  - rewrite E at 2. apply Qmult_le_compat_r; [exact Hle | lra].
  - rewrite E at 1.
    setoid_replace (inject_Z (py_int (t / c)) * c + c)
      with ((inject_Z (py_int (t / c)) + 1) * c) by ring.
    apply Qmult_lt_compat_r; assumption.
Qed.

(** X18: Rounding down to whole shares: for a target buy that is not negative
    and a positive price, the quantity bought is a natural number, the
    amount spent does not exceed the target buy, and it falls short of it
    by less than the price of one share. *)
Theorem whole_shares_stay_within_target (t c : Q) :
  0 <= t -> 0 < c ->
  exists n v,
    buy_quantity (Some t) (Some c) = Some n /\
    expected_buy (Some t) (Some c) = Some v /\
    (0 <= n)%Z /\
    v == inject_Z n * c /\
    0 <= v /\ v <= t /\ t - v < c.
Proof.
  intros Ht Hc. destruct (whole_shares_bounds t c Ht Hc) as (H0 & Hle & Hlt).
  exists (py_int (t / c)), (inject_Z (py_int (t / c)) * c).
  split; [reflexivity |]. split; [reflexivity |].
  split; [exact H0 |]. split; [reflexivity |].
  split; [| split; [exact Hle | lra]].
  apply Qmult_le_0_compat; [| lra].
  change 0 with (inject_Z 0). rewrite <- Zle_Qle. exact H0.
Qed.

Lemma whole_shares_stay_within_target_witness :
  exists n v,
    buy_quantity (Some 1000) (Some (35 # 1)) = Some n /\
    expected_buy (Some 1000) (Some (35 # 1)) = Some v /\
    n = 28%Z /\ v <= 1000 /\ 1000 - v < 35 # 1.
Proof.
  destruct (whole_shares_stay_within_target 1000 (35 # 1))
    as (n & v & Hn & Hv & _ & _ & _ & Hle & Hlt).
  - discriminate.
  - reflexivity.
  - exists n, v. split; [exact Hn |]. split; [exact Hv |].
    split; [| split; assumption].
    vm_compute in Hn. inversion Hn. reflexivity.
Defined.

(** *** The cash left after the purchases *)






(** ** Prices without a connection *)

Lemma find_in_cases (s : string) (items : list (string * TargetAssetclass)) :
  (exists a, In (assetclass (find_in s items), a) items /\
             In s (securities a None)) \/
  find_in s items = {| assetclass := OTHER_NAME; badness := None |}.
Proof.
  induction items as [| [n a] items IH]; simpl; [right; reflexivity |].
  destruct (mem s (securities a None)) eqn:E.
  - left. exists a. split; [left; reflexivity | apply mem_In; exact E].
  - destruct IH as [(a' & Hin & Hs) | IH]; [left | right; exact IH].
    exists a'. split; [right; exact Hin | exact Hs].
Qed.

Lemma has_score_listed (a : TargetAssetclass) (s : string) :
  has_score a s -> In s (securities a None).
Proof.
  intros (q & Hq). unfold securities. apply in_map_iff.
  exists (s, Some q). split; [reflexivity |].
  apply filter_In. split; [exact Hq | reflexivity].
Qed.

(** Whatever is bought is a security of the target portfolio. *)
Lemma buys_are_listed (p : TargetPortfolio)
    (fb : list (string * option string)) (acct : Account) (M : Q)
    (buys : list (string * Buy)) (n s : string) (b : Buy) :
  ~ In OTHER_NAME (keys (_target_assetclasses p)) ->
  init_buys p fb acct M = Ok buys ->
  In (n, b) buys -> security b = Some s ->
  exists n' a, In (n', a) (_target_assetclasses p) /\
               In s (securities a None).
Proof.
  intros Hother H Hin Hs. unfold init_buys in H. apply bind_ok in H.
  destruct H as (forced & Hf & H). apply identify_buys_ok in H.
  destruct H as (_ & -> & _).
  apply collect_buys_In in Hin. destruct Hin as (a & Ha & [Hl | [_ Hp]]).
  - rewrite (process_forced_buys_lookup p fb forced n Hf) in Hl.
    destruct (lookup n fb) as [[s' |] |] eqn:Efb; try discriminate.
    + inversion Hl; subst b. cbn [pinned security] in Hs.
      inversion Hs; subst s'.
      destruct (process_forced_buys_valid p fb forced Hf (n, Some s)
                  (lookup_In _ _ _ Efb)) as [Hk Hv].
      cbn [fst snd] in Hk, Hv. specialize (Hv s eq_refl).
      destruct (find_in_cases s (_target_assetclasses p))
        as [(a' & Hin' & Hs') | E].
      * exists (assetclass (find_in s (_target_assetclasses p))), a'.
        split; assumption.
      * exfalso. apply Hother. rewrite E in Hv. cbn [assetclass] in Hv.
        rewrite Hv. exact Hk.
    + inversion Hl; subst b. discriminate.
  - exists n, a. split; [exact Ha |].
    apply has_score_listed.
    exact (proj2 (pick_buy_not_sold a acct M b s Hp Hs)).
Qed.

Lemma all_priced_spec (p : TargetPortfolio) (n s : string)
    (a : TargetAssetclass) :
  all_priced p = true ->
  In (n, a) (_target_assetclasses p) -> In s (securities a None) ->
  exists c, lookup s offline_prices = Some c /\ 0 < c.
Proof.
  unfold all_priced. intros H Hin Hs.
  rewrite forallb_forall in H. specialize (H _ Hin). cbn [snd] in H.
  rewrite forallb_forall in H. specialize (H _ Hs).
  destruct (lookup s offline_prices) as [c |]; [| discriminate].
  exists c. split; [reflexivity | apply Qltb_lt; exact H].
Qed.

Lemma price_buys_ok (buys : list (string * Buy)) :
  (forall n b s, In (n, b) buys -> security b = Some s ->
                 exists c, lookup s offline_prices = Some c /\ 0 < c) ->
  exists prices,
    price_buys buys = Ok prices /\
    (forall n c, In (n, c) prices -> 0 < c) /\
    forall n b s, In (n, b) buys -> security b = Some s ->
                  In n (keys prices).
Proof.
  induction buys as [| [n b] buys IH]; intros H.
  - exists []. split; [reflexivity |]. split; [intros n c [] |].
    intros n b s [].
  - destruct IH as (rest & Hr & Hpos & Hkeys).
    { intros n' b' s' Hin. apply (H n' b' s'). right. exact Hin. }
    cbn [price_buys]. destruct (security b) as [s |] eqn:Es.
    + destruct (H n b s (or_introl eq_refl) Es) as (c & Ec & Hc).
      unfold current_price_offline. rewrite Ec. cbn [bind]. rewrite Hr.
      cbn [bind]. exists ((n, c) :: rest). split; [reflexivity |]. split.
      * intros n' c' [E | Hin]; [inversion E; subst; exact Hc |].
        exact (Hpos n' c' Hin).
      * intros n' b' s' [E | Hin] Hs'.
        -- inversion E; subst. left. reflexivity.
        -- right. exact (Hkeys n' b' s' Hin Hs').
    + exists rest. split; [exact Hr |]. split; [exact Hpos |].
      intros n' b' s' [E | Hin] Hs'.
      * inversion E; subst. congruence.
      * exact (Hkeys n' b' s' Hin Hs').
Qed.

Lemma price_buys_unlisted (buys : list (string * Buy)) (n s : string)
    (b : Buy) :
  In (n, b) buys -> security b = Some s ->
  lookup s offline_prices = None ->
  price_buys buys = Raise KeyError.
Proof.
  induction buys as [| [n' b'] buys IH]; intros Hin Hs Hl; [destruct Hin |].
  cbn [price_buys]. destruct Hin as [E | Hin].
  - inversion E; subst. rewrite Hs. unfold current_price_offline.
    rewrite Hl. reflexivity.
  - specialize (IH Hin Hs Hl). destruct (security b') as [s' |];
      [| exact IH].
    unfold current_price_offline.
    destruct (lookup s' offline_prices); [| reflexivity].
    cbn [bind]. rewrite IH. reflexivity.
Qed.

(** X20: Without a connection the buys are priced from a table: when every
    security of the target portfolio is in the table with a positive
    price, every buy that [__init__] identifies for any account, pinned or
    chosen, gets a positive price under its asset class; a buy whose
    security the table does not list makes the pricing fail with a
    [KeyError].  The default target portfolio of [__init__] is accepted
    by [add_assetclass] and [validate], and all its securities are in the
    table. *)
Theorem offline_buys_have_prices :
  (forall (p : TargetPortfolio) (fb : list (string * option string))
          (acct : Account) (M : Q) (buys : list (string * Buy)),
     init_buys p fb acct M = Ok buys ->
     (all_priced p = true ->
      ~ In OTHER_NAME (keys (_target_assetclasses p)) ->
      exists prices,
        price_buys buys = Ok prices /\
        (forall n c, In (n, c) prices -> 0 < c) /\
        forall n b s, In (n, b) buys -> security b = Some s ->
                      exists c, lookup n prices = Some c /\ 0 < c) /\
     (forall n b s, In (n, b) buys -> security b = Some s ->
                    lookup s offline_prices = None ->
                    price_buys buys = Raise KeyError)) /\
  exists p,
    default_target_portfolio = Ok p /\
    _validated p = true /\
    length (_target_assetclasses p) = 8%nat /\
    all_priced p = true /\
    ~ In OTHER_NAME (keys (_target_assetclasses p)).
Proof.
  split.
  - intros p fb acct M buys Hb. split.
    + intros Hall Hother.
      destruct (price_buys_ok buys) as (prices & Hp & Hpos & Hkeys).
      { intros n b s Hin Hs.
        destruct (buys_are_listed p fb acct M buys n s b Hother Hb Hin Hs)
          as (n' & a & Ha & Hsa).
        exact (all_priced_spec p n' s a Hall Ha Hsa). }
      exists prices. split; [exact Hp |]. split; [exact Hpos |].
      intros n b s Hin Hs. specialize (Hkeys n b s Hin Hs).
      apply lookup_keys in Hkeys.
      destruct (lookup n prices) as [c |] eqn:El; [| congruence].
      exists c. split; [reflexivity |].
      apply (Hpos n c). apply lookup_In. exact El.
    + intros n b s. apply price_buys_unlisted.
  - destruct default_target_portfolio as [p | e] eqn:E;
      [| vm_compute in E; discriminate].
    exists p. split; [reflexivity |].
    vm_compute in E. inversion E. clear E.
    split; [reflexivity |]. split; [reflexivity |].
    split; [vm_compute; reflexivity |].
    unfold keys. cbn [map fst _target_assetclasses]. unfold OTHER_NAME.
    intros H.
    repeat (destruct H as [H | H]; [discriminate H |]). exact H.
Qed.

Lemma offline_buys_have_prices_witness :
  exists p,
    default_target_portfolio = Ok p /\
    forall fb acct M buys,
      init_buys p fb acct M = Ok buys ->
      exists prices,
        price_buys buys = Ok prices /\
        forall n c, In (n, c) prices -> 0 < c.
Proof.
  destruct offline_buys_have_prices
    as (Hgen & p & Hp & _ & _ & Hall & Hother).
  exists p. split; [exact Hp |].
  intros fb acct M buys Hb.
  destruct (Hgen p fb acct M buys Hb) as (Hok & _).
  destruct (Hok Hall Hother) as (prices & Hpr & Hpos & _).
  exists prices. split; [exact Hpr | exact Hpos].
Defined.

(** ** The dictionary of forced buys *)

Lemma lookup_app_notin {V : Type} (k : string) (d1 d2 : list (string * V)) :
  ~ In k (keys d1) -> lookup k (d1 ++ d2) = lookup k d2.
Proof.
  unfold keys. induction d1 as [| [k' v'] d1 IH]; intros H; [reflexivity |].
  simpl in *. destruct (String.eqb k k') eqn:E.
  - apply String.eqb_eq in E. subst k'. exfalso. apply H. left. reflexivity.
  - apply IH. intros Hin. apply H. right. exact Hin.
Qed.

Lemma dict_set_app_notin {V : Type} (k : string) (v : V)
    (d1 d2 : list (string * V)) :
  ~ In k (keys d1) -> dict_set k v (d1 ++ d2) = d1 ++ dict_set k v d2.
Proof.
  unfold keys. induction d1 as [| [k' v'] d1 IH]; intros H; [reflexivity |].
  simpl in *. destruct (String.eqb k k') eqn:E.
  - apply String.eqb_eq in E. subst k'. exfalso. apply H. left. reflexivity.
  - f_equal. apply IH. intros Hin. apply H. right. exact Hin.
Qed.

Lemma forced_buys_loop_refines (p : TargetPortfolio)
    (fb : list (string * option string)) (forced : list (string * Buy))
    (done : list (string * ForcedBuy)) :
  NoDup (keys fb) ->
  (forall k, In k (keys fb) -> ~ In k (keys done)) ->
  process_forced_buys p fb = Ok forced ->
  forced_buys_loop p (keys fb)
    (done ++ map (fun kv => (fst kv, as_given (snd kv))) fb) =
  Ok (done ++ map (fun kb => (fst kb, as_stored (snd kb))) forced).
Proof.
  revert forced done. induction fb as [| [a v] fb IH];
    intros forced done Hnd Hdis H.
  - inversion H. reflexivity.
  - cbn [process_forced_buys] in H.
    apply bind_ok in H. destruct H as (classes & Hc & H).
    destruct (negb (mem a (keys classes))) eqn:Hm; [discriminate |].
    apply bind_ok in H. destruct H as (entry & He & H).
    apply bind_ok in H. destruct H as (rest & Hr & H).
    inversion H; subst forced. clear H.
    unfold keys in Hnd. cbn [map fst] in Hnd.
    inversion Hnd as [| ? ? Hnot Hnd']; subst.
    assert (Ha : ~ In a (keys done)) by (apply Hdis; left; reflexivity).
    assert (Hnext : forall w,
      forced_buys_loop p (keys fb)
        (dict_set a w (done ++ (a, as_given v) ::
                       map (fun kv => (fst kv, as_given (snd kv))) fb)) =
      Ok (done ++ (a, w) ::
          map (fun kb => (fst kb, as_stored (snd kb))) rest)).
    { intros w. rewrite (dict_set_app_notin _ _ _ _ Ha).
      cbn [dict_set]. rewrite String.eqb_refl.
      specialize (IH rest (done ++ [(a, w)]) Hnd').
      rewrite <- !app_assoc in IH. cbn [app] in IH. apply IH; [| exact Hr].
      intros k Hk Hin. unfold keys in Hin. rewrite map_app in Hin.
      apply in_app_or in Hin. destruct Hin as [Hin | [E | []]].
      - apply (Hdis k); [right; exact Hk | exact Hin].
      - cbn [fst] in E. subst k. exact (Hnot Hk). }
    cbn [keys map fst forced_buys_loop snd]. rewrite Hc. cbn [bind].
    rewrite Hm. rewrite (lookup_app_notin _ _ _ Ha).
    cbn [lookup]. rewrite String.eqb_refl.
    destruct v as [s |]; cbn [as_given].
    + apply bind_ok in He. destruct He as (sec & Hs & He).
      cbn [find_forced]. rewrite Hs. cbn [bind].
      destruct (negb (String.eqb (assetclass sec) a)); [discriminate |].
      inversion He; subst entry. cbn [map fst snd].
      apply Hnext.
    + inversion He; subst entry. cbn [map fst snd].
      apply Hnext.
Qed.

(** X21: The loop of [__init__] rewrites the caller's [forced_buys] dictionary
    in place: after a successful run every value is the stored entry that
    [_identify_buys] uses, no longer the ticker or [None] that the user
    wrote; a second [Rebalancer] given the same dictionary finds a
    dictionary where it expects a ticker, places it in no asset class and
    raises [RebalancerError]. *)
Theorem forced_buys_dictionary_is_used_up (p : TargetPortfolio)
    (fb : list (string * option string)) (forced : list (string * Buy)) :
  NoDup (keys fb) ->
  process_forced_buys p fb = Ok forced ->
  let given := map (fun kv => (fst kv, as_given (snd kv))) fb in
  let stored := map (fun kb => (fst kb, as_stored (snd kb))) forced in
  forced_buys_loop p (keys given) given = Ok stored /\
  keys stored = keys fb /\
  (fb <> [] ->
   ~ In OTHER_NAME (keys (_target_assetclasses p)) ->
   forced_buys_loop p (keys stored) stored = Raise RebalancerError).
Proof.
  intros Hnd H given stored.
  assert (Hkg : keys given = keys fb).
  { unfold given, keys. rewrite map_map. reflexivity. }
  assert (Hkf : keys forced = keys fb).
  { clear Hnd Hkg given stored. revert forced H.
    induction fb as [| [a v] fb IH]; intros forced H.
    - inversion H. reflexivity.
    - cbn [process_forced_buys] in H.
      apply bind_ok in H. destruct H as (classes & Hc & H).
      destruct (negb (mem a (keys classes))); [discriminate |].
      apply bind_ok in H. destruct H as (entry & He & H).
      apply bind_ok in H. destruct H as (rest & Hr & H).
      inversion H; subst forced. unfold keys in *. cbn [map fst].
      rewrite (IH rest Hr). reflexivity. }
  assert (Hks : keys stored = keys fb).
  { unfold stored, keys. rewrite map_map. exact Hkf. }
  split; [| split; [exact Hks |]].
  - rewrite Hkg.
    exact (forced_buys_loop_refines p fb forced [] Hnd
             (fun k _ H => H) H).
  - intros Hne Hother.
    destruct fb as [| [a v] fb]; [congruence |].
    cbn [process_forced_buys] in H.
    apply bind_ok in H. destruct H as (classes & Hc & H).
    destruct (negb (mem a (keys classes))) eqn:Hm; [discriminate |].
    apply bind_ok in H. destruct H as (entry & He & H).
    apply bind_ok in H. destruct H as (rest & Hr & H).
    inversion H; subst forced. clear H.
    unfold stored. cbn [map keys fst snd forced_buys_loop].
    rewrite Hc. cbn [bind]. rewrite Hm.
    cbn [lookup]. rewrite String.eqb_refl.
    unfold as_stored. cbn [find_forced]. rewrite Hc. cbn [bind assetclass].
    assert (Ha : String.eqb OTHER_NAME a = false).
    { apply String.eqb_neq. intros E. apply Hother. rewrite E.
      apply negb_false_iff, mem_In in Hm.
      unfold target_assetclasses in Hc.
      destruct (_validated p); cbn [assert bind] in Hc; [| discriminate].
      inversion Hc; subst classes. exact Hm. }
    rewrite Ha. reflexivity.
Qed.

Lemma forced_buys_dictionary_is_used_up_witness :
  exists stored,
    forced_buys_loop Demo.portfolio ["Stocks"] [("Stocks", FTicker "IVV")] =
      Ok stored /\
    stored = [("Stocks", FEntry (FTicker "IVV") (Some 1))] /\
    forced_buys_loop Demo.portfolio ["Stocks"] stored = Raise RebalancerError.
Proof.
  destruct (process_forced_buys Demo.portfolio Demo.forced_buys)
    as [forced | e] eqn:E; [| vm_compute in E; discriminate].
  destruct (forced_buys_dictionary_is_used_up Demo.portfolio Demo.forced_buys
              forced) as (Hrun & _ & Hagain).
  - repeat constructor. simpl. tauto.
  - exact E.
  - vm_compute in E. inversion E; subst forced.
    eexists. split; [exact Hrun |]. split; [reflexivity |].
    apply Hagain; [discriminate |].
    unfold OTHER_NAME. simpl. intuition discriminate.
Defined.

(** X22: The forced buys are checked entry by entry: on a validated
    portfolio, a dictionary with a key that is not an asset class, or with
    a ticker that [find_security] does not place in the asset class of its
    key, is refused with [RebalancerError]; before validation any entry
    fails on the assertion of [target_assetclasses]. *)
Theorem invalid_forced_buy_is_rejected (p : TargetPortfolio)
    (fb : list (string * option string)) :
  (_validated p = false -> fb <> [] ->
   process_forced_buys p fb = Raise AssertionError) /\
  (_validated p = true ->
   (exists entry, In entry fb /\ ~ forced_entry_valid p entry) ->
   process_forced_buys p fb = Raise RebalancerError).
Proof.
  split.
  - intros Hv Hne. destruct fb as [| [a v] fb]; [congruence |].
    cbn [process_forced_buys]. unfold target_assetclasses. rewrite Hv.
    reflexivity.
  - intros Hv. induction fb as [| [a v] fb IH]; intros (entry & Hin & Hinv);
      [destruct Hin |].
    cbn [process_forced_buys]. unfold find_security, target_assetclasses.
    rewrite Hv. cbn [assert bind].
    destruct (mem a (keys (_target_assetclasses p))) eqn:Hm; cbn [negb];
      [| reflexivity].
    assert (Hrest : forced_entry_valid p (a, v) ->
                    process_forced_buys p fb = Raise RebalancerError).
    { intros Hval. apply IH. destruct Hin as [<- | Hin]; [contradiction |].
      exists entry. split; assumption. }
    destruct v as [s |].
    + destruct (String.eqb (assetclass (find_in s (_target_assetclasses p))) a)
        eqn:Ea; cbn [negb bind]; [| reflexivity].
      rewrite Hrest; [reflexivity |].
      split; [apply mem_In; exact Hm |].
      cbn [fst snd]. intros s' E. inversion E; subst s'.
      apply String.eqb_eq. exact Ea.
    + cbn [bind]. rewrite Hrest; [reflexivity |].
      split; [apply mem_In; exact Hm |].
      cbn [fst snd]. intros s' E. discriminate.
Qed.

Lemma invalid_forced_buy_is_rejected_witness :
  process_forced_buys Demo.portfolio [("Stocks", Some "MUB")] =
    Raise RebalancerError /\
  process_forced_buys Demo.portfolio [("Gold", None)] =
    Raise RebalancerError.
Proof.
  destruct (invalid_forced_buy_is_rejected Demo.portfolio
              [("Stocks", Some "MUB")]) as (_ & H1).
  destruct (invalid_forced_buy_is_rejected Demo.portfolio
              [("Gold", None)]) as (_ & H2).
  split.
  - apply H1; [reflexivity |].
    exists ("Stocks", Some "MUB"). split; [left; reflexivity |].
    intros [_ H]. specialize (H "MUB" eq_refl). vm_compute in H.
    discriminate.
  - apply H2; [reflexivity |].
    exists ("Gold", None). split; [left; reflexivity |].
    intros [H _]. simpl in H. intuition discriminate.
Defined.

(** ** Placing the trades *)

Lemma place_sells_spec (broker : Broker) (sells : list (string * Sell))
    (log log' : list (Order * Outcome)) (error : bool) (r : option bool) :
  place_sells broker sells log error = (log', r) ->
  exists added,
    log' = log ++ added /\
    (forall x, In x added -> is_buy (fst x) = false) /\
    (r = Some false ->
     error = false /\
     added = map (fun se => (sell_order se, Some PLACED)) sells).
Proof.
  revert log error. induction sells as [| se sells IH]; intros log error H.
  - cbn [place_sells] in H. inversion H; subst. exists [].
    split; [rewrite app_nil_r; reflexivity |].
    split; [intros x [] |]. intros E. inversion E. split; reflexivity.
  - cbn [place_sells] in H. cbv zeta in H.
    destruct (broker log (sell_order se)) as [o |] eqn:Eo.
    + apply IH in H. destruct H as (added & -> & Hsell & Hok).
      exists ((sell_order se, Some o) :: added).
      split; [rewrite <- app_assoc; reflexivity |]. split.
      * intros x [<- | Hx]; [reflexivity | exact (Hsell x Hx)].
      * intros Hr. destruct (Hok Hr) as (He & ->).
        destruct (String.eqb o PLACED) eqn:Ep; cbn [negb] in He;
          [| discriminate].
        apply String.eqb_eq in Ep. subst o. split; [exact He | reflexivity].
    + inversion H; subst. exists [(sell_order se, None)].
      split; [reflexivity |]. split; [| discriminate].
      intros x [<- | []]. reflexivity.
Qed.

Lemma place_buys_spec (broker : Broker) (w : nat) (rows : list BuyRow)
    (log : list (Order * Outcome)) (error : bool) :
  exists added,
    (forall x, In x added -> is_buy (fst x) = true) /\
    match place_buys broker w rows log error with
    | inl (log', e) => log' = log ++ added /\ e <> Returns
    | inr (log', error') =>
        log' = log ++ added /\
        (error' = false ->
         error = false /\
         added = map (fun o => (o, Some PLACED)) (buy_orders rows))
    end.
Proof.
  revert log error. induction rows as [| row rows IH]; intros log error.
  - exists []. split; [intros x [] |]. cbn [place_buys].
    split; [rewrite app_nil_r; reflexivity |]. intros ->.
    split; reflexivity.
  - cbn [place_buys buy_orders flat_map].
    fold (buy_orders rows).
    destruct (row_buy_security row) as [s |];
      [| exact (IH log error)].
    destruct (row_buy_quantity row) as [q |];
      [| exact (IH log error)].
    destruct (0 <? q)%Z; [| exact (IH log error)].
    cbv zeta. destruct (broker log (BuyOrder s q)) as [o |] eqn:Eo.
    + destruct (w =? 112)%nat.
      * exists [(BuyOrder s q, Some o)].
        split; [intros x [<- | []]; reflexivity |].
        split; [reflexivity | discriminate].
      * destruct (IH (log ++ [(BuyOrder s q, Some o)])
                     (if negb (String.eqb o PLACED) then true else error))
          as (added & Hbuy & Hres).
        exists ((BuyOrder s q, Some o) :: added). split.
        { intros x [<- | Hx]; [reflexivity | exact (Hbuy x Hx)]. }
        destruct (place_buys broker w rows _ _) as [[log' e] | [log' error']].
        -- destruct Hres as (-> & He). split; [| exact He].
           rewrite <- app_assoc. reflexivity.
        -- destruct Hres as (-> & Hok).
           split; [rewrite <- app_assoc; reflexivity |].
           intros Hr. destruct (Hok Hr) as (He & ->).
           destruct (String.eqb o PLACED) eqn:Ep; cbn [negb] in He;
             [| discriminate].
           apply String.eqb_eq in Ep. subst o.
           split; [exact He | reflexivity].
    + exists [(BuyOrder s q, None)].
      split; [intros x [<- | []]; reflexivity |].
      split; [reflexivity | discriminate].
Qed.

(** X23: [rebalance] buys only after it has sold: no order is attempted when
    the markets are closed or the user does not answer yes; a purchase is
    attempted only when every sale of [self._sells] was attempted and came
    back as placed; and the call returns normally, after the confirmation,
    only when exactly the sales and the purchases with a positive quantity
    were attempted, in this order, and all were placed. *)
Theorem purchases_only_after_all_sales_placed (market_open : bool)
    (answer : string) (broker : Broker) (sells : list (string * Sell))
    (first_col_len : option nat) (rows : list BuyRow) :
  let log := fst (rebalance market_open answer broker sells first_col_len
                            rows) in
  let ending := snd (rebalance market_open answer broker sells first_col_len
                               rows) in
  (market_open = false -> log = [] /\ ending = Raises RebalancerError) /\
  (market_open = true -> answer <> "yes" -> log = [] /\ ending = Returns) /\
  ((exists x, In x log /\ is_buy (fst x) = true) ->
   market_open = true /\ answer = "yes" /\
   forall se, In se sells -> In (sell_order se, Some PLACED) log) /\
  (ending = Returns -> answer = "yes" ->
   log = map (fun se => (sell_order se, Some PLACED)) sells ++
         map (fun o => (o, Some PLACED)) (buy_orders rows)).
Proof.
  cbv zeta. unfold rebalance.
  destruct market_open; cbn [negb].
  2: { cbn [fst snd]. split; [auto |]. split; [discriminate |].
       split; [intros (x & [] & _) | discriminate]. }
  split; [discriminate |].
  destruct (String.eqb answer "yes") eqn:Ea; cbn [negb].
  2: { cbn [fst snd]. apply String.eqb_neq in Ea.
       split; [auto |]. split; [intros (x & [] & _) | congruence]. }
  apply String.eqb_eq in Ea.
  split; [congruence |].
  destruct (place_sells broker sells [] false) as [slog r] eqn:Es.
  apply place_sells_spec in Es. destruct Es as (sold & -> & Hsell & Hok).
  cbn [app] in *.
  assert (Hnobuy : ~ exists x, In x sold /\ is_buy (fst x) = true).
  { intros (x & Hx & Hb). rewrite (Hsell x Hx) in Hb. discriminate. }
  destruct r as [[|] |]; cbn [fst snd].
  - split; [intros H; destruct (Hnobuy H) | discriminate].
  - destruct (Hok eq_refl) as (_ & ->).
    destruct first_col_len as [w |]; cbn [fst snd].
    + pose proof (place_buys_spec broker w rows
                    (map (fun se => (sell_order se, Some PLACED)) sells)
                    false) as (bought & Hbuy & Hres).
      destruct (place_buys broker w rows _ false)
        as [[log' e] | [log' [|]]]; cbn [fst snd].
      * destruct Hres as (-> & He). split; [| congruence].
        intros _. split; [reflexivity |]. split; [exact Ea |].
        intros se Hse. apply in_or_app. left.
        apply (in_map (fun se => (sell_order se, Some PLACED))). exact Hse.
      * destruct Hres as (-> & _). split; [| discriminate].
        intros _. split; [reflexivity |]. split; [exact Ea |].
        intros se Hse. apply in_or_app. left.
        apply (in_map (fun se => (sell_order se, Some PLACED))). exact Hse.
      * destruct Hres as (-> & Hall). destruct (Hall eq_refl) as (_ & ->).
        split; [| reflexivity].
        intros _. split; [reflexivity |]. split; [exact Ea |].
        intros se Hse. apply in_or_app. left.
        apply (in_map (fun se => (sell_order se, Some PLACED))). exact Hse.
    + split; [| discriminate].
      intros _. split; [reflexivity |]. split; [exact Ea |].
      intros se Hse.
      apply (in_map (fun se => (sell_order se, Some PLACED))). exact Hse.
  - split; [intros H; destruct (Hnobuy H) | discriminate].
Qed.

Lemma purchases_only_after_all_sales_placed_witness :
  let sells := [("ORAN", {| sell_lots := [{| ref_position_lot_id := "5";
                                             ref_quantity := 8 |}];
                            sell_loss := true; sell_gain := false;
                            estimated_proceeds := Some 80 |})] in
  let rows := [{| row_name := "Stocks"; row_buy_security := Some "VOO";
                  row_buy_quantity := Some 2%Z |};
               {| row_name := "Other"; row_buy_security := None;
                  row_buy_quantity := None |}] in
  let broker : Broker := fun _ _ => Some PLACED in
  snd (rebalance true "yes" broker sells (Some 20%nat) rows) = Returns /\
  In (SellOrder "ORAN" 8 [{| ref_position_lot_id := "5";
                              ref_quantity := 8 |}], Some PLACED)
     (fst (rebalance true "yes" broker sells (Some 20%nat) rows)) /\
  fst (rebalance true "yes" (fun _ _ => Some "QUEUED") sells (Some 20%nat)
                 rows) =
    [(sell_order ("ORAN", {| sell_lots := [{| ref_position_lot_id := "5";
                                              ref_quantity := 8 |}];
                             sell_loss := true; sell_gain := false;
                             estimated_proceeds := Some 80 |}),
      Some "QUEUED")].
Proof.
  cbv zeta. split; [reflexivity |]. split; [| reflexivity].
  destruct (purchases_only_after_all_sales_placed
              true "yes" (fun _ _ => Some PLACED)
              [("ORAN", {| sell_lots := [{| ref_position_lot_id := "5";
                                            ref_quantity := 8 |}];
                           sell_loss := true; sell_gain := false;
                           estimated_proceeds := Some 80 |})]
              (Some 20%nat)
              [{| row_name := "Stocks"; row_buy_security := Some "VOO";
                  row_buy_quantity := Some 2%Z |};
               {| row_name := "Other"; row_buy_security := None;
                  row_buy_quantity := None |}])
    as (_ & _ & Hbuy & _).
  destruct Hbuy as (_ & _ & Hall).
  - exists (BuyOrder "VOO" 2, Some PLACED). split; [| reflexivity].
    right. left. reflexivity.
  - specialize (Hall _ (or_introl eq_refl)).
    unfold sell_order in Hall. cbn [fst snd sell_lots map ref_quantity] in Hall.
    exact Hall.
Defined.

(** ** Parsing the downloaded data *)

Lemma no_duplicates_NoDup (ids : list string) :
  no_duplicates ids = true <-> NoDup ids.
Proof.
  induction ids as [| i ids IH]; simpl.
  - split; [constructor | reflexivity].
  - rewrite andb_true_iff, negb_true_iff, IH. split.
    + intros [Hm Hnd]. constructor; [apply mem_false_In; exact Hm | exact Hnd].
    + intros H. inversion H; subst. split; [apply mem_false_In |]; assumption.
Qed.

Lemma parse_data_ok (positions : list RawPosition) (lots : list RawLot)
    (ps : list Position) (ls : list Lot) :
  _parse_data positions lots = ParsedOk (ps, ls) ->
  NoDup (map rp_position_id positions) /\
  nothing_missing positions lots = true /\
  (forall p, In p positions ->
     rp_quantity p == Qsum (map rl_quantity (lots_of lots p)) /\
     value_mismatch (rp_market_value p)
                    (Qsum (map rl_market_value (lots_of lots p))) = false) /\
  ps = map (parsed_position lots) positions /\
  ls = map (parsed_lot positions) lots.
Proof.
  unfold _parse_data. intros H.
  destruct positions as [| p0 positions]; [discriminate |].
  destruct lots as [| l0 lots]; [discriminate |].
  destruct (no_duplicates _) eqn:E1; cbn [negb] in H; [| discriminate].
  destruct (nothing_missing _ _) eqn:E2; cbn [negb] in H; [| discriminate].
  destruct (forallb _ _) eqn:E3 in H; cbn [negb] in H; [| discriminate].
  destruct (forallb _ _) eqn:E4 in H; cbn [negb] in H; [| discriminate].
  inversion H; subst. clear H.
  split; [apply no_duplicates_NoDup; exact E1 |].
  split; [reflexivity |]. split; [| split; reflexivity].
  intros p Hp. rewrite forallb_forall in E3, E4. split.
  - apply Qeq_bool_iff. exact (E3 p Hp).
  - apply negb_true_iff. exact (E4 p Hp).
Qed.

Lemma symbol_of_position (positions : list RawPosition) (l : RawLot)
    (p : RawPosition) :
  NoDup (map rp_position_id positions) ->
  In p positions -> rl_position_id l = rp_position_id p ->
  symbol_of positions l = Some (rp_symbol p).
Proof.
  intros Hnd Hp E. unfold symbol_of. apply In_lookup.
  - unfold keys. rewrite map_map. exact Hnd.
  - rewrite E. apply in_map_iff. exists p. split; [reflexivity | exact Hp].
Qed.

Lemma lot_has_position (positions : list RawPosition) (lots : list RawLot)
    (l : RawLot) :
  nothing_missing positions lots = true -> In l lots ->
  exists p, In p positions /\ rl_position_id l = rp_position_id p.
Proof.
  unfold nothing_missing. intros H Hl. apply andb_true_iff in H.
  destruct H as [_ H]. rewrite forallb_forall in H. specialize (H l Hl).
  apply mem_In, in_map_iff in H. destruct H as (p & E & Hp).
  exists p. split; [exact Hp | symmetry; exact E].
Qed.

Lemma Qsum_signed (query : Q -> bool) (l : list Q) :
  ((forall g, query g = true -> g <= 0) -> Qsum (filter query l) <= 0) /\
  ((forall g, query g = true -> 0 <= g) -> 0 <= Qsum (filter query l)).
Proof.
  split; intros H; induction l as [| g l IH]; simpl; try lra;
    destruct (query g) eqn:E; simpl; try exact IH;
    specialize (H g E); lra.
Qed.

Lemma filter_map_comm {A B : Type} (f : A -> B) (q : B -> bool)
    (l : list A) :
  filter q (map f l) = map f (filter (fun a => q (f a)) l).
Proof.
  induction l as [| a l IH]; simpl; [reflexivity |].
  destruct (q (f a)); simpl; rewrite IH; reflexivity.
Qed.

Lemma filter_filter {A : Type} (f g : A -> bool) (l : list A) :
  filter f (filter g l) = filter (fun a => g a && f a) l.
Proof.
  induction l as [| a l IH]; simpl; [reflexivity |].
  destruct (g a); simpl; [destruct (f a); simpl |]; rewrite IH; reflexivity.
Qed.

(** The lots that [df_lots] lists under the symbol of a position are the
    lots of that position, when no two positions share a symbol. *)
Lemma lots_by_symbol (positions : list RawPosition) (lots : list RawLot)
    (p : RawPosition) (query : Q -> bool) :
  NoDup (map rp_position_id positions) ->
  NoDup (map rp_symbol positions) ->
  nothing_missing positions lots = true ->
  In p positions ->
  filter (fun r => String.eqb (symbol r) (rp_symbol p) && query (gain r))
         (map (parsed_lot positions) lots) =
  map (parsed_lot positions)
      (filter (fun l => query (raw_gain l)) (lots_of lots p)).
Proof.
  intros Hids Hsyms Hmiss Hp. rewrite filter_map_comm. f_equal.
  unfold lots_of. rewrite filter_filter. apply filter_ext_in.
  intros l Hl. cbn [parsed_lot symbol gain]. f_equal.
  destruct (lot_has_position positions lots l Hmiss Hl) as (q & Hq & E).
  rewrite (symbol_of_position positions l q Hids Hq E).
  destruct (String.eqb (rl_position_id l) (rp_position_id p)) eqn:Eid.
  - apply String.eqb_eq in Eid.
    assert (q = p) as ->.
    { apply (NoDup_map_inj rp_position_id positions); auto. congruence. }
    apply String.eqb_refl.
  - apply String.eqb_neq. intros Es. apply String.eqb_neq in Eid.
    apply Eid.
    assert (q = p) as ->.
    { apply (NoDup_map_inj rp_symbol positions); auto. }
    exact E.
Qed.

(** X24: What [_parse_data] hands on, when it passes its assertions: the
    positions in the order downloaded, with distinct ids; every lot under
    the symbol of a listed position; for every position a loss summary
    that is not positive and a gain summary that is not negative, a
    quantity that is the sum of the quantities of its lots and a positive
    market value within one percent of that of its lots; and, when no
    two positions share a symbol, summaries that are the sums of the
    negative and of the positive gains of the lots listed under the symbol
    of the position. *)
Theorem parsed_account_is_consistent (positions : list RawPosition)
    (lots : list RawLot) (ps : list Position) (ls : list Lot) :
  _parse_data positions lots = ParsedOk (ps, ls) ->
  NoDup (map rp_position_id positions) /\
  map p_symbol ps = map rp_symbol positions /\
  map position_lot_id ls = map rl_position_lot_id lots /\
  (forall lot, In lot ls -> In (symbol lot) (map p_symbol ps)) /\
  (forall p, In p ps -> lots_loss p <= 0 /\ 0 <= lots_gain p) /\
  (forall p, In p positions ->
     rp_quantity p == Qsum (map rl_quantity (lots_of lots p)) /\
     (0 < rp_market_value p ->
      Qabs (rp_market_value p - Qsum (map rl_market_value (lots_of lots p)))
        <= (1 # 100) * rp_market_value p)) /\
  (NoDup (map rp_symbol positions) ->
   forall p, In p ps ->
     lots_loss p ==
       Qsum (map gain (filter (fun r => String.eqb (symbol r) (p_symbol p) &&
                                        Qltb (gain r) 0) ls)) /\
     lots_gain p ==
       Qsum (map gain (filter (fun r => String.eqb (symbol r) (p_symbol p) &&
                                        Qltb 0 (gain r)) ls))).
Proof.
  intros H. apply parse_data_ok in H.
  destruct H as (Hids & Hmiss & Hchecks & -> & ->).
  split; [exact Hids |].
  split; [rewrite map_map; reflexivity |].
  split; [rewrite map_map; reflexivity |].
  split; [| split; [| split]].
  - intros lot Hlot. apply in_map_iff in Hlot.
    destruct Hlot as (l & <- & Hl).
    destruct (lot_has_position positions lots l Hmiss Hl) as (q & Hq & E).
    cbn [parsed_lot symbol].
    rewrite (symbol_of_position positions l q Hids Hq E).
    rewrite map_map. cbn [parsed_position p_symbol].
    apply in_map_iff. exists q. split; [reflexivity | exact Hq].
  - intros p Hp. apply in_map_iff in Hp. destruct Hp as (raw & <- & _).
    cbn [parsed_position lots_loss lots_gain]. unfold lots_summary.
    pose proof (filter_map_comm raw_gain (fun g => Qltb g 0)
                  (lots_of lots raw)) as E1.
    pose proof (filter_map_comm raw_gain (fun g => Qltb 0 g)
                  (lots_of lots raw)) as E2.
    cbv beta in E1, E2. rewrite <- E1, <- E2. split.
    + apply (proj1 (Qsum_signed (fun g => Qltb g 0) _)).
      intros g Hg. apply Qltb_lt in Hg. lra.
    + apply (proj2 (Qsum_signed (fun g => Qltb 0 g) _)).
      intros g Hg. apply Qltb_lt in Hg. lra.
  - intros p Hp. destruct (Hchecks p Hp) as [Hq Hv]. split; [exact Hq |].
    intros Hpos. unfold value_mismatch in Hv.
    destruct (Qeq_bool (rp_market_value p) 0) eqn:E0.
    + apply Qeq_bool_iff in E0. lra.
    + apply Qltb_ge in Hv.
      set (d := Qabs (rp_market_value p -
                      Qsum (map rl_market_value (lots_of lots p)))) in *.
      assert (E : d == d / rp_market_value p * rp_market_value p)
        by (field; lra).
      rewrite E. apply Qmult_le_compat_r; [exact Hv | lra].
  - intros Hsyms p Hp. apply in_map_iff in Hp. destruct Hp as (raw & <- & Hraw).
    cbn [parsed_position lots_loss lots_gain p_symbol]. unfold lots_summary.
    rewrite (lots_by_symbol positions lots raw (fun g => Qltb g 0)
               Hids Hsyms Hmiss Hraw).
    rewrite (lots_by_symbol positions lots raw (fun g => Qltb 0 g)
               Hids Hsyms Hmiss Hraw).
    rewrite !map_map. cbn [parsed_lot gain]. split; reflexivity.
Qed.

Lemma parsed_account_is_consistent_witness :
  exists ps ls,
    _parse_data
      [ {| rp_position_id := "7"; rp_symbol := "IVV";
           rp_market_value := 4000; rp_quantity := 10 |} ]
      [ {| rl_position_id := "7"; rl_position_lot_id := "1";
           rl_price := 450; rl_market_value := 1600; rl_quantity := 4 |};
        {| rl_position_id := "7"; rl_position_lot_id := "2";
           rl_price := 350; rl_market_value := 2400; rl_quantity := 6 |} ]
    = ParsedOk (ps, ls) /\
    map p_symbol ps = ["IVV"] /\
    forall p, In p ps -> lots_loss p <= 0 /\ 0 <= lots_gain p.
Proof.
  destruct (_parse_data _ _) as [[ps ls] | e |] eqn:E;
    [| vm_compute in E; discriminate | vm_compute in E; discriminate].
  destruct (parsed_account_is_consistent _ _ ps ls E)
    as (_ & Hsyms & _ & _ & Hsigns & _).
  exists ps, ls. split; [reflexivity |]. split; [exact Hsyms | exact Hsigns].
Defined.
